(** * AirGradient firmware (src/main.cpp): AQI conversion, sampling and
    publishing loop.

    The development embeds [linear], [pm25toAQI], [reconnect] and [loop] of
    [src/main.cpp] and states the properties of the specification over them.

    Part 1 is a model of the IEEE-754 binary formats the C++ code computes
    in ([float] is binary32, [double] is binary64), part 2 the AQI converter,
    part 3 the text conversions of the Arduino [String] class the firmware
    uses, part 4 the device loop as a state-passing program over an
    environment of sensor, clock and transport answers.  Part 5 has the
    traces and invariants of the loop that the later properties speak of,
    part 6 the reading of a device identifier and of a payload, part 7
    [setupWiFi()] and [setup()] as the sequence of calls they make.

    Outside the model: the output on [Serial], which no property below
    speaks of, and the driver calls inside [lcd], which is one event. *)

From Stdlib Require Import ZArith QArith Qround Qabs Qpower Lia Lqa Bool List.
From Stdlib Require Import SpecFloat.
From Stdlib Require Import Ascii String DecimalString HexadecimalString.
From Stdlib Require DecimalFacts HexadecimalFacts DecimalPos HexadecimalPos.
From Stdlib Require DecimalN HexadecimalN DecimalZ Nnat Qcanon.
Import ListNotations.

Local Open Scope Z_scope.

(** ** Part 1. Binary floating point *)

Module FP.

(** A binary format: [prec] bits of significand, smallest exponent of a
    unit in the last place [emin], and overflow threshold [2 ^ emax]. *)
Record format := Format { prec : Z; emin : Z; emax : Z }.

Definition binary32 : format := Format 24 (-149) 128.
Definition binary64 : format := Format 53 (-1074) 1024.

Definition pow2 (e : Z) : Q := (2 ^ e)%Q.

(** [ilog2 x] is the integer [k] with [2^k <= x < 2^(k+1)], for [x > 0]. *)
Definition ilog2 (x : Q) : Z :=
  let k := Z.log2 (Qnum x) - Z.log2 (Zpos (Qden x)) in
  if Qle_bool (pow2 k) x then k else k - 1.

(** Nearest integer, ties to the even one. *)
Definition rne (x : Q) : Z :=
  let f := Qfloor x in
  match (x - inject_Z f ?= 1 # 2)%Q with
  | Lt => f
  | Gt => f + 1
  | Eq => if Z.even f then f else f + 1
  end.

(** Exponent of the unit in the last place of the format around [x > 0]. *)
Definition cexp (fmt : format) (x : Q) : Z :=
  Z.max (ilog2 x - (prec fmt - 1)) (emin fmt).

Definition round_pos (fmt : format) (x : Q) : Q :=
  let e := cexp fmt x in
  Qred (inject_Z (rne (x / pow2 e)) * pow2 e).

(** Round to nearest, ties to even, in an unbounded exponent range above. *)
Definition round (fmt : format) (x : Q) : Q :=
  match Qnum x with
  | Z0 => 0%Q
  | Zpos _ => round_pos fmt x
  | Zneg _ => Qred (- round_pos fmt (- x))
  end.

(** Values of a format.  The two zeros are identified: the program never
    divides by a zero (the divisors of [linear] are differences of distinct
    literals, the one of the truncation is 10), and [div] takes a zero
    divisor as the positive one. *)
Inductive float : Type :=
| Fin (q : Q)
| Inf (neg : bool)
| NaN.

Definition Qneg (x : Q) : bool :=
  match Qnum x with Zneg _ => true | _ => false end.

Definition Qzero (x : Q) : bool :=
  match Qnum x with Z0 => true | _ => false end.

(** Rounding of an exact result, with overflow to an infinity. *)
Definition rnd (fmt : format) (x : Q) : float :=
  let r := round fmt x in
  if Qle_bool (pow2 (emax fmt)) (Qabs r) then Inf (Qneg x) else Fin r.

Definition of_int (fmt : format) (z : Z) : float := rnd fmt (inject_Z z).

(** A decimal literal of the source, given as the rational it denotes. *)
Definition lit (fmt : format) (x : Q) : float := rnd fmt x.

(** Conversion between formats ([float] to [double] is exact, [double] to
    [float] rounds). *)
Definition cast (fmt : format) (x : float) : float :=
  match x with
  | Fin q => rnd fmt q
  | _ => x
  end.

Definition add (fmt : format) (x y : float) : float :=
  match x, y with
  | Fin a, Fin b => rnd fmt (a + b)
  | Inf s, Inf t => if Bool.eqb s t then Inf s else NaN
  | Inf s, Fin _ | Fin _, Inf s => Inf s
  | _, _ => NaN
  end.

Definition opp (x : float) : float :=
  match x with
  | Fin a => Fin (- a)
  | Inf s => Inf (negb s)
  | NaN => NaN
  end.

Definition sub (fmt : format) (x y : float) : float := add fmt x (opp y).

Definition mul (fmt : format) (x y : float) : float :=
  match x, y with
  | Fin a, Fin b => rnd fmt (a * b)
  | Inf s, Fin b | Fin b, Inf s => if Qzero b then NaN else Inf (xorb s (Qneg b))
  | Inf s, Inf t => Inf (xorb s t)
  | _, _ => NaN
  end.

Definition div (fmt : format) (x y : float) : float :=
  match x, y with
  | Fin a, Fin b =>
      if Qzero b then (if Qzero a then NaN else Inf (Qneg a))
      else rnd fmt (a / b)
  | Fin _, Inf _ => Fin 0
  | Inf s, Fin b => Inf (xorb s (Qneg b))
  | _, _ => NaN
  end.

(** [floor] of the C library: exact on finite values. *)
Definition floor (x : float) : float :=
  match x with
  | Fin a => Fin (inject_Z (Qfloor a))
  | _ => x
  end.

(** Comparisons: false as soon as an operand is a NaN. *)
Definition ltb (x y : float) : bool :=
  match x, y with
  | Fin a, Fin b => negb (Qle_bool b a)
  | Fin _, Inf s => negb s
  | Inf s, Fin _ => s
  | Inf s, Inf t => s && negb t
  | _, _ => false
  end.

Definition leb (x y : float) : bool :=
  match x, y with
  | Fin a, Fin b => Qle_bool a b
  | Fin _, Inf s => negb s
  | Inf s, Fin _ => s
  | Inf s, Inf t => s || negb t
  | _, _ => false
  end.

Definition geb (x y : float) : bool := leb y x.

(** Round half away from zero to an integer. *)
Definition round_half_away (x : Q) : Z :=
  if Qneg x then - Qfloor (- x + (1 # 2)) else Qfloor (x + (1 # 2)).

(** Two finite values in order, within bounds; one finite value within
    bounds. *)
Definition ordered_in (lo hi : Q) (x y : float) : Prop :=
  exists a b, x = Fin a /\ y = Fin b /\ (lo <= a /\ a <= b /\ b <= hi)%Q.

Definition fin_in (lo hi : Q) (v : float) : Prop := ordered_in lo hi v v.

(** *** Comparison with the Standard Library

    [SpecFloat] specifies the IEEE-754 operations on significand and
    exponent.  The definitions below evaluate its operations and the ones
    above on the same operands, given as [m * 2^e]. *)
Definition SF2Q (x : spec_float) : option Q :=
  match x with
  | S754_zero _ => Some 0%Q
  | S754_finite s m e =>
      Some (Qred (inject_Z (if s then Z.neg m else Z.pos m) * pow2 e))
  | _ => None
  end.

Definition same_value (x : spec_float) (y : float) : bool :=
  match x, y with
  | S754_infinity s, Inf t => Bool.eqb s t
  | S754_nan, NaN => true
  | _, Fin r => match SF2Q x with Some v => Qeq_bool v r | None => false end
  | _, _ => false
  end.

Definition agrees (fmt : format) (c : (Z * Z) * (Z * Z)) : bool :=
  let '((m1, e1), (m2, e2)) := c in
  let p := prec fmt in
  let E := emax fmt in
  let x := binary_normalize p E m1 e1 false in
  let y := binary_normalize p E m2 e2 false in
  let a := rnd fmt (inject_Z m1 * pow2 e1) in
  let b := rnd fmt (inject_Z m2 * pow2 e2) in
  same_value x a && same_value y b &&
  same_value (SFadd p E x y) (add fmt a b) &&
  same_value (SFsub p E x y) (sub fmt a b) &&
  same_value (SFmul p E x y) (mul fmt a b) &&
  same_value (SFdiv p E x y) (div fmt a b).

Definition operands32 : list ((Z * Z) * (Z * Z)) :=
  [
    ((9148983, -16), (-14520728, -4)); ((13308624, 3), (-4394838, 10));
    ((-5692445, -12), (-16434308, 12)); ((-1392202, -29), (11296506, -8));
    ((-7402354, 4), (5436790, -25)); ((-8123067, -9), (-13000642, 1));
    ((-10289801, -15), (-15224509, 26)); ((10181283, 11), (-10646710, -19));
    ((-15345067, -26), (4439229, 0)); ((-3387677, 16), (-11802277, -25));
    ((-8064515, -15), (-15466095, 1)); ((9880313, -27), (-3941232, -25));
    ((12377060, 12), (1207887, 14)); ((-1746177, -17), (4514289, -16));
    ((1622239, -141), (-4287098, 4)); ((-8773908, -132), (5921646, 9));
    ((-10835843, -147), (12223503, 10)); ((-6207562, -134), (-5507755, -12));
    ((14004598, -140), (6084490, 10)); ((16258053, 82), (-6056485, 20));
    ((-11822978, 86), (-3142716, 16)); ((1404076, 89), (6915832, 14));
    ((-14991533, 89), (4024491, 11)); ((4740845, 100), (-15944445, 23));
    ((16777215, 0), (1, -1)); ((8388609, 1), (1, 0)); ((1001, 0), (10, 0));
    ((121, 0), (10, 0))
  ].

Definition operands64 : list ((Z * Z) * (Z * Z)) :=
  [
    ((2222727967908945, -9), (2861717431563003, 12));
    ((-2551326282453824, -22), (-1348741371177119, -14));
    ((-3567692100728649, -28), (-2658122497688434, -15));
    ((-1209152576265197, 29), (5760243109536370, -20));
    ((4502118435490247, 5), (3585815994995581, -1));
    ((7121909979878990, -18), (1948148145727254, 17));
    ((2434120311037868, -28), (-233186155707616, 10));
    ((-2238591206149635, -22), (5901280172628483, 13));
    ((-608024982367429, -13), (-2163202457449779, -12));
    ((-5555306046445965, -1), (6808796040201015, -7));
    ((1480252943974355, 21), (6138341327468505, 8));
    ((1417235429211877, -4), (-4303117920059843, 23));
    ((-630148905161090, 29), (-1791043703674369, -27));
    ((-437292144152182, 20), (-6137845480640339, 18));
    ((6597415058949558, -1063), (-436182979964998, -8));
    ((7543498408613843, -1055), (8877065480593433, 3));
    ((-4325897034757243, -1065), (-5618089053433494, -9));
    ((7429205012036955, -1071), (6747504517097392, -11));
    ((7729941161587838, -1065), (-5848954057795376, -11));
    ((-1435612242402594, 964), (3973474801517815, 19));
    ((769996040588351, 949), (2161613544112014, 6));
    ((-3291715563307025, 967), (-8198984832989933, -1));
    ((-5813248621584247, 950), (-2592080509598275, 39));
    ((-1994256479164100, 954), (3372940080655668, 15));
    ((9007199254740991, 0), (1, -1)); ((4503599627370497, 1), (1, 0));
    ((1001, 0), (10, 0)); ((121, 0), (10, 0))
  ].

End FP.

(** ** Part 2. The AQI converter *)

Module Converter.
Import FP.

(** C++ [float] and [double] on the ESP8266. *)
Definition f32 : format := binary32.
Definition f64 : format := binary64.

(** [int] is 32 bits wide. *)
Definition INT_MIN : Z := - 2 ^ 31.
Definition INT_MAX : Z := 2 ^ 31 - 1.

Definition in_int (z : Z) : bool := (INT_MIN <=? z) && (z <=? INT_MAX).

(** Conversion of a floating value to [int]: the fraction is discarded;
    there is no result when the value is not finite or does not fit. *)
Definition to_int (x : float) : option Z :=
  match x with
  | Fin q =>
      let z := Z.quot (Qnum q) (Zpos (Qden q)) in
      if in_int z then Some z else None
  | _ => None
  end.

(** [return round(a);] in a function returning [int]. *)
Definition round_to_int (a : float) : option Z :=
  match a with
  | Fin q =>
      let z := round_half_away q in
      if in_int z then Some z else None
  | _ => None
  end.

(** [int linear(int AQIhigh, int AQIlow, float Conchigh, float Conclow,
    float Concentration)].  [AQIhigh - AQIlow] is a subtraction of two
    [int]s: there is no result when the difference does not fit an [int]
    (signed overflow). *)
Definition linear (AQIhigh AQIlow : Z) (Conchigh Conclow Concentration : float)
  : option Z :=
  if in_int (AQIhigh - AQIlow) then
    let a :=
      add f32
        (mul f32
           (div f32 (sub f32 Concentration Conclow) (sub f32 Conchigh Conclow))
           (of_int f32 (AQIhigh - AQIlow)))
        (of_int f32 AQIlow) in
    round_to_int a
  else None.

(** A [double] literal, and the same literal passed to a [float]
    parameter. *)
Definition dbl (x : Q) : float := lit f64 x.
Definition flt (x : Q) : float := cast f32 (dbl x).

(** [(floor(10 * x)) / 10] stored in a [float], for a [float x]; [floor] is
    the one of <math.h>, which takes and returns a [double]. *)
Definition truncate_tenth (x : float) : float :=
  cast f32
    (div f64 (floor (cast f64 (mul f32 (of_int f32 10) x))) (of_int f64 10)).

(** The same with the [float] overload of [floor] that <cmath> declares:
    the division is then a [float] division.  Which of the two a build
    uses depends on the headers of its toolchain. *)
Definition truncate_tenth_float (x : float) : float :=
  div f32 (floor (mul f32 (of_int f32 10) x)) (of_int f32 10).

(** [c >= k] against an [int] literal and [c < x] against a [double]
    literal, for a [float c]. *)
Definition ge_int (c : float) (k : Z) : bool := geb c (of_int f32 k).
Definition ge_dbl (c : float) (x : Q) : bool := geb (cast f64 c) (dbl x).
Definition lt_dbl (c : float) (x : Q) : bool := ltb (cast f64 c) (dbl x).

(** The [if] chain of [pm25toAQI], on the truncated concentration. *)
Definition aqi_of_truncated (c : float) : option Z :=
  if ge_int c 0 && lt_dbl c 12.1 then
    linear 50 0 (of_int f32 12) (of_int f32 0) c
  else if ge_dbl c 12.1 && lt_dbl c 35.5 then
    linear 100 51 (flt 35.4) (flt 12.1) c
  else if ge_dbl c 35.5 && lt_dbl c 55.5 then
    linear 150 101 (flt 55.4) (flt 35.5) c
  else if ge_dbl c 55.5 && lt_dbl c 150.5 then
    linear 200 151 (flt 150.4) (flt 55.5) c
  else if ge_dbl c 150.5 && lt_dbl c 250.5 then
    linear 300 201 (flt 250.4) (flt 150.5) c
  else if ge_dbl c 250.5 && lt_dbl c 350.5 then
    linear 400 301 (flt 350.4) (flt 250.5) c
  else if ge_dbl c 350.5 && lt_dbl c 500.5 then
    linear 500 401 (flt 500.4) (flt 350.5) c
  else
    linear 1000 501 (flt 1000.4) (flt 500.5) c.

(** [int pm25toAQI(int pm25)]. *)
Definition pm25toAQI (pm25 : Z) : option Z :=
  let c := truncate_tenth (of_int f32 pm25) in
  aqi_of_truncated c.

(** A call [pm25toAQI(x)] on a floating value [x]: the parameter is an
    [int], so the argument is converted first. *)
Definition pm25toAQI_of_double (x : float) : option Z :=
  match to_int x with
  | Some pm25 => pm25toAQI pm25
  | None => None
  end.

(** Evaluation of a test on the [n] integers from [lo] on. *)
Definition all_from (P : Z -> bool) (lo : Z) (n : nat) : bool :=
  forallb P (map (fun i => lo + Z.of_nat i) (seq 0 n)).

Definition returns_0_500 (z : Z) : bool :=
  match pm25toAQI z with
  | Some a => (0 <=? a) && (a <=? 500)
  | None => false
  end.

Definition never_51 (z : Z) : bool :=
  match pm25toAQI z with
  | Some a => negb (a =? 51)
  | None => true
  end.

End Converter.

(** ** Part 3. Text conversions of the Arduino [String] class *)

Module Text.

Local Open Scope string_scope.

(** [String(int)]: the decimal text of an integer. *)
Definition dec (z : Z) : string :=
  DecimalString.NilZero.string_of_int (Z.to_int z).

(** [String(n, HEX)] for a non-negative [n]: lower-case hexadecimal text. *)
Definition hex (n : N) : string :=
  HexadecimalString.NilZero.string_of_uint (N.to_hex_uint n).

(** [s.toCharArray(buf, bufsize)] for [bufsize > 0]: the buffer receives at
    most [bufsize - 1] characters of [s]. *)
Definition toCharArray (s : string) (bufsize : nat) : string :=
  substring 0 (bufsize - 1) s.

(** The bytes between the quotes of ["...F"] on line 273 of the source: the
    degree sign, stored there as the four bytes C3 82 C2 B0, and [F]. *)
Definition degF : string :=
  String (ascii_of_N 195) (String (ascii_of_N 130)
    (String (ascii_of_N 194) (String (ascii_of_N 176) "F"))).

Definition last_char (s : string) : option ascii :=
  match rev (list_ascii_of_string s) with
  | c :: _ => Some c
  | [] => None
  end.

Definition is_lower_hex (c : ascii) : bool :=
  let n := N_of_ascii c in
  ((48 <=? n) && (n <=? 57) || (97 <=? n) && (n <=? 102))%N.

End Text.

(** ** Part 4. The device: globals, environment, [reconnect] and [loop] *)

Module Firmware.
Import FP Converter Text.

Local Open Scope string_scope.

(** The configuration globals of lines 47-53. *)
Record Config : Type := mkConfig {
  hasCO2 : bool;
  hasPM : bool;
  hasSHT : bool;
  connectWIFI : bool;
  sendMQTT : bool
}.

(** Modelled from the spec: [mqtt_topic_root] is declared in [Settings.h],
    which is not among the sources; the specification gives the topics as
    [airgradient/<id>/<metric>]. *)
Definition mqtt_topic_root : string := "airgradient".

Definition msSAMPLE_INTERVAL : Z := 2500.
Definition msPUBLISH_INTERVAL : Z := 30000.

(** [uint32_t] arithmetic wraps around. *)
Definition u32 (z : Z) : Z := z mod 2 ^ 32.

(** The global variables of lines 55-78. *)
Record Device : Type := mkDevice {
  Temperature : float;
  AQI : Z;
  CO2 : Z;
  Humidity : Z;
  PM2 : Z;
  ln1 : string;
  ln2 : string;
  ln3 : string;
  ln4 : string;
  ln5 : string;
  topic_prefix : string;
  mqtt_payload : string;
  mqtt_topic : string;
  deviceid : string;
  msLAST_METRIC : Z;
  msLAST_SAMPLE : Z
}.

Definition set_Temperature (v : float) (d : Device) : Device :=
  {| Temperature := v; AQI := AQI d; CO2 := CO2 d; Humidity := Humidity d; PM2
     := PM2 d; ln1 := ln1 d; ln2 := ln2 d; ln3 := ln3 d; ln4 := ln4 d; ln5 := ln5
     d; topic_prefix := topic_prefix d; mqtt_payload := mqtt_payload d;
     mqtt_topic := mqtt_topic d; deviceid := deviceid d; msLAST_METRIC :=
     msLAST_METRIC d; msLAST_SAMPLE := msLAST_SAMPLE d |}.

Definition set_AQI (v : Z) (d : Device) : Device :=
  {| Temperature := Temperature d; AQI := v; CO2 := CO2 d; Humidity :=
     Humidity d; PM2 := PM2 d; ln1 := ln1 d; ln2 := ln2 d; ln3 := ln3 d; ln4 :=
     ln4 d; ln5 := ln5 d; topic_prefix := topic_prefix d; mqtt_payload :=
     mqtt_payload d; mqtt_topic := mqtt_topic d; deviceid := deviceid d;
     msLAST_METRIC := msLAST_METRIC d; msLAST_SAMPLE := msLAST_SAMPLE d |}.

Definition set_CO2 (v : Z) (d : Device) : Device :=
  {| Temperature := Temperature d; AQI := AQI d; CO2 := v; Humidity :=
     Humidity d; PM2 := PM2 d; ln1 := ln1 d; ln2 := ln2 d; ln3 := ln3 d; ln4 :=
     ln4 d; ln5 := ln5 d; topic_prefix := topic_prefix d; mqtt_payload :=
     mqtt_payload d; mqtt_topic := mqtt_topic d; deviceid := deviceid d;
     msLAST_METRIC := msLAST_METRIC d; msLAST_SAMPLE := msLAST_SAMPLE d |}.

Definition set_Humidity (v : Z) (d : Device) : Device :=
  {| Temperature := Temperature d; AQI := AQI d; CO2 := CO2 d; Humidity := v;
     PM2 := PM2 d; ln1 := ln1 d; ln2 := ln2 d; ln3 := ln3 d; ln4 := ln4 d; ln5 :=
     ln5 d; topic_prefix := topic_prefix d; mqtt_payload := mqtt_payload d;
     mqtt_topic := mqtt_topic d; deviceid := deviceid d; msLAST_METRIC :=
     msLAST_METRIC d; msLAST_SAMPLE := msLAST_SAMPLE d |}.

Definition set_PM2 (v : Z) (d : Device) : Device :=
  {| Temperature := Temperature d; AQI := AQI d; CO2 := CO2 d; Humidity :=
     Humidity d; PM2 := v; ln1 := ln1 d; ln2 := ln2 d; ln3 := ln3 d; ln4 := ln4
     d; ln5 := ln5 d; topic_prefix := topic_prefix d; mqtt_payload :=
     mqtt_payload d; mqtt_topic := mqtt_topic d; deviceid := deviceid d;
     msLAST_METRIC := msLAST_METRIC d; msLAST_SAMPLE := msLAST_SAMPLE d |}.

Definition set_ln1 (v : string) (d : Device) : Device :=
  {| Temperature := Temperature d; AQI := AQI d; CO2 := CO2 d; Humidity :=
     Humidity d; PM2 := PM2 d; ln1 := v; ln2 := ln2 d; ln3 := ln3 d; ln4 := ln4
     d; ln5 := ln5 d; topic_prefix := topic_prefix d; mqtt_payload :=
     mqtt_payload d; mqtt_topic := mqtt_topic d; deviceid := deviceid d;
     msLAST_METRIC := msLAST_METRIC d; msLAST_SAMPLE := msLAST_SAMPLE d |}.

Definition set_ln2 (v : string) (d : Device) : Device :=
  {| Temperature := Temperature d; AQI := AQI d; CO2 := CO2 d; Humidity :=
     Humidity d; PM2 := PM2 d; ln1 := ln1 d; ln2 := v; ln3 := ln3 d; ln4 := ln4
     d; ln5 := ln5 d; topic_prefix := topic_prefix d; mqtt_payload :=
     mqtt_payload d; mqtt_topic := mqtt_topic d; deviceid := deviceid d;
     msLAST_METRIC := msLAST_METRIC d; msLAST_SAMPLE := msLAST_SAMPLE d |}.

Definition set_ln3 (v : string) (d : Device) : Device :=
  {| Temperature := Temperature d; AQI := AQI d; CO2 := CO2 d; Humidity :=
     Humidity d; PM2 := PM2 d; ln1 := ln1 d; ln2 := ln2 d; ln3 := v; ln4 := ln4
     d; ln5 := ln5 d; topic_prefix := topic_prefix d; mqtt_payload :=
     mqtt_payload d; mqtt_topic := mqtt_topic d; deviceid := deviceid d;
     msLAST_METRIC := msLAST_METRIC d; msLAST_SAMPLE := msLAST_SAMPLE d |}.

Definition set_ln4 (v : string) (d : Device) : Device :=
  {| Temperature := Temperature d; AQI := AQI d; CO2 := CO2 d; Humidity :=
     Humidity d; PM2 := PM2 d; ln1 := ln1 d; ln2 := ln2 d; ln3 := ln3 d; ln4 :=
     v; ln5 := ln5 d; topic_prefix := topic_prefix d; mqtt_payload :=
     mqtt_payload d; mqtt_topic := mqtt_topic d; deviceid := deviceid d;
     msLAST_METRIC := msLAST_METRIC d; msLAST_SAMPLE := msLAST_SAMPLE d |}.

Definition set_ln5 (v : string) (d : Device) : Device :=
  {| Temperature := Temperature d; AQI := AQI d; CO2 := CO2 d; Humidity :=
     Humidity d; PM2 := PM2 d; ln1 := ln1 d; ln2 := ln2 d; ln3 := ln3 d; ln4 :=
     ln4 d; ln5 := v; topic_prefix := topic_prefix d; mqtt_payload :=
     mqtt_payload d; mqtt_topic := mqtt_topic d; deviceid := deviceid d;
     msLAST_METRIC := msLAST_METRIC d; msLAST_SAMPLE := msLAST_SAMPLE d |}.

Definition set_topic_prefix (v : string) (d : Device) : Device :=
  {| Temperature := Temperature d; AQI := AQI d; CO2 := CO2 d; Humidity :=
     Humidity d; PM2 := PM2 d; ln1 := ln1 d; ln2 := ln2 d; ln3 := ln3 d; ln4 :=
     ln4 d; ln5 := ln5 d; topic_prefix := v; mqtt_payload := mqtt_payload d;
     mqtt_topic := mqtt_topic d; deviceid := deviceid d; msLAST_METRIC :=
     msLAST_METRIC d; msLAST_SAMPLE := msLAST_SAMPLE d |}.

Definition set_mqtt_payload (v : string) (d : Device) : Device :=
  {| Temperature := Temperature d; AQI := AQI d; CO2 := CO2 d; Humidity :=
     Humidity d; PM2 := PM2 d; ln1 := ln1 d; ln2 := ln2 d; ln3 := ln3 d; ln4 :=
     ln4 d; ln5 := ln5 d; topic_prefix := topic_prefix d; mqtt_payload := v;
     mqtt_topic := mqtt_topic d; deviceid := deviceid d; msLAST_METRIC :=
     msLAST_METRIC d; msLAST_SAMPLE := msLAST_SAMPLE d |}.

Definition set_mqtt_topic (v : string) (d : Device) : Device :=
  {| Temperature := Temperature d; AQI := AQI d; CO2 := CO2 d; Humidity :=
     Humidity d; PM2 := PM2 d; ln1 := ln1 d; ln2 := ln2 d; ln3 := ln3 d; ln4 :=
     ln4 d; ln5 := ln5 d; topic_prefix := topic_prefix d; mqtt_payload :=
     mqtt_payload d; mqtt_topic := v; deviceid := deviceid d; msLAST_METRIC :=
     msLAST_METRIC d; msLAST_SAMPLE := msLAST_SAMPLE d |}.

Definition set_msLAST_METRIC (v : Z) (d : Device) : Device :=
  {| Temperature := Temperature d; AQI := AQI d; CO2 := CO2 d; Humidity :=
     Humidity d; PM2 := PM2 d; ln1 := ln1 d; ln2 := ln2 d; ln3 := ln3 d; ln4 :=
     ln4 d; ln5 := ln5 d; topic_prefix := topic_prefix d; mqtt_payload :=
     mqtt_payload d; mqtt_topic := mqtt_topic d; deviceid := deviceid d;
     msLAST_METRIC := v; msLAST_SAMPLE := msLAST_SAMPLE d |}.

Definition set_msLAST_SAMPLE (v : Z) (d : Device) : Device :=
  {| Temperature := Temperature d; AQI := AQI d; CO2 := CO2 d; Humidity :=
     Humidity d; PM2 := PM2 d; ln1 := ln1 d; ln2 := ln2 d; ln3 := ln3 d; ln4 :=
     ln4 d; ln5 := ln5 d; topic_prefix := topic_prefix d; mqtt_payload :=
     mqtt_payload d; mqtt_topic := mqtt_topic d; deviceid := deviceid d;
     msLAST_METRIC := msLAST_METRIC d; msLAST_SAMPLE := v |}.


(** Answers of the collaborators.  A sensor call returns a number in every
    case: a read that failed or timed out still hands back a value (an error
    code, or whatever the driver holds), because the return type has no
    other channel.  [returned] is all the firmware sees. *)
Inductive reading (A : Type) : Type :=
| Good (v : A)
| Bad (v : A).
Arguments Good {A} v.
Arguments Bad {A} v.

Definition returned {A : Type} (r : reading A) : A :=
  match r with Good v | Bad v => v end.

Definition failed {A : Type} (r : reading A) : bool :=
  match r with Good _ => false | Bad _ => true end.

(** [TMP_RH], as far as the firmware reads it. *)
Record TMP_RH : Type := mkTMP_RH { t : float; rh : Z }.

(** An unbounded supply of answers, one for each call. *)
Definition Stream (A : Type) : Type := nat -> A.

Definition shd {A : Type} (s : Stream A) : A := s O.
Definition stl {A : Type} (s : Stream A) : Stream A := fun n => s (S n).

(** The environment: what [millis()], the three sensor drivers,
    [random()], [client.connected()], [client.connect()] and
    [client.publish()] will answer, call after call. *)
Record Env : Type := mkEnv {
  clock : Stream Z;
  co2_raw : Stream (reading Z);
  pm2_raw : Stream (reading Z);
  tmp_rh : Stream (reading TMP_RH);
  rand : Stream N;
  link : Stream bool;
  conn : Stream bool;
  pub : Stream bool
}.

Definition set_clock (s : Stream Z) (e : Env) : Env :=
  {| clock := s; co2_raw := co2_raw e; pm2_raw := pm2_raw e; tmp_rh := tmp_rh
     e; rand := rand e; link := link e; conn := conn e; pub := pub e |}.

Definition set_co2_raw (s : Stream (reading Z)) (e : Env) : Env :=
  {| clock := clock e; co2_raw := s; pm2_raw := pm2_raw e; tmp_rh := tmp_rh e;
     rand := rand e; link := link e; conn := conn e; pub := pub e |}.

Definition set_pm2_raw (s : Stream (reading Z)) (e : Env) : Env :=
  {| clock := clock e; co2_raw := co2_raw e; pm2_raw := s; tmp_rh := tmp_rh e;
     rand := rand e; link := link e; conn := conn e; pub := pub e |}.

Definition set_tmp_rh (s : Stream (reading TMP_RH)) (e : Env) : Env :=
  {| clock := clock e; co2_raw := co2_raw e; pm2_raw := pm2_raw e; tmp_rh :=
     s; rand := rand e; link := link e; conn := conn e; pub := pub e |}.

Definition set_rand (s : Stream N) (e : Env) : Env :=
  {| clock := clock e; co2_raw := co2_raw e; pm2_raw := pm2_raw e; tmp_rh :=
     tmp_rh e; rand := s; link := link e; conn := conn e; pub := pub e |}.

Definition set_link (s : Stream bool) (e : Env) : Env :=
  {| clock := clock e; co2_raw := co2_raw e; pm2_raw := pm2_raw e; tmp_rh :=
     tmp_rh e; rand := rand e; link := s; conn := conn e; pub := pub e |}.

Definition set_conn (s : Stream bool) (e : Env) : Env :=
  {| clock := clock e; co2_raw := co2_raw e; pm2_raw := pm2_raw e; tmp_rh :=
     tmp_rh e; rand := rand e; link := link e; conn := s; pub := pub e |}.

Definition set_pub (s : Stream bool) (e : Env) : Env :=
  {| clock := clock e; co2_raw := co2_raw e; pm2_raw := pm2_raw e; tmp_rh :=
     tmp_rh e; rand := rand e; link := link e; conn := conn e; pub := s |}.

(** What the device does to the outside. *)
Inductive Event : Type :=
| Lcd (l1 l2 l3 l4 l5 : string)
| Delay (ms : Z)
| Connect (clientId : string)
| ClientLoop
| Publish (topic payload : string) (retained : bool).

Record World : Type := mkWorld {
  dev : Device;
  env : Env;
  out : list Event   (* oldest first *)
}.

(** A run ends normally, reaches a point where the behaviour is not
    defined (a floating value converted to an [int] it does not fit), or is
    still in the retry loop when the fuel is spent.  Each outcome has the
    world reached. *)
Inductive outcome (A : Type) : Type :=
| Ok (a : A) (w : World)
| Undefined (w : World)
| OutOfFuel (w : World).
Arguments Ok {A} a w.
Arguments Undefined {A} w.
Arguments OutOfFuel {A} w.

Definition world_of {A : Type} (o : outcome A) : World :=
  match o with Ok _ w | Undefined w | OutOfFuel w => w end.

Definition M (A : Type) : Type := World -> outcome A.

Definition ret {A : Type} (a : A) : M A := fun w => Ok a w.

Definition bind {A B : Type} (m : M A) (k : A -> M B) : M B :=
  fun w =>
    match m w with
    | Ok a w' => k a w'
    | Undefined w' => Undefined w'
    | OutOfFuel w' => OutOfFuel w'
    end.

Notation "x <- m ;; k" := (bind m (fun x => k))
  (at level 61, m at next level, right associativity).
Notation "m ;; k" := (bind m (fun _ => k))
  (at level 61, right associativity).

Definition when (b : bool) (m : M unit) : M unit := if b then m else ret tt.

Definition get {A : Type} (f : Device -> A) : M A :=
  fun w => Ok (f (dev w)) w.

Definition put (f : Device -> Device) : M unit :=
  fun w => Ok tt (mkWorld (f (dev w)) (env w) (out w)).

Definition emit (e : Event) : M unit :=
  fun w => Ok tt (mkWorld (dev w) (env w) (out w ++ [e])).

Definition ask {A : Type} (f : Env -> Stream A)
  (set : Stream A -> Env -> Env) : M A :=
  fun w =>
    Ok (shd (f (env w)))
       (mkWorld (dev w) (set (stl (f (env w))) (env w)) (out w)).

Definition defined {A : Type} (o : option A) : M A :=
  fun w => match o with Some a => Ok a w | None => Undefined w end.

Definition out_of_fuel {A : Type} : M A := fun w => OutOfFuel w.

(** The calls on the collaborators. *)
Definition millis : M Z := x <- ask clock set_clock ;; ret (u32 x).
Definition getCO2_Raw : M Z := x <- ask co2_raw set_co2_raw ;; ret (returned x).
Definition getPM2_Raw : M Z := x <- ask pm2_raw set_pm2_raw ;; ret (returned x).
Definition periodicFetchData : M TMP_RH :=
  x <- ask tmp_rh set_tmp_rh ;; ret (returned x).
Definition random (howbig : N) : M N :=
  x <- ask rand set_rand ;; ret (x mod howbig)%N.
Definition client_connected : M bool := ask link set_link.
Definition client_connect (clientId : string) : M bool :=
  emit (Connect clientId) ;; ask conn set_conn.
Definition client_loop : M unit := emit ClientLoop.
Definition client_publish (topic payload : string) (retained : bool) : M bool :=
  emit (Publish topic payload retained) ;; ask pub set_pub.
Definition delay (ms : Z) : M unit := emit (Delay ms).
Definition lcd (l1 l2 l3 l4 l5 : string) : M unit := emit (Lcd l1 l2 l3 l4 l5).

(** The client identifier of one connection attempt (lines 134-135). *)
Definition client_id (r : N) : string := "airgradient-" ++ hex r.

(** [void reconnect()], lines 126-150.  [fuel] bounds the number of
    connection attempts. *)
Fixpoint reconnect (fuel : nat) : M unit :=
  c <- client_connected ;;
  if c then ret tt
  else
    match fuel with
    | O => out_of_fuel
    | S fuel' =>
        r <- random 65535 ;;
        let clientId := client_id r in
        ok <- client_connect clientId ;;
        (if ok then ret tt else delay 5000) ;;
        reconnect fuel'
    end.

(** [(result.t * 1.8) + 32], computed in [double] and stored in the [float]
    [Temperature] (line 272). *)
Definition fahrenheit (celsius : float) : float :=
  cast f32 (add f64 (mul f64 (cast f64 celsius) (dbl 1.8)) (of_int f64 32)).

Section Loop.

(** [String(float)] of the Arduino core, which is not among the sources. *)
Variable string_of_float : float -> string.

Variable cfg : Config.

(** Lines 233-240. *)
Definition connection (fuel : nat) : M unit :=
  when (connectWIFI cfg && sendMQTT cfg)
    (c <- client_connected ;;
     when (negb c) (reconnect fuel) ;;
     client_loop).

(** Lines 245-281: the body of the sampling [if]. *)
Definition sample : M unit :=
  now <- millis ;;
  put (set_msLAST_SAMPLE now) ;;
  put (fun d => set_ln1 "" (set_ln2 "" (set_ln3 "" (set_ln4 "" (set_ln5 "" d))))) ;;
  id <- get deviceid ;;
  put (set_topic_prefix (mqtt_topic_root ++ "/" ++ id ++ "/")) ;;
  when (hasCO2 cfg)
    (v <- getCO2_Raw ;;
     put (set_CO2 v) ;;
     put (set_ln5 ("CO2: " ++ dec v))) ;;
  when (hasPM cfg)
    (v <- getPM2_Raw ;;
     put (set_PM2 v) ;;
     a <- defined (pm25toAQI v) ;;
     put (set_AQI a) ;;
     put (set_ln3 ("AQI:  " ++ dec a)) ;;
     put (set_ln4 ("PM2: " ++ dec v))) ;;
  when (hasSHT cfg)
    (result <- periodicFetchData ;;
     put (set_Humidity (rh result)) ;;
     let temp := fahrenheit (t result) in
     put (set_Temperature temp) ;;
     ti <- defined (to_int temp) ;;
     put (set_ln1 ("TMP: " ++ dec ti ++ degF)) ;;
     put (set_ln2 ("HMD: " ++ dec (rh result) ++ "%"))) ;;
  d <- get (fun d => d) ;;
  lcd (ln1 d) (ln2 d) (ln3 d) (ln4 d) (ln5 d).

(** One metric of lines 289-316: fill the two buffers, publish retained. *)
Definition publish_metric (payload metric : string) : M unit :=
  put (set_mqtt_payload (toCharArray payload 64)) ;;
  prefix <- get topic_prefix ;;
  put (set_mqtt_topic (toCharArray (prefix ++ metric) 64)) ;;
  topic <- get mqtt_topic ;;
  text <- get mqtt_payload ;;
  _ <- client_publish topic text true ;;
  ret tt.

(** Lines 287-316: the body of the publishing [if]. *)
Definition publish : M unit :=
  now <- millis ;;
  put (set_msLAST_METRIC now) ;;
  when (hasCO2 cfg)
    (v <- get CO2 ;; publish_metric (dec v) "co2") ;;
  when (hasPM cfg)
    (a <- get AQI ;; publish_metric (dec a) "aqi" ;;
     v <- get PM2 ;; publish_metric (dec v) "pm25") ;;
  when (hasSHT cfg)
    (h <- get Humidity ;; publish_metric (dec h) "humidity" ;;
     x <- get Temperature ;; publish_metric (string_of_float x) "temperature").

(** What one pass of [publish] sends, from the globals it finds. *)
Definition publication (d : Device) (payload metric : string) : Event :=
  Publish (toCharArray (topic_prefix d ++ metric) 64) (toCharArray payload 64) true.

Definition publications (d : Device) : list Event :=
  (if hasCO2 cfg then [publication d (dec (CO2 d)) "co2"] else []) ++
  (if hasPM cfg
   then [publication d (dec (AQI d)) "aqi"; publication d (dec (PM2 d)) "pm25"]
   else []) ++
  (if hasSHT cfg
   then [publication d (dec (Humidity d)) "humidity";
         publication d (string_of_float (Temperature d)) "temperature"]
   else []).

(** [millis() - last >= interval] on [uint32_t]. *)
Definition elapsed (last : Device -> Z) (interval : Z) : M bool :=
  now <- millis ;;
  l <- get last ;;
  ret (interval <=? u32 (now - l))%Z.

(** [void loop()], lines 231-318. *)
Definition loop (fuel : nat) : M unit :=
  connection fuel ;;
  due <- elapsed msLAST_SAMPLE msSAMPLE_INTERVAL ;;
  when due sample ;;
  (if connectWIFI cfg && sendMQTT cfg then
     due <- elapsed msLAST_METRIC msPUBLISH_INTERVAL ;;
     when due publish
   else ret tt).

(** [n] iterations of [loop()]. *)
Fixpoint run (fuel n : nat) : M unit :=
  match n with
  | O => ret tt
  | S n' => loop fuel ;; run fuel n'
  end.

End Loop.

(** [deviceid] as [setup()] leaves it (line 208), for a chip identifier. *)
Definition setup_deviceid (chipId : N) : string :=
  toCharArray (hex (chipId mod 2 ^ 32)%N) 32.

(** The globals when [loop()] is entered for the first time: zero and empty
    as C++ initialises them, [deviceid] from [setup()]. *)
Definition boot (chipId : N) : Device :=
  {| Temperature := Fin 0; AQI := 0; CO2 := 0; Humidity := 0; PM2 := 0;
     ln1 := ""; ln2 := ""; ln3 := ""; ln4 := ""; ln5 := "";
     topic_prefix := ""; mqtt_payload := ""; mqtt_topic := "";
     deviceid := setup_deviceid chipId;
     msLAST_METRIC := 0; msLAST_SAMPLE := 0 |}.

Definition start (chipId : N) (e : Env) : World := mkWorld (boot chipId) e [].

(** The topic [root/id/metric] of a device. *)
Definition topic_of (id metric : string) : string :=
  mqtt_topic_root ++ "/" ++ id ++ "/" ++ metric.

(** A topic of a metric, whatever stands before the metric's name. *)
Definition is_topic_of (metric topic : string) : Prop :=
  exists p, topic = p ++ metric.

(** An event that shows and publishes nothing of a sensor: its display
    lines are empty and the topic is not one of its metrics. *)
Definition quiet_sht (e : Event) : Prop :=
  match e with
  | Lcd l1 l2 _ _ _ => l1 = "" /\ l2 = ""
  | Publish topic _ _ =>
      ~ is_topic_of "humidity" topic /\ ~ is_topic_of "temperature" topic
  | _ => True
  end.

Definition quiet_pm (e : Event) : Prop :=
  match e with
  | Lcd _ _ l3 l4 _ => l3 = "" /\ l4 = ""
  | Publish topic _ _ => ~ is_topic_of "aqi" topic /\ ~ is_topic_of "pm25" topic
  | _ => True
  end.

Definition quiet_co2 (e : Event) : Prop :=
  match e with
  | Lcd _ _ _ _ l5 => l5 = ""
  | Publish topic _ _ => ~ is_topic_of "co2" topic
  | _ => True
  end.

(** The state in which a disabled sensor has left no trace: its display
    lines are empty and every event so far is quiet about it.  The two
    first parts say that [deviceid] fits its buffer of 32 bytes and that
    [topic_prefix] is empty or the one [sample] builds. *)
Definition silent (cfg : Config) (w : World) : Prop :=
  (String.length (deviceid (dev w)) <= 31)%nat /\
  (topic_prefix (dev w) = "" \/
   topic_prefix (dev w) = mqtt_topic_root ++ "/" ++ deviceid (dev w) ++ "/") /\
  (hasSHT cfg = false ->
   ln1 (dev w) = "" /\ ln2 (dev w) = "" /\ Forall quiet_sht (out w)) /\
  (hasPM cfg = false ->
   ln3 (dev w) = "" /\ ln4 (dev w) = "" /\ Forall quiet_pm (out w)) /\
  (hasCO2 cfg = false -> ln5 (dev w) = "" /\ Forall quiet_co2 (out w)).

(** An event of the connection supervisor. *)
Definition connecting (e : Event) : Prop :=
  match e with
  | Connect _ | Delay _ | ClientLoop => True
  | _ => False
  end.

(** A stream that starts with the answers of a list and goes on with a
    default. *)
Definition script {A : Type} (l : list A) (d : A) : Stream A :=
  fun n => nth n l d.

(** A computation keeps an invariant of the world, whatever its outcome;
    a computation only adds events to the trace. *)
Definition preserves {A : Type} (I : World -> Prop) (m : M A) : Prop :=
  forall w, I w -> I (world_of (m w)).

Definition appends {A : Type} (m : M A) : Prop :=
  forall w, exists evs, out (world_of (m w)) = (out w ++ evs)%list.

(** The first answers of a stream. *)
Definition begins {A : Type} (l : list A) (s : Stream A) : Prop :=
  forall i a, nth_error l i = Some a -> s i = a.

(** A device on which only the CO2 sensor is enabled, whose CO2 driver
    fails on the first read and hands back -1. *)
Definition co2_only : Config := mkConfig true false false true true.

Definition failing_co2 : Env :=
  {| clock := script [7000] 8000;
     co2_raw := script [Bad (-1)] (Good 412);
     pm2_raw := script [] (Good 0);
     tmp_rh := script [] (Good (mkTMP_RH (Fin 0) 0));
     rand := script [] 0%N;
     link := script [] true;
     conn := script [] true;
     pub := script [] true |}.

End Firmware.


(** ** Part 5. Traces and invariants of the loop *)

Module Traces.
Import FP Converter Text Firmware.
Local Open Scope string_scope.

(** The events of [n] connection attempts that fail: each one connects
    with the identifier of a fresh [random(0xffff)] and waits 5000 ms. *)
Fixpoint failed_attempts (n : nat) (r : Stream N) : list Event :=
  match n with
  | O => []
  | S n' =>
      Connect (client_id (shd r mod 65535)%N) :: Delay 5000
        :: failed_attempts n' (stl r)
  end.

(** The time a trace spends in [delay]. *)
Fixpoint waited (evs : list Event) : Z :=
  match evs with
  | [] => 0
  | Delay ms :: evs' => ms + waited evs'
  | _ :: evs' => waited evs'
  end.

(** A refresh of the display. *)
Definition displaying (e : Event) : Prop :=
  match e with
  | Lcd _ _ _ _ _ => True
  | _ => False
  end.

(** An event in which the device neither connects nor waits. *)
Definition calm (e : Event) : Prop :=
  match e with
  | Connect _ | Delay _ => False
  | _ => True
  end.

(** From [w] to [w'] the device has only refreshed the display, and has
    asked nothing of the transport nor of [random()]. *)
Definition offline (w w' : World) : Prop :=
  (exists evs, out w' = (out w ++ evs)%list /\ Forall displaying evs) /\
  link (env w') = link (env w) /\ conn (env w') = conn (env w) /\
  pub (env w') = pub (env w) /\ rand (env w') = rand (env w).

(** A computation is never left in the retry loop. *)
Definition unblocked {A : Type} (m : M A) : Prop :=
  forall w w', m w <> OutOfFuel w'.

(** From a world with [I] the computation returns, in a world with [I]. *)
Definition completes {A : Type} (I : World -> Prop) (m : M A) : Prop :=
  forall w, I w -> exists a w', m w = Ok a w' /\ I w'.

(** The transport stays connected and the sensors answer within range
    from now on: every PM value is an [int], every temperature is finite
    and between -40 and 125 degrees Celsius. *)
Definition sane (w : World) : Prop :=
  (forall i, link (env w) i = true) /\
  (forall i, in_int (returned (pm2_raw (env w) i)) = true) /\
  (forall i, exists q, t (returned (tmp_rh (env w) i)) = Fin q /\
                       (- (40) <= q /\ q <= 125)%Q).

(** The display lines say what the globals hold: a line is empty, or it is
    the text [sample] builds from the global that [publish] sends; with an
    index on line 3, [AQI] is the converter's index of [PM2]. *)
Definition shown (d : Device) : Prop :=
  (ln5 d = "" \/ ln5 d = "CO2: " ++ dec (CO2 d)) /\
  (ln4 d = "" \/ ln4 d = "PM2: " ++ dec (PM2 d)) /\
  (ln3 d = "" \/
   (ln3 d = "AQI:  " ++ dec (AQI d) /\ pm25toAQI (PM2 d) = Some (AQI d))) /\
  (ln2 d = "" \/ ln2 d = "HMD: " ++ dec (Humidity d) ++ "%") /\
  (ln1 d = "" \/
   exists ti, to_int (Temperature d) = Some ti /\
              ln1 d = "TMP: " ++ dec ti ++ degF).

(** [AQI] is the index of [PM2], and every PM value still to come is an
    [int]. *)
Definition indexed (w : World) : Prop :=
  (forall i, in_int (returned (pm2_raw (env w) i)) = true) /\
  pm25toAQI (PM2 (dev w)) = Some (AQI (dev w)).

(** The names of the metrics in lines 289-316. *)
Definition metrics : list string :=
  ["co2"; "aqi"; "pm25"; "humidity"; "temperature"].

(** A publication is retained, its payload fits the 64 bytes it is copied
    to, and its topic is the one of a metric of the device [id], or the
    bare name of a metric (before the first sampling pass [topic_prefix]
    is empty). *)
Definition well_published (id : string) (e : Event) : Prop :=
  match e with
  | Publish topic payload retained =>
      retained = true /\ (String.length payload <= 63)%nat /\
      exists metric, In metric metrics /\
                     (topic = topic_of id metric \/ topic = metric)
  | _ => True
  end.

(** A publication on a topic of the device [id]. *)
Definition addressed (id : string) (e : Event) : Prop :=
  match e with
  | Publish topic _ _ =>
      exists metric, In metric metrics /\ topic = topic_of id metric
  | _ => True
  end.

(** The device [id] with every event so far in [P]: [deviceid] is [id] and
    fits its buffer, [topic_prefix] is empty or the one of [id]. *)
Definition publishing (id : string) (P : Event -> Prop) (w : World) : Prop :=
  deviceid (dev w) = id /\ (String.length id <= 31)%nat /\
  (topic_prefix (dev w) = "" \/
   topic_prefix (dev w) = mqtt_topic_root ++ "/" ++ id ++ "/") /\
  Forall P (out w).

End Traces.

(** ** Part 6. What a subscriber reads back *)

Module Decode.

(** The chip identifier of a device identifier, and the number of a decimal
    payload. *)
Definition chip_of_deviceid (s : string) : option N :=
  option_map N.of_hex_uint (HexadecimalString.NilZero.uint_of_string s).

Definition value_of_payload (s : string) : option Z :=
  option_map Z.of_int (DecimalString.NilZero.int_of_string s).

End Decode.

(** ** Part 7. [setupWiFi()] and [setup()] *)

Module Boot.
Import FP Converter Text Firmware.
Local Open Scope string_scope.

(** The constants of [Settings.h] that [setup()] and [setupWiFi()] hand
    on; the header is not among the sources, so they are parameters. *)
Record Settings : Type := mkSettings {
  wifi_ssid : string;
  wifi_password : string;
  mqtt_host : string
}.

(** What the board answers during [setup()]: [ESP.getChipId()], whether
    [WiFi.status()] is [WL_CONNECTED], poll after poll, [micros()] and the
    four bytes of [WiFi.localIP()]. *)
Record Board : Type := mkBoard {
  chipId : N;
  wifi_connected : Stream bool;
  micros : Z;
  localIP : Z * Z * Z * Z
}.

(** What [setup()] does to the outside ([Serial] apart).  [Screen] is a
    call of [lcd], which fills the lines it is not given with the empty
    string (line 81). *)
Inductive Call : Type :=
| Wait (ms : Z)
| DisplayInit
| Screen (l1 l2 l3 l4 l5 : string)
| CO2_Init
| PMS_Init
| TMP_RH_Init (address : Z)
| WiFiBegin (ssid password : string)
| WiFiMode_STA
| RandomSeed (seed : Z)
| SetServer (host : string) (port : Z).

(** [setup()] has returned, or is still polling the WiFi status when the
    fuel is spent; both with the calls made so far. *)
Inductive result : Type :=
| Returned (calls : list Call)
| Polling (calls : list Call).

Definition calls_of (r : result) : list Call :=
  match r with Returned c | Polling c => c end.

(** Calls made before a computation, and calls made after it if it
    returns. *)
Definition after (cs : list Call) (r : result) : result :=
  match r with
  | Returned c => Returned (cs ++ c)
  | Polling c => Polling (cs ++ c)
  end.

Definition before (r : result) (cs : list Call) : result :=
  match r with
  | Returned c => Returned (c ++ cs)
  | Polling c => Polling c
  end.

(** [while (WiFi.status() != WL_CONNECTED) { delay(500); }], lines
    108-112; [fuel] bounds the number of polls that find no connection. *)
Fixpoint await_wifi (fuel : nat) (status : Stream bool) : result :=
  if shd status then Returned []
  else
    match fuel with
    | O => Polling []
    | S fuel' => after [Wait 500] (await_wifi fuel' (stl status))
    end.

(** [void setupWiFi()], lines 95-124. *)
Definition setupWiFi (s : Settings) (b : Board) (fuel : nat) : result :=
  let '(ip0, ip1, ip2, ip3) := localIP b in
  after
    [Wait 3000;
     Screen "Initializing" "WiFi:" (wifi_ssid s) "" "";
     WiFiBegin (wifi_ssid s) (wifi_password s);
     WiFiMode_STA]
    (before (await_wifi fuel (wifi_connected b))
       [RandomSeed (micros b);
        Screen (dec ip0 ++ ".") (dec ip1 ++ ".") (dec ip2 ++ ".") (dec ip3) "";
        Wait 1000]).

(** [void setup()], lines 202-229: [deviceid] as line 208 leaves it, and
    the calls.  [0x44] is 68. *)
Definition setup (cfg : Config) (s : Settings) (b : Board) (fuel : nat)
  : string * result :=
  let id := setup_deviceid (chipId b) in
  (id,
   after
     ([Wait 2000; DisplayInit; Screen "Initializing" "Device:" id "" ""] ++
      (if hasCO2 cfg then [CO2_Init] else []) ++
      (if hasPM cfg then [PMS_Init] else []) ++
      (if hasSHT cfg then [TMP_RH_Init 68] else []))
     (before (if connectWIFI cfg then setupWiFi s b fuel else Returned [])
        ((if sendMQTT cfg then [SetServer (mqtt_host s) 1883] else []) ++
         [Wait 2000]))).

(** The time the [delay] calls of a list of calls add up to. *)
Fixpoint delayed (cs : list Call) : Z :=
  match cs with
  | [] => 0
  | Wait ms :: cs' => ms + delayed cs'
  | _ :: cs' => delayed cs'
  end.

(** The calls of the WiFi bring-up. *)
Definition of_wifi (c : Call) : Prop :=
  match c with
  | Wait _ | Screen _ _ _ _ _ | WiFiBegin _ _ | WiFiMode_STA | RandomSeed _ => True
  | _ => False
  end.

End Boot.

(** ** Tactics *)

(** Closed goals settled by evaluation: equations, and comparisons of
    rationals or integers. *)
Ltac ev_eq := vm_compute; reflexivity.
Ltac ev_le := vm_compute; let H := fresh in intro H; discriminate H.
Ltac ev_lt := vm_compute; reflexivity.
Ltac ev := solve [ev_eq | ev_le].

(** Replace the roundings of closed rationals in [H] by their values. *)
Ltac eval_rha H :=
  repeat match type of H with
    | context [FP.round_half_away ?q] =>
        let v := eval vm_compute in (FP.round_half_away q) in
        replace (FP.round_half_away q) with v in H by (vm_compute; reflexivity)
    end.

(** Symbolic execution of the monadic code on a world split into its
    fields. *)
Ltac mrun :=
  cbv [Firmware.sample Firmware.publish Firmware.publish_metric
       Firmware.elapsed Firmware.connection Firmware.loop
       Firmware.bind Firmware.ret Firmware.when Firmware.get Firmware.put
       Firmware.emit Firmware.ask Firmware.defined Firmware.out_of_fuel
       Firmware.world_of
       Firmware.millis Firmware.getCO2_Raw Firmware.getPM2_Raw
       Firmware.periodicFetchData Firmware.random
       Firmware.client_connected Firmware.client_connect
       Firmware.client_loop Firmware.client_publish Firmware.delay
       Firmware.lcd fst snd Firmware.dev Firmware.env Firmware.out
       Firmware.Temperature Firmware.AQI Firmware.CO2 Firmware.Humidity
       Firmware.PM2 Firmware.ln1 Firmware.ln2 Firmware.ln3 Firmware.ln4
       Firmware.ln5 Firmware.topic_prefix Firmware.mqtt_payload
       Firmware.mqtt_topic Firmware.deviceid Firmware.msLAST_METRIC
       Firmware.msLAST_SAMPLE
       Firmware.set_Temperature Firmware.set_AQI Firmware.set_CO2
       Firmware.set_Humidity Firmware.set_PM2 Firmware.set_ln1
       Firmware.set_ln2 Firmware.set_ln3 Firmware.set_ln4 Firmware.set_ln5
       Firmware.set_topic_prefix Firmware.set_mqtt_payload
       Firmware.set_mqtt_topic Firmware.set_msLAST_METRIC
       Firmware.set_msLAST_SAMPLE
       Firmware.clock Firmware.co2_raw Firmware.pm2_raw Firmware.tmp_rh
       Firmware.rand Firmware.link Firmware.conn Firmware.pub
       Firmware.set_clock Firmware.set_co2_raw Firmware.set_pm2_raw
       Firmware.set_tmp_rh Firmware.set_rand Firmware.set_link
       Firmware.set_conn Firmware.set_pub
       Firmware.hasCO2 Firmware.hasPM Firmware.hasSHT Firmware.connectWIFI
       Firmware.sendMQTT andb negb] in *.

Ltac split_world w :=
  let d := fresh "d" in
  let e := fresh "e" in
  let o := fresh "o" in
  destruct w as [d e o]; destruct d; destruct e.

(** ** Properties of the floating-point model *)

Module FPFacts.
Import FP.
Local Open Scope Q_scope.

(** *** The model agrees with the IEEE-754 operations of the Standard
    Library: conversion, sum, difference, product and quotient of the sample
    operands, among them subnormal values, overflows and ties *)

Example agrees_with_SpecFloat :
  forallb (agrees binary32) operands32 = true /\
  forallb (agrees binary64) operands64 = true.
Proof. split; vm_compute; reflexivity. Qed.

Example round_is_SFdiv_binary32 :
  SF2Q (SFdiv 24 128 (binary_normalize 24 128 121 0 false)
          (binary_normalize 24 128 10 0 false)) = Some (round binary32 (121 # 10)).
Proof. vm_compute. reflexivity. Qed.

Example round_ties_to_even :
  round binary32 16777217 = 16777216 /\ round binary32 16777219 = 16777220.
Proof. split; vm_compute; reflexivity. Qed.

Lemma pow2_pos e : 0 < pow2 e.
Proof. apply Qpower_0_lt. reflexivity. Qed.

Lemma pow2_add a b : pow2 (a + b) == pow2 a * pow2 b.
Proof. apply Qpower_plus. discriminate. Qed.

Lemma pow2_le a b : (a <= b)%Z -> pow2 a <= pow2 b.
Proof. intros H. apply Qpower_le_compat_l; [assumption | discriminate]. Qed.

Lemma pow2_Z a : (0 <= a)%Z -> pow2 a == inject_Z (2 ^ a).
Proof. intros H. unfold pow2. rewrite Zpower_Qpower by assumption. reflexivity. Qed.

Lemma pow2_sub a b : pow2 (a - b) == pow2 a / pow2 b.
Proof.
  unfold Z.sub. rewrite pow2_add. unfold pow2 at 2. rewrite Qpower_opp. reflexivity.
Qed.

Lemma Qpos_num x : 0 < x <-> (0 < Qnum x)%Z.
Proof. unfold Qlt. simpl. lia. Qed.

Lemma ilog2_spec x : 0 < x -> pow2 (ilog2 x) <= x /\ x < pow2 (ilog2 x + 1).
Proof.
  intros Hx. unfold ilog2.
  set (n := Qnum x). set (d := Zpos (Qden x)).
  assert (Hn : (0 < n)%Z) by (apply Qpos_num; assumption).
  assert (Hd : (0 < d)%Z) by reflexivity.
  destruct (Z.log2_spec n Hn) as [Ha1 Ha2].
  destruct (Z.log2_spec d Hd) as [Hb1 Hb2].
  set (a := Z.log2 n) in *. set (b := Z.log2 d) in *.
  assert (Ha : (0 <= a)%Z) by apply Z.log2_nonneg.
  assert (Hb : (0 <= b)%Z) by apply Z.log2_nonneg.
  assert (Ex : x * inject_Z d == inject_Z n).
  { unfold Qeq, n, d. destruct x as [xn xd]. simpl. rewrite Pos.mul_1_r. ring. }
  clearbody a b. clearbody n d.
  assert (Hlt : x < pow2 (a - b + 1)).
  { replace (a - b + 1)%Z with (Z.succ a - b)%Z by lia.
    rewrite pow2_sub, !pow2_Z by lia.
    apply Qlt_shift_div_l.
    - change 0 with (inject_Z 0). rewrite <- Zlt_Qlt. lia.
    - apply Qle_lt_trans with (x * inject_Z d).
      + apply Qmult_le_l; [assumption|]. rewrite <- Zle_Qle. lia.
      + rewrite Ex. rewrite <- Zlt_Qlt. lia. }
  assert (Hge : pow2 (a - b - 1) <= x).
  { replace (a - b - 1)%Z with (a - Z.succ b)%Z by lia.
    rewrite pow2_sub, !pow2_Z by lia.
    apply Qle_shift_div_r.
    - change 0 with (inject_Z 0). rewrite <- Zlt_Qlt. lia.
    - apply Qle_trans with (x * inject_Z d).
      + rewrite Ex. rewrite <- Zle_Qle. exact Ha1.
      + apply Qmult_le_l; [assumption|]. rewrite <- Zle_Qle.
        apply Z.lt_le_incl. exact Hb2. }
  destruct (Qle_bool (pow2 (a - b)) x) eqn:E.
  - split; [apply Qle_bool_iff; assumption | assumption].
  - split; [assumption|].
    replace (a - b - 1 + 1)%Z with (a - b)%Z by lia.
    apply Qnot_le_lt. intros H. apply Qle_bool_iff in H. congruence.
Qed.

Lemma ilog2_le x y : 0 < x -> x <= y -> (ilog2 x <= ilog2 y)%Z.
Proof.
  intros Hx Hxy.
  assert (Hy : 0 < y) by (eapply Qlt_le_trans; eassumption).
  destruct (ilog2_spec x Hx) as [Hx1 _].
  destruct (ilog2_spec y Hy) as [_ Hy2].
  destruct (Z.le_gt_cases (ilog2 x) (ilog2 y)) as [H|H]; [assumption|].
  exfalso. assert (Hp : pow2 (ilog2 y + 1) <= pow2 (ilog2 x)) by (apply pow2_le; lia).
  lra.
Qed.

Lemma ilog2_lt_pow x k : 0 < x -> x < pow2 k -> (ilog2 x < k)%Z.
Proof.
  intros Hx Hk. destruct (ilog2_spec x Hx) as [H1 _].
  destruct (Z.lt_ge_cases (ilog2 x) k) as [H|H]; [assumption|].
  exfalso. apply pow2_le in H. lra.
Qed.

(** *** Nearest integer *)

Lemma rne_cases x : rne x = Qfloor x \/ rne x = (Qfloor x + 1)%Z.
Proof.
  unfold rne. destruct (x - inject_Z (Qfloor x) ?= 1 # 2); auto.
  destruct (Z.even (Qfloor x)); auto.
Qed.

Lemma rne_Z z : rne (inject_Z z) = z.
Proof.
  unfold rne. rewrite Qfloor_Z.
  replace (inject_Z z - inject_Z z ?= 1 # 2) with Lt; [reflexivity|].
  symmetry. apply Qlt_alt.
  assert (E : inject_Z z - inject_Z z == 0) by ring.
  rewrite E. reflexivity.
Qed.

Lemma rne_le x y : x <= y -> (rne x <= rne y)%Z.
Proof.
  intros Hxy. pose proof (Qfloor_resp_le x y Hxy) as Hf.
  destruct (Z.eq_dec (Qfloor x) (Qfloor y)) as [E|N].
  - unfold rne. rewrite E.
    destruct (x - inject_Z (Qfloor y) ?= 1 # 2) eqn:Cx;
      destruct (y - inject_Z (Qfloor y) ?= 1 # 2) eqn:Cy;
      try (destruct (Z.even (Qfloor y))); try lia; exfalso;
      repeat match goal with
        | H : (_ ?= _) = Eq |- _ => apply Qeq_alt in H
        | H : (_ ?= _) = Lt |- _ => apply Qlt_alt in H
        | H : (_ ?= _) = Gt |- _ => apply Qgt_alt in H
        end; lra.
  - destruct (rne_cases x) as [-> | ->], (rne_cases y) as [-> | ->]; lia.
Qed.

Lemma rne_le_Z x k : x <= inject_Z k -> (rne x <= k)%Z.
Proof. intros H. rewrite <- (rne_Z k). apply rne_le. assumption. Qed.

Lemma rne_ge_Z x k : inject_Z k <= x -> (k <= rne x)%Z.
Proof. intros H. rewrite <- (rne_Z k). apply rne_le. assumption. Qed.

Section Rounding.

Variable fmt : format.
Hypothesis prec_pos : (1 <= prec fmt)%Z.

Lemma cexp_le x y : 0 < x -> x <= y -> (cexp fmt x <= cexp fmt y)%Z.
Proof. intros Hx Hxy. unfold cexp. pose proof (ilog2_le x y Hx Hxy). lia. Qed.

Lemma round_pos_eq x :
  round_pos fmt x == inject_Z (rne (x / pow2 (cexp fmt x))) * pow2 (cexp fmt x).
Proof. unfold round_pos. apply Qred_correct. Qed.

Lemma scaled_le x y e : x <= y -> x / pow2 e <= y / pow2 e.
Proof.
  intros H. unfold Qdiv. apply Qmult_le_compat_r; [assumption|].
  apply Qinv_le_0_compat. apply Qlt_le_weak, pow2_pos.
Qed.

Lemma round_pos_nonneg x : 0 < x -> 0 <= round_pos fmt x.
Proof.
  intros Hx. rewrite round_pos_eq.
  apply Qmult_le_0_compat; [|apply Qlt_le_weak, pow2_pos].
  change 0 with (inject_Z 0). rewrite <- Zle_Qle. apply rne_ge_Z.
  apply Qle_shift_div_l; [apply pow2_pos|].
  change (inject_Z 0) with 0. rewrite Qmult_0_l. apply Qlt_le_weak, Hx.
Qed.

Lemma round_pos_le x y : 0 < x -> x <= y -> round_pos fmt x <= round_pos fmt y.
Proof.
  intros Hx Hxy.
  assert (Hy : 0 < y) by (eapply Qlt_le_trans; eassumption).
  pose proof (cexp_le x y Hx Hxy) as He.
  rewrite !round_pos_eq.
  destruct (Z.eq_dec (cexp fmt x) (cexp fmt y)) as [E|N].
  - rewrite E. apply Qmult_le_compat_r; [|apply Qlt_le_weak, pow2_pos].
    rewrite <- Zle_Qle. apply rne_le. apply scaled_le. assumption.
  - assert (Hlt : (cexp fmt x < cexp fmt y)%Z) by lia.
    set (ex := cexp fmt x) in *. set (ey := cexp fmt y) in *.
    assert (Ey : ey = (ilog2 y - (prec fmt - 1))%Z).
    { unfold ey, ex, cexp in *. lia. }
    assert (Lx : (ilog2 x + 1 <= ilog2 y)%Z).
    { unfold ey, ex, cexp in *. lia. }
    destruct (ilog2_spec x Hx) as [_ Hx2].
    destruct (ilog2_spec y Hy) as [Hy1 _].
    set (b := pow2 (ilog2 y)) in *.
    assert (Hxb : x <= b).
    { apply Qlt_le_weak. eapply Qlt_le_trans; [exact Hx2|]. apply pow2_le. assumption. }
    apply Qle_trans with b.
    + (* the rounding of x stays below the power of two *)
      assert (Eb : b == inject_Z (2 ^ (ilog2 y - ex)) * pow2 ex).
      { rewrite <- pow2_Z by lia. rewrite <- pow2_add. unfold b.
        replace (ilog2 y - ex + ex)%Z with (ilog2 y) by lia. reflexivity. }
      rewrite Eb. apply Qmult_le_compat_r; [|apply Qlt_le_weak, pow2_pos].
      rewrite <- Zle_Qle. apply rne_le_Z.
      apply Qle_shift_div_r; [apply pow2_pos|]. rewrite <- Eb. assumption.
    + assert (Eb : b == inject_Z (2 ^ (prec fmt - 1)) * pow2 ey).
      { rewrite <- pow2_Z by lia. rewrite <- pow2_add. unfold b.
        replace (prec fmt - 1 + ey)%Z with (ilog2 y) by lia. reflexivity. }
      rewrite Eb. apply Qmult_le_compat_r; [|apply Qlt_le_weak, pow2_pos].
      rewrite <- Zle_Qle. apply rne_ge_Z.
      apply Qle_shift_div_l; [apply pow2_pos|]. rewrite <- Eb. assumption.
Qed.

Lemma Qsign_cases x :
  (Qnum x = 0%Z /\ x == 0) \/
  ((exists p, Qnum x = Zpos p) /\ 0 < x) \/
  ((exists p, Qnum x = Zneg p) /\ x < 0).
Proof.
  destruct x as [[|p|p] d]; simpl.
  - left. split; reflexivity.
  - right; left. split; [eauto | reflexivity].
  - right; right. split; [eauto | reflexivity].
Qed.

Lemma round_zero x : x == 0 -> round fmt x = 0.
Proof.
  intros H. unfold round. destruct (Qsign_cases x) as [[-> _]|[[_ H1]|[_ H1]]];
    [reflexivity | lra | lra].
Qed.

Lemma round_of_pos x : 0 < x -> round fmt x = round_pos fmt x.
Proof.
  intros H. unfold round.
  destruct (Qsign_cases x) as [[_ H1]|[[[p ->] _]|[_ H1]]]; [lra | reflexivity | lra].
Qed.

Lemma round_of_neg x : x < 0 -> round fmt x == - round_pos fmt (- x).
Proof.
  intros H. unfold round.
  destruct (Qsign_cases x) as [[_ H1]|[[_ H1]|[[p ->] _]]]; [lra | lra |].
  apply Qred_correct.
Qed.

Lemma round_le x y : x <= y -> round fmt x <= round fmt y.
Proof.
  intros Hxy.
  destruct (Qlt_le_dec x 0) as [Hx|Hx]; destruct (Qlt_le_dec y 0) as [Hy|Hy].
  - rewrite (round_of_neg x Hx), (round_of_neg y Hy).
    apply Qopp_le_compat. apply round_pos_le; lra.
  - rewrite (round_of_neg x Hx).
    assert (H1 : 0 <= round_pos fmt (- x)) by (apply round_pos_nonneg; lra).
    assert (H2 : 0 <= round fmt y).
    { destruct (Qle_lt_or_eq _ _ Hy) as [H|H].
      - rewrite (round_of_pos y H). apply round_pos_nonneg. assumption.
      - rewrite (round_zero y); [apply Qle_refl | symmetry; assumption]. }
    lra.
  - lra.
  - destruct (Qle_lt_or_eq _ _ Hx) as [H|H].
    + rewrite (round_of_pos x H), (round_of_pos y) by lra.
      apply round_pos_le; assumption.
    + rewrite (round_zero x) by (symmetry; assumption).
      destruct (Qle_lt_or_eq _ _ Hy) as [H'|H'].
      * rewrite (round_of_pos y H'). apply round_pos_nonneg. assumption.
      * rewrite (round_zero y); [apply Qle_refl | symmetry; assumption].
Qed.

Lemma rne_eq x y : x == y -> rne x = rne y.
Proof. intros H. apply Z.le_antisymm; apply rne_le; rewrite H; apply Qle_refl. Qed.

(** A multiple of the unit in the last place is not changed. *)
Lemma round_pos_exact x m e :
  0 < x -> x == inject_Z m * pow2 e -> (cexp fmt x <= e)%Z ->
  round_pos fmt x == x.
Proof.
  intros Hx Ex He. rewrite round_pos_eq.
  set (c := cexp fmt x) in *.
  assert (Es : x / pow2 c == inject_Z (m * 2 ^ (e - c))).
  { rewrite inject_Z_mult, <- pow2_Z by lia. rewrite pow2_sub, Ex.
    field. apply Qnot_eq_sym, Qlt_not_eq, pow2_pos. }
  rewrite (rne_eq _ _ Es), rne_Z.
  rewrite inject_Z_mult, <- pow2_Z by lia. rewrite pow2_sub, Ex.
  field. apply Qnot_eq_sym, Qlt_not_eq, pow2_pos.
Qed.

Hypothesis emin_neg : (emin fmt <= 0)%Z.

Lemma round_Z_exact z :
  (Z.abs z < 2 ^ prec fmt)%Z -> round fmt (inject_Z z) == inject_Z z.
Proof.
  intros Hz.
  assert (Hpos : forall k, (0 < k < 2 ^ prec fmt)%Z ->
                           round_pos fmt (inject_Z k) == inject_Z k).
  { intros k Hk.
    assert (H0 : 0 < inject_Z k) by (change 0 with (inject_Z 0); rewrite <- Zlt_Qlt; lia).
    apply (round_pos_exact _ k 0 H0).
    - unfold pow2. simpl. ring.
    - unfold cexp.
      assert (ilog2 (inject_Z k) < prec fmt)%Z; [|lia].
      apply ilog2_lt_pow; [assumption|].
      rewrite pow2_Z by lia. rewrite <- Zlt_Qlt. lia. }
  destruct (Z.lt_trichotomy z 0) as [H|[->|H]].
  - assert (H0 : inject_Z z < 0) by (change 0 with (inject_Z 0); rewrite <- Zlt_Qlt; lia).
    rewrite (round_of_neg _ H0). rewrite <- inject_Z_opp. rewrite Hpos by lia.
    rewrite inject_Z_opp. ring.
  - reflexivity.
  - assert (H0 : 0 < inject_Z z) by (change 0 with (inject_Z 0); rewrite <- Zlt_Qlt; lia).
    rewrite (round_of_pos _ H0). apply Hpos. lia.
Qed.

Lemma round_wd x y : x == y -> round fmt x == round fmt y.
Proof. intros H. apply Qle_antisym; apply round_le; rewrite H; apply Qle_refl. Qed.

End Rounding.

(** *** Finite values within bounds *)

Lemma ordered_in_weaken lo hi lo' hi' x y :
  ordered_in lo hi x y -> lo' <= lo -> hi <= hi' -> ordered_in lo' hi' x y.
Proof.
  intros (a & b & -> & -> & H) H1 H2. exists a, b.
  repeat split; try reflexivity; lra.
Qed.

Lemma ordered_in_l lo hi x y : ordered_in lo hi x y -> fin_in lo hi x.
Proof.
  intros (a & b & -> & -> & H). exists a, a. repeat split; try reflexivity; lra.
Qed.

Lemma ordered_in_r lo hi x y : ordered_in lo hi x y -> fin_in lo hi y.
Proof.
  intros (a & b & -> & -> & H). exists b, b. repeat split; try reflexivity; lra.
Qed.

Lemma fin_in_Fin lo hi q : lo <= q <= hi -> fin_in lo hi (Fin q).
Proof. intros H. exists q, q. repeat split; try reflexivity; lra. Qed.

Lemma fin_in_inv lo hi v : fin_in lo hi v -> exists q, v = Fin q /\ lo <= q <= hi.
Proof. intros (a & b & -> & E & H). exists a. split; [reflexivity | lra]. Qed.

Lemma rnd_Fin fmt x r :
  rnd fmt x = Fin r -> r = round fmt x /\ Qabs (round fmt x) < pow2 (emax fmt).
Proof.
  unfold rnd. destruct (Qle_bool (pow2 (emax fmt)) (Qabs (round fmt x))) eqn:E;
    [discriminate|].
  intros H. injection H as <-. split; [reflexivity|].
  apply Qnot_le_lt. intros H. apply Qle_bool_iff in H. congruence.
Qed.

Section Bounds.

Variable fmt : format.
Hypothesis prec_pos : (1 <= prec fmt)%Z.

Lemma rnd_finite lo hi L H x :
  lo <= x <= hi -> rnd fmt lo = Fin L -> rnd fmt hi = Fin H ->
  rnd fmt x = Fin (round fmt x) /\ L <= round fmt x <= H.
Proof.
  intros [Hlo Hhi] EL EH.
  apply rnd_Fin in EL. destruct EL as [-> BL].
  apply rnd_Fin in EH. destruct EH as [-> BH].
  pose proof (round_le fmt prec_pos _ _ Hlo) as H1.
  pose proof (round_le fmt prec_pos _ _ Hhi) as H2.
  apply Qabs_Qlt_condition in BL. apply Qabs_Qlt_condition in BH.
  split; [|split; assumption].
  unfold rnd.
  destruct (Qle_bool (pow2 (emax fmt)) (Qabs (round fmt x))) eqn:E; [|reflexivity].
  exfalso. apply Qle_bool_iff in E.
  assert (B : Qabs (round fmt x) < pow2 (emax fmt)).
  { apply Qabs_Qlt_condition. lra. }
  lra.
Qed.

(** The operations are monotone: two ordered arguments within bounds give
    two ordered results within the rounded bounds. *)
Lemma rnd_ordered lo hi L H a b :
  lo <= a -> a <= b -> b <= hi -> rnd fmt lo = Fin L -> rnd fmt hi = Fin H ->
  ordered_in L H (rnd fmt a) (rnd fmt b).
Proof.
  intros H1 H2 H3 EL EH.
  destruct (rnd_finite lo hi L H a) as [Ea Ba]; [lra | assumption..|].
  destruct (rnd_finite lo hi L H b) as [Eb Bb]; [lra | assumption..|].
  exists (round fmt a), (round fmt b). repeat split; try assumption; try lra.
  apply round_le; assumption.
Qed.

Lemma of_int_ordered lo hi L H z1 z2 :
  (lo <= z1)%Z -> (z1 <= z2)%Z -> (z2 <= hi)%Z ->
  of_int fmt lo = Fin L -> of_int fmt hi = Fin H ->
  ordered_in L H (of_int fmt z1) (of_int fmt z2).
Proof.
  intros H1 H2 H3 EL EH. unfold of_int in *.
  eapply rnd_ordered; eauto; rewrite <- Zle_Qle; assumption.
Qed.

Lemma cast_ordered lo hi L H x y :
  ordered_in lo hi x y -> rnd fmt lo = Fin L -> rnd fmt hi = Fin H ->
  ordered_in L H (cast fmt x) (cast fmt y).
Proof.
  intros (a & b & -> & -> & H1 & H2 & H3) EL EH. simpl.
  eapply rnd_ordered; eauto.
Qed.

Lemma add_ordered lo hi L H x y kf k :
  ordered_in lo hi x y -> kf = Fin k ->
  rnd fmt (lo + k) = Fin L -> rnd fmt (hi + k) = Fin H ->
  ordered_in L H (add fmt x kf) (add fmt y kf).
Proof.
  intros (a & b & -> & -> & H1 & H2 & H3) -> EL EH. simpl.
  eapply rnd_ordered; eauto; lra.
Qed.

Lemma sub_ordered lo hi L H x y kf k :
  ordered_in lo hi x y -> kf = Fin k ->
  rnd fmt (lo + - k) = Fin L -> rnd fmt (hi + - k) = Fin H ->
  ordered_in L H (sub fmt x kf) (sub fmt y kf).
Proof.
  intros (a & b & -> & -> & H1 & H2 & H3) -> EL EH. simpl.
  eapply rnd_ordered; eauto; lra.
Qed.

Lemma mul_l_ordered lo hi L H x y kf k :
  ordered_in lo hi x y -> kf = Fin k -> 0 <= k ->
  rnd fmt (k * lo) = Fin L -> rnd fmt (k * hi) = Fin H ->
  ordered_in L H (mul fmt kf x) (mul fmt kf y).
Proof.
  intros (a & b & -> & -> & H1 & H2 & H3) -> Hk EL EH. simpl.
  eapply rnd_ordered; eauto; nra.
Qed.

Lemma mul_r_ordered lo hi L H x y kf k :
  ordered_in lo hi x y -> kf = Fin k -> 0 <= k ->
  rnd fmt (lo * k) = Fin L -> rnd fmt (hi * k) = Fin H ->
  ordered_in L H (mul fmt x kf) (mul fmt y kf).
Proof.
  intros (a & b & -> & -> & H1 & H2 & H3) -> Hk EL EH. simpl.
  eapply rnd_ordered; eauto; nra.
Qed.

Lemma Qzero_pos k : 0 < k -> Qzero k = false.
Proof.
  intros Hk. unfold Qzero.
  destruct (Qsign_cases k) as [[_ H]|[[[p ->] _]|[[p ->] _]]]; [lra | reflexivity..].
Qed.

Lemma div_r_ordered lo hi L H x y kf k :
  ordered_in lo hi x y -> kf = Fin k -> 0 < k ->
  rnd fmt (lo / k) = Fin L -> rnd fmt (hi / k) = Fin H ->
  ordered_in L H (div fmt x kf) (div fmt y kf).
Proof.
  intros (a & b & -> & -> & H1 & H2 & H3) -> Hk EL EH. simpl.
  rewrite (Qzero_pos k Hk).
  assert (Hi : 0 <= / k) by (apply Qinv_le_0_compat; lra).
  eapply rnd_ordered; eauto; unfold Qdiv; nra.
Qed.

End Bounds.

Lemma floor_ordered lo hi x y :
  ordered_in lo hi x y ->
  ordered_in (inject_Z (Qfloor lo)) (inject_Z (Qfloor hi)) (floor x) (floor y).
Proof.
  intros (a & b & -> & -> & H1 & H2 & H3). simpl.
  exists (inject_Z (Qfloor a)), (inject_Z (Qfloor b)).
  repeat split; try reflexivity; rewrite <- Zle_Qle; apply Qfloor_resp_le; assumption.
Qed.

Lemma ltb_false lo hi v kf k :
  fin_in lo hi v -> kf = Fin k -> k <= lo -> ltb v kf = false.
Proof.
  intros Hv -> Hk. apply fin_in_inv in Hv. destruct Hv as (q & -> & Hq). simpl.
  replace (Qle_bool k q) with true; [reflexivity|].
  symmetry. apply Qle_bool_iff. lra.
Qed.

Lemma ltb_true lo hi v kf k :
  fin_in lo hi v -> kf = Fin k -> hi < k -> ltb v kf = true.
Proof.
  intros Hv -> Hk. apply fin_in_inv in Hv. destruct Hv as (q & -> & Hq). simpl.
  destruct (Qle_bool k q) eqn:E; [|reflexivity].
  apply Qle_bool_iff in E. lra.
Qed.

Lemma geb_false lo hi v kf k :
  fin_in lo hi v -> kf = Fin k -> hi < k -> geb v kf = false.
Proof.
  intros Hv -> Hk. apply fin_in_inv in Hv. destruct Hv as (q & -> & Hq).
  unfold geb. simpl.
  destruct (Qle_bool k q) eqn:E; [|reflexivity].
  apply Qle_bool_iff in E. lra.
Qed.

Lemma geb_true lo hi v kf k :
  fin_in lo hi v -> kf = Fin k -> k <= lo -> geb v kf = true.
Proof.
  intros Hv -> Hk. apply fin_in_inv in Hv. destruct Hv as (q & -> & Hq).
  unfold geb. simpl. apply Qle_bool_iff. lra.
Qed.

Lemma Qneg_spec x : if Qneg x then x < 0 else 0 <= x.
Proof.
  unfold Qneg.
  destruct (Qsign_cases x) as [[-> Hx]|[[[p ->] Hx]|[[p ->] Hx]]]; lra.
Qed.

Lemma round_half_away_le x y : x <= y -> (round_half_away x <= round_half_away y)%Z.
Proof.
  intros Hxy. unfold round_half_away.
  pose proof (Qneg_spec x) as Hx. pose proof (Qneg_spec y) as Hy.
  assert (F : forall t, 0 <= t -> (0 <= Qfloor (t + (1 # 2)))%Z).
  { intros t Ht. rewrite <- (Qfloor_Z 0). apply Qfloor_resp_le.
    change (inject_Z 0) with 0. lra. }
  destruct (Qneg x), (Qneg y).
  - apply Z.opp_le_mono. rewrite !Z.opp_involutive. apply Qfloor_resp_le. lra.
  - assert (Hx' : 0 <= - x) by lra.
    pose proof (F _ Hx'). pose proof (F _ Hy). lia.
  - exfalso. lra.
  - apply Qfloor_resp_le. lra.
Qed.

Section OneSided.

Variable fmt : format.
Hypothesis prec_pos : (1 <= prec fmt)%Z.

(** Above a non-negative bound the rounding is at least the rounded bound,
    or overflows to the positive infinity. *)
Lemma rnd_lower lo L x :
  0 <= lo -> lo <= x -> rnd fmt lo = Fin L ->
  rnd fmt x = Inf false \/ exists r, rnd fmt x = Fin r /\ L <= r.
Proof.
  intros H0 Hx EL. apply rnd_Fin in EL. destruct EL as [-> _].
  unfold rnd. destruct (Qle_bool (pow2 (emax fmt)) (Qabs (round fmt x))).
  - left. pose proof (Qneg_spec x) as Hn. destruct (Qneg x); [exfalso; lra | reflexivity].
  - right. eexists. split; [reflexivity|]. apply round_le; assumption.
Qed.

Lemma rnd_upper hi H x :
  hi <= 0 -> x <= hi -> rnd fmt hi = Fin H ->
  rnd fmt x = Inf true \/ exists r, rnd fmt x = Fin r /\ r <= H.
Proof.
  intros H0 Hx EH. apply rnd_Fin in EH. destruct EH as [-> _].
  unfold rnd.
  destruct (Qle_bool (pow2 (emax fmt)) (Qabs (round fmt x))) eqn:E.
  - left. pose proof (Qneg_spec x) as Hn. destruct (Qneg x); [reflexivity|].
    exfalso. assert (Z : x == 0) by lra.
    rewrite (round_zero fmt x Z) in E. apply Qle_bool_iff in E.
    pose proof (pow2_pos (emax fmt)). simpl in E. lra.
  - right. eexists. split; [reflexivity|]. apply round_le; assumption.
Qed.

End OneSided.

Lemma ltb_false_lower v L kf k :
  v = Inf false \/ (exists r, v = Fin r /\ L <= r) ->
  kf = Fin k -> k <= L -> ltb v kf = false.
Proof.
  intros [-> | (r & -> & Hr)] -> Hk; simpl; [reflexivity|].
  replace (Qle_bool k r) with true; [reflexivity|].
  symmetry. apply Qle_bool_iff. lra.
Qed.

Lemma geb_false_upper v H kf k :
  v = Inf true \/ (exists r, v = Fin r /\ r <= H) ->
  kf = Fin k -> H < k -> geb v kf = false.
Proof.
  intros [-> | (r & -> & Hr)] -> Hk; unfold geb; simpl; [reflexivity|].
  destruct (Qle_bool k r) eqn:E; [|reflexivity].
  apply Qle_bool_iff in E. lra.
Qed.

Section Exact.

Variable fmt : format.
Hypothesis prec_pos : (1 <= prec fmt)%Z.
Hypothesis emin_neg : (emin fmt <= 0)%Z.
Hypothesis prec_emax : (prec fmt <= emax fmt)%Z.

(** Integers of up to [prec] bits are values of the format. *)
Lemma rnd_Z_exact x z :
  x == inject_Z z -> (Z.abs z < 2 ^ prec fmt)%Z ->
  exists r, rnd fmt x = Fin r /\ r == inject_Z z.
Proof.
  intros Ex Hz.
  assert (Er : round fmt x == inject_Z z).
  { rewrite (round_wd fmt prec_pos x (inject_Z z) Ex).
    apply round_Z_exact; assumption. }
  exists (round fmt x). split; [|assumption].
  unfold rnd.
  destruct (Qle_bool (pow2 (emax fmt)) (Qabs (round fmt x))) eqn:E; [|reflexivity].
  exfalso. apply Qle_bool_iff in E. rewrite Er in E.
  assert (Hp : pow2 (prec fmt) <= pow2 (emax fmt)) by (apply pow2_le; assumption).
  rewrite pow2_Z in Hp by lia.
  assert (Ha : Qabs (inject_Z z) == inject_Z (Z.abs z)).
  { unfold Qabs, inject_Z. simpl. reflexivity. }
  rewrite Ha in E.
  assert (Hlt : inject_Z (Z.abs z) < inject_Z (2 ^ prec fmt)) by (rewrite <- Zlt_Qlt; assumption).
  lra.
Qed.

End Exact.

End FPFacts.

(** ** Properties of the AQI converter *)

Module ConverterFacts.
Import FP Converter FPFacts.
Local Open Scope Q_scope.

Lemma prec_f32 : (1 <= prec f32)%Z.
Proof. ev_le. Qed.

Lemma prec_f64 : (1 <= prec f64)%Z.
Proof. ev_le. Qed.

Lemma truncate_ordered lo hi L2 H2 L3 H3 L4 H4 L5 H5 x y :
  ordered_in lo hi x y ->
  rnd f32 (10 * lo) = Fin L2 -> rnd f32 (10 * hi) = Fin H2 ->
  rnd f64 L2 = Fin L3 -> rnd f64 H2 = Fin H3 ->
  rnd f64 (inject_Z (Qfloor L3) / 10) = Fin L4 ->
  rnd f64 (inject_Z (Qfloor H3) / 10) = Fin H4 ->
  rnd f32 L4 = Fin L5 -> rnd f32 H4 = Fin H5 ->
  ordered_in L5 H5 (truncate_tenth x) (truncate_tenth y).
Proof.
  intros Hxy E2 E2' E3 E3' E4 E4' E5 E5'. unfold truncate_tenth.
  eapply (cast_ordered f32 prec_f32); [|eassumption..].
  eapply (div_r_ordered f64 prec_f64) with (k := 10); [|ev_eq|reflexivity|eassumption..].
  apply floor_ordered.
  eapply (cast_ordered f64 prec_f64); [|eassumption..].
  eapply (mul_l_ordered f32 prec_f32) with (k := 10); [|ev_eq|ev_le|eassumption..].
  exact Hxy.
Qed.

Lemma round_to_int_ordered lo hi x y :
  ordered_in lo hi x y ->
  in_int (round_half_away lo) = true -> in_int (round_half_away hi) = true ->
  exists z1 z2, round_to_int x = Some z1 /\ round_to_int y = Some z2 /\
    (round_half_away lo <= z1 /\ z1 <= z2 /\ z2 <= round_half_away hi)%Z.
Proof.
  intros (a & b & -> & -> & H1 & H2 & H3) Il Ih.
  pose proof (round_half_away_le _ _ H1). pose proof (round_half_away_le _ _ H2).
  pose proof (round_half_away_le _ _ H3).
  unfold in_int in *. apply andb_true_iff in Il, Ih.
  rewrite !Z.leb_le in Il, Ih.
  exists (round_half_away a), (round_half_away b). simpl. unfold in_int.
  replace (INT_MIN <=? round_half_away a)%Z with true by (symmetry; apply Z.leb_le; lia).
  replace (round_half_away a <=? INT_MAX)%Z with true by (symmetry; apply Z.leb_le; lia).
  replace (INT_MIN <=? round_half_away b)%Z with true by (symmetry; apply Z.leb_le; lia).
  replace (round_half_away b <=? INT_MAX)%Z with true by (symmetry; apply Z.leb_le; lia).
  simpl. repeat split; try reflexivity; lia.
Qed.

Lemma linear_ordered A B ch cl kl d m b lo hi L1 H1 L2 H2 L3 H3 L4 H4 c1 c2 :
  ordered_in lo hi c1 c2 ->
  cl = Fin kl -> sub f32 ch cl = Fin d -> 0 < d ->
  in_int (A - B) = true ->
  of_int f32 (A - B) = Fin m -> 0 <= m -> of_int f32 B = Fin b ->
  rnd f32 (lo + - kl) = Fin L1 -> rnd f32 (hi + - kl) = Fin H1 ->
  rnd f32 (L1 / d) = Fin L2 -> rnd f32 (H1 / d) = Fin H2 ->
  rnd f32 (L2 * m) = Fin L3 -> rnd f32 (H2 * m) = Fin H3 ->
  rnd f32 (L3 + b) = Fin L4 -> rnd f32 (H3 + b) = Fin H4 ->
  in_int (round_half_away L4) = true -> in_int (round_half_away H4) = true ->
  exists z1 z2, linear A B ch cl c1 = Some z1 /\ linear A B ch cl c2 = Some z2 /\
    (round_half_away L4 <= z1 /\ z1 <= z2 /\ z2 <= round_half_away H4)%Z.
Proof.
  intros Hc Ecl Ed Hd Hi Em Hm Eb E1 E1' E2 E2' E3 E3' E4 E4' Il Ih.
  unfold linear. rewrite Hi.
  apply round_to_int_ordered with (lo := L4) (hi := H4); try assumption.
  eapply (add_ordered f32 prec_f32); [|eassumption..].
  eapply (mul_r_ordered f32 prec_f32); [|eassumption..].
  eapply (div_r_ordered f32 prec_f32); [|eassumption..].
  eapply (sub_ordered f32 prec_f32); [|eassumption..].
  exact Hc.
Qed.

(** *** Which branch of the [if] chain is taken *)

Lemma band1_taken c :
  fin_in 0 12 c ->
  aqi_of_truncated c = linear 50 0 (of_int f32 12) (of_int f32 0) c.
Proof.
  intros Hc. unfold aqi_of_truncated, ge_int, lt_dbl.
  rewrite (geb_true 0 12 c (of_int f32 0) 0 Hc) by (ev_eq || ev_le).
  assert (Hd : fin_in 0 12 (cast f64 c)).
  { eapply (cast_ordered f64 prec_f64); [exact Hc|ev_eq..]. }
  rewrite (ltb_true 0 12 _ (dbl 12.1) _ Hd) by (ev_eq || ev_lt).
  reflexivity.
Qed.

Lemma last_band_above q :
  500.5 <= q ->
  aqi_of_truncated (Fin q) = linear 1000 501 (flt 1000.4) (flt 500.5) (Fin q).
Proof.
  intros Hq.
  assert (Hd : cast f64 (Fin q) = Inf false \/
               exists r, cast f64 (Fin q) = Fin r /\ (1001 # 2) <= r).
  { simpl. apply (rnd_lower f64 prec_f64 500.5); [ev_le | assumption | ev_eq]. }
  unfold aqi_of_truncated, lt_dbl.
  rewrite (ltb_false_lower _ _ (dbl 12.1) _ Hd) by (ev_eq || ev_le).
  rewrite (ltb_false_lower _ _ (dbl 35.5) _ Hd) by (ev_eq || ev_le).
  rewrite (ltb_false_lower _ _ (dbl 55.5) _ Hd) by (ev_eq || ev_le).
  rewrite (ltb_false_lower _ _ (dbl 150.5) _ Hd) by (ev_eq || ev_le).
  rewrite (ltb_false_lower _ _ (dbl 250.5) _ Hd) by (ev_eq || ev_le).
  rewrite (ltb_false_lower _ _ (dbl 350.5) _ Hd) by (ev_eq || ev_le).
  rewrite (ltb_false_lower _ _ (dbl 500.5) _ Hd) by (ev_eq || ev_le).
  rewrite !andb_false_r. reflexivity.
Qed.

Lemma last_band_below q :
  q < 0 ->
  aqi_of_truncated (Fin q) = linear 1000 501 (flt 1000.4) (flt 500.5) (Fin q).
Proof.
  intros Hq.
  assert (Hd : cast f64 (Fin q) = Inf true \/
               exists r, cast f64 (Fin q) = Fin r /\ r <= 0).
  { simpl. apply (rnd_upper f64 prec_f64 0); [ev_le | lra | ev_eq]. }
  assert (H0 : ge_int (Fin q) 0 = false).
  { unfold ge_int. apply (geb_false q q _ _ 0); [apply fin_in_Fin; lra | ev_eq | assumption]. }
  unfold aqi_of_truncated, ge_dbl. rewrite H0.
  rewrite (geb_false_upper _ _ (dbl 12.1) _ Hd) by (ev_eq || ev_lt).
  rewrite (geb_false_upper _ _ (dbl 35.5) _ Hd) by (ev_eq || ev_lt).
  rewrite (geb_false_upper _ _ (dbl 55.5) _ Hd) by (ev_eq || ev_lt).
  rewrite (geb_false_upper _ _ (dbl 150.5) _ Hd) by (ev_eq || ev_lt).
  rewrite (geb_false_upper _ _ (dbl 250.5) _ Hd) by (ev_eq || ev_lt).
  rewrite (geb_false_upper _ _ (dbl 350.5) _ Hd) by (ev_eq || ev_lt).
  reflexivity.
Qed.

Lemma truncate_of_int_ordered lo hi L1 H1 L2 H2 L3 H3 L4 H4 L5 H5 z1 z2 :
  (lo <= z1)%Z -> (z1 <= z2)%Z -> (z2 <= hi)%Z ->
  of_int f32 lo = Fin L1 -> of_int f32 hi = Fin H1 ->
  rnd f32 (10 * L1) = Fin L2 -> rnd f32 (10 * H1) = Fin H2 ->
  rnd f64 L2 = Fin L3 -> rnd f64 H2 = Fin H3 ->
  rnd f64 (inject_Z (Qfloor L3) / 10) = Fin L4 ->
  rnd f64 (inject_Z (Qfloor H3) / 10) = Fin H4 ->
  rnd f32 L4 = Fin L5 -> rnd f32 H4 = Fin H5 ->
  ordered_in L5 H5 (truncate_tenth (of_int f32 z1)) (truncate_tenth (of_int f32 z2)).
Proof.
  intros Z1 Z2 Z3 E1 E1' E2 E2' E3 E3' E4 E4' E5 E5'.
  eapply truncate_ordered;
    [eapply (of_int_ordered f32 prec_f32); eassumption | eassumption..].
Qed.

(** The truncated concentration of the integers from 501 up, from 1001 up
    and below zero. *)
Lemma truncate_from_501 z1 z2 :
  (501 <= z1)%Z -> (z1 <= z2)%Z -> (z2 <= INT_MAX)%Z ->
  ordered_in 501 2147483648
    (truncate_tenth (of_int f32 z1)) (truncate_tenth (of_int f32 z2)).
Proof.
  intros Z1 Z2 Z3. eapply ordered_in_weaken.
  - eapply (truncate_of_int_ordered 501 INT_MAX); try eassumption; ev.
  - ev.
  - ev.
Qed.


Lemma truncate_negative z1 z2 :
  (INT_MIN <= z1)%Z -> (z1 <= z2)%Z -> (z2 <= -1)%Z ->
  ordered_in (-2147483648) (-1)
    (truncate_tenth (of_int f32 z1)) (truncate_tenth (of_int f32 z2)).
Proof.
  intros Z1 Z2 Z3. eapply ordered_in_weaken.
  - eapply (truncate_of_int_ordered INT_MIN (-1)); try eassumption; ev.
  - ev.
  - ev.
Qed.

Lemma truncate_0_12 z1 z2 :
  (0 <= z1)%Z -> (z1 <= z2)%Z -> (z2 <= 12)%Z ->
  ordered_in 0 12
    (truncate_tenth (of_int f32 z1)) (truncate_tenth (of_int f32 z2)).
Proof.
  intros Z1 Z2 Z3. eapply ordered_in_weaken.
  - eapply (truncate_of_int_ordered 0 12); try eassumption; ev.
  - ev.
  - ev.
Qed.

(** The last band's interpolation on these ranges. *)
Lemma last_band_ordered lo hi L1 H1 L2 H2 L3 H3 L4 H4 c1 c2 :
  ordered_in lo hi c1 c2 ->
  rnd f32 (lo + - (1001 # 2)) = Fin L1 -> rnd f32 (hi + - (1001 # 2)) = Fin H1 ->
  rnd f32 (L1 / (4095181 # 8192)) = Fin L2 -> 
  rnd f32 (H1 / (4095181 # 8192)) = Fin H2 ->
  rnd f32 (L2 * 499) = Fin L3 -> rnd f32 (H2 * 499) = Fin H3 ->
  rnd f32 (L3 + 501) = Fin L4 -> rnd f32 (H3 + 501) = Fin H4 ->
  in_int (round_half_away L4) = true -> in_int (round_half_away H4) = true ->
  exists z1 z2,
    linear 1000 501 (flt 1000.4) (flt 500.5) c1 = Some z1 /\
    linear 1000 501 (flt 1000.4) (flt 500.5) c2 = Some z2 /\
    (round_half_away L4 <= z1 /\ z1 <= z2 /\ z2 <= round_half_away H4)%Z.
Proof.
  intros Hc E1 E1' E2 E2' E3 E3' E4 E4' Il Ih.
  eapply (linear_ordered 1000 501 (flt 1000.4) (flt 500.5));
    [exact Hc | ev_eq | ev_eq | ev_eq | ev_eq | ev_eq | ev_le | ev_eq | eassumption..].
Qed.

Lemma last_band_on lo hi c :
  fin_in lo hi c -> 500.5 <= lo \/ hi < 0 ->
  aqi_of_truncated c = linear 1000 501 (flt 1000.4) (flt 500.5) c.
Proof.
  intros Hc Hb. apply fin_in_inv in Hc. destruct Hc as (q & -> & Hq).
  destruct Hb; [apply last_band_above | apply last_band_below]; lra.
Qed.

Lemma aqi_from_501 z :
  (501 <= z <= INT_MAX)%Z ->
  exists a,
    pm25toAQI z =
      linear 1000 501 (flt 1000.4) (flt 500.5) (truncate_tenth (of_int f32 z)) /\
    pm25toAQI z = Some a /\ (501 <= a)%Z.
Proof.
  intros [Z1 Z2].
  pose proof (truncate_from_501 z z Z1 (Z.le_refl z) Z2) as Hc.
  assert (E : pm25toAQI z =
    linear 1000 501 (flt 1000.4) (flt 500.5) (truncate_tenth (of_int f32 z))).
  { unfold pm25toAQI. apply (last_band_on 501 2147483648); [exact Hc | left; ev]. }
  edestruct (last_band_ordered 501 2147483648) as (a & a' & E1 & _ & B);
    [exact Hc | ev..|].
  eval_rha B. exists a. rewrite E. repeat split; [assumption | lia].
Qed.


Lemma aqi_negative z :
  (INT_MIN <= z <= -1)%Z ->
  exists a,
    pm25toAQI z =
      linear 1000 501 (flt 1000.4) (flt 500.5) (truncate_tenth (of_int f32 z)) /\
    pm25toAQI z = Some a /\ (a <= 0)%Z.
Proof.
  intros [Z1 Z2].
  pose proof (truncate_negative z z Z1 (Z.le_refl z) Z2) as Hc.
  assert (E : pm25toAQI z =
    linear 1000 501 (flt 1000.4) (flt 500.5) (truncate_tenth (of_int f32 z))).
  { unfold pm25toAQI. apply (last_band_on (-2147483648) (-1)); [exact Hc | right; ev]. }
  edestruct (last_band_ordered (-2147483648) (-1)) as (a & a' & E1 & _ & B);
    [exact Hc | ev..|].
  eval_rha B. exists a. rewrite E. repeat split; [assumption | lia].
Qed.

(** *** The truncation is exact on the integers a [float] holds *)

Lemma f32_exact x z :
  x == inject_Z z -> (Z.abs z < 2 ^ 24)%Z ->
  exists r, rnd f32 x = Fin r /\ r == inject_Z z.
Proof. apply (rnd_Z_exact f32); ev_le. Qed.

Lemma f64_exact x z :
  x == inject_Z z -> (Z.abs z < 2 ^ 53)%Z ->
  exists r, rnd f64 x = Fin r /\ r == inject_Z z.
Proof. apply (rnd_Z_exact f64); ev_le. Qed.

Lemma truncate_exact z :
  (Z.abs z <= 1677721)%Z ->
  exists c, truncate_tenth (of_int f32 z) = Fin c /\ c == inject_Z z.
Proof.
  intros Hz. unfold truncate_tenth, of_int.
  destruct (f32_exact (inject_Z z) z) as (r1 & -> & E1); [reflexivity | lia |].
  replace (rnd f32 (inject_Z 10)) with (Fin 10) by ev_eq.
  replace (rnd f64 (inject_Z 10)) with (Fin 10) by ev_eq.
  cbn [mul].
  destruct (f32_exact (10 * r1) (10 * z)) as (r2 & -> & E2);
    [rewrite E1, inject_Z_mult; reflexivity | lia |].
  cbn [cast].
  destruct (f64_exact r2 (10 * z)) as (r3 & -> & E3); [assumption | lia |].
  cbn [floor div]. replace (Qzero 10) with false by reflexivity.
  assert (F : Qfloor r3 = (10 * z)%Z) by (rewrite E3; apply Qfloor_Z).
  rewrite F.
  destruct (f64_exact (inject_Z (10 * z) / 10) z) as (r4 & -> & E4);
    [rewrite inject_Z_mult; field | lia |].
  cbn [cast].
  destruct (f32_exact r4 z) as (r5 & -> & E5); [assumption | lia |].
  exists r5. split; [reflexivity | assumption].
Qed.

(** Had [floor] been the [float] overload of <cmath>, the division would
    be a [float] division; on these integers the result is the same. *)
Lemma truncate_tenth_float_exact z :
  (Z.abs z <= 1677721)%Z ->
  exists c, truncate_tenth_float (of_int f32 z) = Fin c /\ c == inject_Z z.
Proof.
  intros Hz. unfold truncate_tenth_float, of_int.
  destruct (f32_exact (inject_Z z) z) as (r1 & -> & E1); [reflexivity | lia |].
  replace (rnd f32 (inject_Z 10)) with (Fin 10) by ev_eq.
  cbn [mul].
  destruct (f32_exact (10 * r1) (10 * z)) as (r2 & -> & E2);
    [rewrite E1, inject_Z_mult; reflexivity | lia |].
  cbn [floor div]. replace (Qzero 10) with false by reflexivity.
  assert (F : Qfloor r2 = (10 * z)%Z) by (rewrite E2; apply Qfloor_Z).
  rewrite F.
  destruct (f32_exact (inject_Z (10 * z) / 10) z) as (r3 & -> & E3);
    [rewrite inject_Z_mult; field | lia |].
  exists r3. split; [reflexivity | assumption].
Qed.

(** *** Checking a property on a range of integers by evaluation *)

Lemma all_from_spec P lo n :
  all_from P lo n = true ->
  forall z, (lo <= z < lo + Z.of_nat n)%Z -> P z = true.
Proof.
  unfold all_from. rewrite forallb_forall. intros H z Hz. apply H.
  apply in_map_iff. exists (Z.to_nat (z - lo)). split; [lia|].
  apply in_seq. lia.
Qed.

Lemma aqi_0_500 z :
  (0 <= z <= 500)%Z -> exists a, pm25toAQI z = Some a /\ (0 <= a <= 500)%Z.
Proof.
  intros Hz.
  assert (H : returns_0_500 z = true).
  { apply (all_from_spec returns_0_500 0 501); [vm_compute; reflexivity | lia]. }
  unfold returns_0_500 in H. destruct (pm25toAQI z) as [a|]; [|discriminate].
  exists a. split; [reflexivity | lia].
Qed.

Lemma band1_ordered c1 c2 :
  ordered_in 0 12 c1 c2 ->
  exists a1 a2, aqi_of_truncated c1 = Some a1 /\ aqi_of_truncated c2 = Some a2 /\
    (0 <= a1 /\ a1 <= a2 /\ a2 <= 50)%Z.
Proof.
  intros Hc.
  rewrite (band1_taken c1 (ordered_in_l _ _ _ _ Hc)).
  rewrite (band1_taken c2 (ordered_in_r _ _ _ _ Hc)).
  edestruct (linear_ordered 50 0 (of_int f32 12) (of_int f32 0))
    as (a1 & a2 & E1 & E2 & B); [exact Hc | ev..|].
  eval_rha B. exists a1, a2. repeat split; try assumption; lia.
Qed.

Lemma to_int_0_12 q :
  0 <= q -> q <= 12 ->
  to_int (Fin q) = Some (Qfloor q) /\ (0 <= Qfloor q <= 12)%Z.
Proof.
  intros H0 H12.
  assert (B : (0 <= Qfloor q <= 12)%Z).
  { split.
    - rewrite <- (Qfloor_Z 0). apply Qfloor_resp_le. assumption.
    - rewrite <- (Qfloor_Z 12). apply Qfloor_resp_le. assumption. }
  split; [|assumption].
  assert (E : Z.quot (Qnum q) (Zpos (Qden q)) = Qfloor q).
  { destruct q as [n d]. unfold Qle in H0. simpl in *.
    apply Z.quot_div_nonneg; lia. }
  unfold to_int. rewrite E. unfold in_int.
  replace (INT_MIN <=? Qfloor q)%Z with true
    by (symmetry; apply Z.leb_le; unfold INT_MIN; lia).
  replace (Qfloor q <=? INT_MAX)%Z with true
    by (symmetry; apply Z.leb_le; unfold INT_MAX; lia).
  reflexivity.
Qed.

(** C7.  For all concentrations [q1 <= q2] in [[0, 12.0]] the index of [q1]
    is at most the index of [q2] and both lie in [[0, 50]]: for the body of
    the converter run on the two values, and for the converter called on
    them (its [int] parameter takes their integer parts; on integers the
    two agree). *)
Theorem band1_monotone_and_bounded (q1 q2 : Q) :
  0 <= q1 -> q1 <= q2 -> q2 <= 12 ->
  (exists a1 a2,
      aqi_of_truncated (truncate_tenth (Fin q1)) = Some a1 /\
      aqi_of_truncated (truncate_tenth (Fin q2)) = Some a2 /\
      (0 <= a1 /\ a1 <= a2 /\ a2 <= 50)%Z) /\
  (exists b1 b2,
      pm25toAQI_of_double (Fin q1) = Some b1 /\
      pm25toAQI_of_double (Fin q2) = Some b2 /\
      (0 <= b1 /\ b1 <= b2 /\ b2 <= 50)%Z).
Proof.
  intros H0 H12 Hhi. split.
  - apply band1_ordered. eapply ordered_in_weaken.
    + eapply (truncate_ordered 0 12); [|ev..].
      exists q1, q2. repeat split; assumption.
    + ev.
    + ev.
  - destruct (to_int_0_12 q1) as [E1 B1]; [lra | lra |].
    destruct (to_int_0_12 q2) as [E2 B2]; [lra | lra |].
    unfold pm25toAQI_of_double. rewrite E1, E2. unfold pm25toAQI.
    apply band1_ordered. apply truncate_0_12; try lia.
    apply Qfloor_resp_le. assumption.
Qed.

Lemma band1_monotone_and_bounded_witness :
  0 <= 3 /\ 3 <= 9.5 /\ 9.5 <= 12 /\
  (exists a1 a2,
      aqi_of_truncated (truncate_tenth (Fin 3)) = Some a1 /\
      aqi_of_truncated (truncate_tenth (Fin 9.5)) = Some a2 /\
      (0 <= a1 /\ a1 <= a2 /\ a2 <= 50)%Z) /\
  (exists b1 b2,
      pm25toAQI_of_double (Fin 3) = Some b1 /\
      pm25toAQI_of_double (Fin 9.5) = Some b2 /\
      (0 <= b1 /\ b1 <= b2 /\ b2 <= 50)%Z).
Proof.
  assert (H1 : 0 <= 3) by ev. assert (H2 : 3 <= 9.5) by ev.
  assert (H3 : 9.5 <= 12) by ev.
  repeat split; try assumption;
    apply (band1_monotone_and_bounded 3 9.5 H1 H2 H3).
Defined.



Lemma band7_taken c :
  fin_in 351 500 c ->
  aqi_of_truncated c = linear 500 401 (flt 500.4) (flt 350.5) c.
Proof.
  intros Hc.
  assert (Hd : fin_in 351 500 (cast f64 c)).
  { eapply (cast_ordered f64 prec_f64); [exact Hc|ev..]. }
  unfold aqi_of_truncated, lt_dbl, ge_dbl.
  rewrite (ltb_false 351 500 _ (dbl 12.1) _ Hd) by ev.
  rewrite (ltb_false 351 500 _ (dbl 35.5) _ Hd) by ev.
  rewrite (ltb_false 351 500 _ (dbl 55.5) _ Hd) by ev.
  rewrite (ltb_false 351 500 _ (dbl 150.5) _ Hd) by ev.
  rewrite (ltb_false 351 500 _ (dbl 250.5) _ Hd) by ev.
  rewrite (ltb_false 351 500 _ (dbl 350.5) _ Hd) by ev.
  rewrite (geb_true 351 500 _ (dbl 350.5) _ Hd) by ev.
  rewrite (ltb_true 351 500 _ (dbl 500.5) _ Hd) by ev.
  rewrite !andb_false_r. reflexivity.
Qed.

Lemma band7_351_500 z :
  (351 <= z <= 500)%Z ->
  pm25toAQI z =
    linear 500 401 (flt 500.4) (flt 350.5) (truncate_tenth (of_int f32 z)).
Proof.
  intros [Z1 Z2]. unfold pm25toAQI. apply band7_taken.
  eapply ordered_in_weaken.
  - eapply (truncate_of_int_ordered 351 500 _ _ _ _ _ _ _ _ _ _ z z);
      try eassumption; try apply Z.le_refl; ev.
  - ev.
  - ev.
Qed.

(** On every [int] the converter returns a number. *)
Lemma pm25toAQI_total z :
  in_int z = true -> exists a, pm25toAQI z = Some a.
Proof.
  intros Hz. unfold in_int in Hz. apply andb_true_iff in Hz.
  rewrite !Z.leb_le in Hz.
  destruct (Z.lt_ge_cases z 0) as [H|H].
  - destruct (aqi_negative z) as (a & _ & E & _); [lia|]. eauto.
  - destruct (Z.le_gt_cases z 500) as [H'|H'].
    + destruct (aqi_0_500 z) as (a & E & _); [lia|]. eauto.
    + destruct (aqi_from_501 z) as (a & _ & E & _); [lia|]. eauto.
Qed.

(** C9 as the code has it.  The converter is total: on every [int] it
    returns a number.  The final [else] is the catch-all from 500.5 up and
    below 0, not from 350.5: every [c >= 500.5] and every [c < 0], so every
    [int] from 501 up and every [int] below 0, is classified by the last
    band [linear(1000, 501, 1000.4, 500.5, c)], while the [int]s from 351 to
    500, the ones with [c] in [[350.5, 500.5)], have the band
    [linear(500, 401, 500.4, 350.5, c)] of their own. *)
Theorem total_and_catch_all_from_500_5 (pm25 : Z) (q : Q) :
  (INT_MIN <= pm25 <= INT_MAX)%Z -> 500.5 <= q \/ q < 0 ->
  (exists a, pm25toAQI pm25 = Some a) /\
  aqi_of_truncated (Fin q) =
    linear 1000 501 (flt 1000.4) (flt 500.5) (Fin q) /\
  ((501 <= pm25 \/ pm25 < 0)%Z ->
   pm25toAQI pm25 =
     linear 1000 501 (flt 1000.4) (flt 500.5) (truncate_tenth (of_int f32 pm25))) /\
  ((351 <= pm25 <= 500)%Z ->
   pm25toAQI pm25 =
     linear 500 401 (flt 500.4) (flt 350.5) (truncate_tenth (of_int f32 pm25))).
Proof.
  intros Hr Hq. repeat split.
  - apply pm25toAQI_total. unfold in_int.
    apply andb_true_iff. rewrite !Z.leb_le. lia.
  - destruct Hq; [apply last_band_above | apply last_band_below]; assumption.
  - intros [H|H].
    + destruct (aqi_from_501 pm25) as (a & E & _); [lia|]. exact E.
    + destruct (aqi_negative pm25) as (a & E & _); [lia|]. exact E.
  - intros H. apply band7_351_500. assumption.
Qed.

Lemma total_and_catch_all_from_500_5_witness :
  (INT_MIN <= -4 <= INT_MAX)%Z /\ (500.5 <= 612.3 \/ 612.3 < 0) /\
  (exists a, pm25toAQI (-4) = Some a) /\
  aqi_of_truncated (Fin 612.3) =
    linear 1000 501 (flt 1000.4) (flt 500.5) (Fin 612.3) /\
  ((501 <= -4 \/ -4 < 0)%Z ->
   pm25toAQI (-4) =
     linear 1000 501 (flt 1000.4) (flt 500.5) (truncate_tenth (of_int f32 (-4)))) /\
  ((351 <= -4 <= 500)%Z ->
   pm25toAQI (-4) =
     linear 500 401 (flt 500.4) (flt 350.5) (truncate_tenth (of_int f32 (-4)))).
Proof.
  assert (H1 : (INT_MIN <= -4 <= INT_MAX)%Z) by (vm_compute; split; discriminate).
  assert (H2 : 500.5 <= 612.3 \/ 612.3 < 0) by (left; ev).
  split; [exact H1|]. split; [exact H2|].
  exact (total_and_catch_all_from_500_5 (-4) 612.3 H1 H2).
Defined.

(** C9 does not hold as stated: 400 is at least 350.5, and the converter
    classifies it by the band [linear(500, 401, 500.4, 350.5, c)], which
    gives 434, not by the last band, which would give 401. *)
Lemma catch_all_not_from_350_5 :
  350.5 <= 400 /\
  truncate_tenth (of_int f32 400) = Fin 400 /\
  pm25toAQI 400 = linear 500 401 (flt 500.4) (flt 350.5) (Fin 400) /\
  pm25toAQI 400 = Some 434%Z /\
  linear 1000 501 (flt 1000.4) (flt 500.5) (Fin 400) = Some 401%Z /\
  pm25toAQI 400 <> linear 1000 501 (flt 1000.4) (flt 500.5) (Fin 400).
Proof.
  split; [ev|]. split; [ev_eq|]. split; [ev_eq|]. split; [ev_eq|].
  split; [ev_eq|]. vm_compute. intros H. discriminate H.
Qed.

(** C1 as the code has it.  The converter has an [int] parameter: it is
    exact at the breakpoints it can receive, [pm25toAQI(0) = 0],
    [pm25toAQI(12) = 50], [pm25toAQI(500) = 500], [pm25toAQI(1000) = 1000],
    each the band's interpolation rounded half away from zero, and the first
    concentration of the second band is 13, with index 53.  The arguments
    12.1, 500.4 and 1000.4 are cut to 12, 500 and 1000 by the parameter and
    give 50, 500 and 1000; the body run on them as [float] values would give
    51, 500 and 1000, but no [int] input has the index 51. *)
Theorem breakpoints_with_int_parameter (pm25 : Z) :
  (INT_MIN <= pm25 <= INT_MAX)%Z ->
  (pm25toAQI 0 = Some 0 /\ pm25toAQI 12 = Some 50 /\ pm25toAQI 13 = Some 53 /\
   pm25toAQI 500 = Some 500 /\ pm25toAQI 1000 = Some 1000)%Z /\
  (pm25toAQI 12 = linear 50 0 (of_int f32 12) (of_int f32 0) (Fin 12) /\
   pm25toAQI 13 = linear 100 51 (flt 35.4) (flt 12.1) (Fin 13) /\
   pm25toAQI 500 = linear 500 401 (flt 500.4) (flt 350.5) (Fin 500) /\
   pm25toAQI 1000 = linear 1000 501 (flt 1000.4) (flt 500.5) (Fin 1000)) /\
  (pm25toAQI_of_double (dbl 0) = Some 0 /\
   pm25toAQI_of_double (dbl 12.0) = Some 50 /\
   pm25toAQI_of_double (dbl 12.1) = Some 50 /\
   pm25toAQI_of_double (dbl 500.4) = Some 500 /\
   pm25toAQI_of_double (dbl 1000.4) = Some 1000)%Z /\
  (aqi_of_truncated (truncate_tenth (flt 12.1)) = Some 51 /\
   aqi_of_truncated (truncate_tenth (flt 500.4)) = Some 500 /\
   aqi_of_truncated (truncate_tenth (flt 1000.4)) = Some 1000)%Z /\
  pm25toAQI pm25 <> Some 51%Z.
Proof.
  intros Hr.
  split; [repeat split; ev_eq|]. split; [repeat split; ev_eq|].
  split; [repeat split; ev_eq|]. split; [repeat split; ev_eq|].
  destruct (Z.lt_ge_cases pm25 0) as [H|H].
  - destruct (aqi_negative pm25) as (a & _ & -> & B); [lia|].
    intros E. injection E as E. lia.
  - destruct (Z.le_gt_cases pm25 500) as [H'|H'].
    + assert (N : never_51 pm25 = true).
      { apply (all_from_spec never_51 0 501); [vm_compute; reflexivity | lia]. }
      unfold never_51 in N. destruct (pm25toAQI pm25) as [a|]; [|discriminate].
      intros E. injection E as ->. discriminate N.
    + destruct (aqi_from_501 pm25) as (a & _ & -> & B); [lia|].
      intros E. injection E as E. lia.
Qed.

Lemma breakpoints_with_int_parameter_witness :
  (INT_MIN <= 13 <= INT_MAX)%Z /\ pm25toAQI 13 <> Some 51%Z.
Proof.
  assert (H : (INT_MIN <= 13 <= INT_MAX)%Z) by (vm_compute; split; discriminate).
  split; [exact H|]. apply (breakpoints_with_int_parameter 13 H).
Defined.

(** C1 does not hold as stated: called on 12.1 the converter returns 50,
    not 51 (the [int] parameter receives 12). *)
Lemma breakpoint_12_1_is_not_51 :
  to_int (dbl 12.1) = Some 12%Z /\
  pm25toAQI_of_double (dbl 12.1) = Some 50%Z /\
  pm25toAQI_of_double (dbl 12.1) <> Some 51%Z.
Proof.
  split; [ev_eq|]. split; [ev_eq|]. vm_compute. intros H. discriminate H.
Qed.

End ConverterFacts.

(** ** Properties of the device loop *)

Module FirmwareFacts.
Import FP Converter Text Firmware.
Local Open Scope string_scope.
Local Open Scope Z_scope.

(** *** Text *)

Lemma length_app (a b : string) :
  String.length (a ++ b) = (String.length a + String.length b)%nat.
Proof. induction a as [|c a IH]; simpl; [reflexivity | rewrite IH; reflexivity]. Qed.

Lemma append_assoc (a b c : string) : (a ++ b) ++ c = a ++ (b ++ c).
Proof. induction a as [|x a IH]; simpl; [reflexivity | rewrite IH; reflexivity]. Qed.

Lemma substring_all (n : nat) (s : string) :
  (String.length s <= n)%nat -> substring 0 n s = s.
Proof.
  revert n. induction s as [|c s IH]; intros [|n] H; simpl in *; try reflexivity; try lia.
  rewrite IH by lia. reflexivity.
Qed.

Lemma substring_length (n : nat) (s : string) :
  (String.length (substring 0 n s) <= n)%nat.
Proof.
  revert n. induction s as [|c s IH]; intros [|n]; simpl; try lia.
  specialize (IH n). lia.
Qed.

Lemma toCharArray_fits (s : string) (n : nat) :
  (String.length s < n)%nat -> toCharArray s n = s.
Proof. intros H. unfold toCharArray. apply substring_all. lia. Qed.

Lemma toCharArray_length (s : string) (n : nat) :
  (0 < n)%nat -> (String.length (toCharArray s n) < n)%nat.
Proof. intros H. unfold toCharArray. pose proof (substring_length (n - 1) s). lia. Qed.

Lemma append_inv_head (p a b : string) : p ++ a = p ++ b -> a = b.
Proof.
  induction p as [|c p IH]; simpl; intros H; [assumption|].
  injection H as H. apply IH. assumption.
Qed.

Lemma chars_app (a b : string) :
  list_ascii_of_string (a ++ b) = (list_ascii_of_string a ++ list_ascii_of_string b)%list.
Proof. induction a as [|c a IH]; simpl; [reflexivity | rewrite IH; reflexivity]. Qed.

Lemma last_char_app (p : string) (c : ascii) (s : string) :
  last_char (p ++ String c s) = last_char (String c s).
Proof.
  unfold last_char. rewrite chars_app, rev_app_distr.
  simpl list_ascii_of_string. simpl rev.
  destruct (rev (list_ascii_of_string s)) as [|x l]; reflexivity.
Qed.

(** Two metric names with different last characters never name the same
    topic. *)
Lemma not_topic_of (metric other p : string) :
  last_char metric <> last_char other -> metric <> "" -> other <> "" ->
  ~ is_topic_of metric (p ++ other).
Proof.
  intros Hl Hm Ho [q E]. apply Hl.
  destruct metric as [|c m]; [congruence|]. destruct other as [|c' o]; [congruence|].
  rewrite <- (last_char_app q c m), <- (last_char_app p c' o). rewrite E. reflexivity.
Qed.

Lemma hex_digits_lower (d : Hexadecimal.uint) :
  forallb is_lower_hex
    (list_ascii_of_string (HexadecimalString.NilEmpty.string_of_uint d)) = true.
Proof. induction d; simpl; try assumption; reflexivity. Qed.

Lemma hex_lower (n : N) :
  forallb is_lower_hex (list_ascii_of_string (hex n)) = true.
Proof.
  unfold hex, HexadecimalString.NilZero.string_of_uint.
  destruct (N.to_hex_uint n); try apply hex_digits_lower. reflexivity.
Qed.

Lemma substring_lower (n : nat) (s : string) :
  forallb is_lower_hex (list_ascii_of_string s) = true ->
  forallb is_lower_hex (list_ascii_of_string (substring 0 n s)) = true.
Proof.
  revert n. induction s as [|c s IH]; intros [|n] H; simpl in *; try reflexivity.
  apply andb_true_iff in H. destruct H as [H1 H2].
  rewrite H1, (IH n H2). reflexivity.
Qed.

Lemma setup_deviceid_lower (chipId : N) :
  forallb is_lower_hex (list_ascii_of_string (setup_deviceid chipId)) = true.
Proof. unfold setup_deviceid, toCharArray. apply substring_lower, hex_lower. Qed.

Lemma setup_deviceid_length (chipId : N) :
  (String.length (setup_deviceid chipId) <= 31)%nat.
Proof. unfold setup_deviceid. pose proof (toCharArray_length (hex (chipId mod 2 ^ 32)) 32). lia. Qed.

(** *** Running the monadic code *)

Lemma preserves_ret {A : Type} (I : World -> Prop) (a : A) : preserves I (ret a).
Proof. intros w H. exact H. Qed.

Lemma preserves_bind {A B : Type} (I : World -> Prop) (m : M A) (k : A -> M B) :
  preserves I m -> (forall a, preserves I (k a)) -> preserves I (bind m k).
Proof.
  intros Hm Hk w H. unfold bind. specialize (Hm w H).
  destruct (m w) as [a w1|w1|w1]; simpl in *; [apply Hk|..]; assumption.
Qed.

Lemma preserves_when (I : World -> Prop) (b : bool) (m : M unit) :
  preserves I m -> preserves I (when b m).
Proof. intros H. destruct b; [exact H | apply preserves_ret]. Qed.

Lemma appends_ret {A : Type} (a : A) : appends (ret a).
Proof. intros w. exists []. simpl. rewrite app_nil_r. reflexivity. Qed.

Lemma appends_bind {A B : Type} (m : M A) (k : A -> M B) :
  appends m -> (forall a, appends (k a)) -> appends (bind m k).
Proof.
  intros Hm Hk w. unfold bind. destruct (Hm w) as [e1 E1].
  destruct (m w) as [a w1|w1|w1]; simpl in *; try (exists e1; assumption).
  destruct (Hk a w1) as [e2 E2]. exists (e1 ++ e2)%list.
  rewrite E2, E1, app_assoc. reflexivity.
Qed.

Lemma appends_when (b : bool) (m : M unit) : appends m -> appends (when b m).
Proof. intros H. destruct b; [exact H | apply appends_ret]. Qed.

Lemma appends_get {A : Type} (f : Device -> A) : appends (get f).
Proof. intros w. exists []. simpl. rewrite app_nil_r. reflexivity. Qed.

Lemma appends_put (f : Device -> Device) : appends (put f).
Proof. intros w. exists []. simpl. rewrite app_nil_r. reflexivity. Qed.

Lemma appends_emit (e : Event) : appends (emit e).
Proof. intros w. exists [e]. reflexivity. Qed.

Lemma appends_ask {A : Type} (f : Env -> Stream A) (set : Stream A -> Env -> Env) :
  appends (ask f set).
Proof. intros w. exists []. simpl. rewrite app_nil_r. reflexivity. Qed.

Lemma appends_defined {A : Type} (o : option A) : appends (defined o).
Proof. intros w. exists []. destruct o; simpl; rewrite app_nil_r; reflexivity. Qed.

(** The structure of a computation decides that it only appends. *)
Ltac appends_tac :=
  repeat lazymatch goal with
    | |- appends (bind _ _) => apply appends_bind; [|intros]
    | |- appends (ret _) => apply appends_ret
    | |- appends (get _) => apply appends_get
    | |- appends (put _) => apply appends_put
    | |- appends (emit _) => apply appends_emit
    | |- appends (ask _ _) => apply appends_ask
    | |- appends (defined _) => apply appends_defined
    | |- appends (when _ _) => apply appends_when
    end.

Section Runs.

Variable sof : float -> string.
Variable cfg : Config.

Lemma sample_appends : appends (sample cfg).
Proof.
  unfold sample, millis, getCO2_Raw, getPM2_Raw, periodicFetchData, lcd.
  cbv zeta. appends_tac.
Qed.

Lemma publish_appends : appends (publish sof cfg).
Proof.
  unfold publish, publish_metric, millis, client_publish. appends_tac.
Qed.

Lemma elapsed_appends last interval : appends (elapsed last interval).
Proof. unfold elapsed, millis. appends_tac. Qed.

(** What follows the connection supervisor in [loop] only appends to the
    events of the supervisor. *)
Lemma loop_after_connection fuel w w1 :
  connection cfg fuel w = Ok tt w1 ->
  exists evs, out (world_of (loop sof cfg fuel w)) = (out w1 ++ evs)%list.
Proof.
  intros E. unfold loop. unfold bind at 1. rewrite E.
  revert w1 E. intros w1 _. revert w1.
  change (appends
    (due <- elapsed msLAST_SAMPLE msSAMPLE_INTERVAL ;;
     when due (sample cfg) ;;
     (if connectWIFI cfg && sendMQTT cfg
      then due0 <- elapsed msLAST_METRIC msPUBLISH_INTERVAL ;;
           when due0 (publish sof cfg)
      else ret tt))).
  apply appends_bind; [apply elapsed_appends | intros due].
  apply appends_bind; [apply appends_when, sample_appends | intros _].
  destruct (connectWIFI cfg && sendMQTT cfg); [|apply appends_ret].
  apply appends_bind; [apply elapsed_appends | intros due'].
  apply appends_when, publish_appends.
Qed.

(** [publish] always completes; it stamps the time, appends its
    publications and answers are consumed one for each of them. *)
Lemma publish_run w :
  exists w',
    publish sof cfg w = Ok tt w' /\
    out w' = (out w ++ publications sof cfg (dev w))%list /\
    msLAST_METRIC (dev w') = u32 (shd (clock (env w))) /\
    (forall n, pub (env w') n =
               pub (env w) (List.length (publications sof cfg (dev w)) + n)%nat) /\
    (deviceid (dev w') = deviceid (dev w) /\
     topic_prefix (dev w') = topic_prefix (dev w) /\
     msLAST_SAMPLE (dev w') = msLAST_SAMPLE (dev w)) /\
    (ln1 (dev w') = ln1 (dev w) /\ ln2 (dev w') = ln2 (dev w) /\
     ln3 (dev w') = ln3 (dev w) /\ ln4 (dev w') = ln4 (dev w) /\
     ln5 (dev w') = ln5 (dev w)) /\
    (CO2 (dev w') = CO2 (dev w) /\ PM2 (dev w') = PM2 (dev w) /\
     Firmware.AQI (dev w') = Firmware.AQI (dev w) /\
     Humidity (dev w') = Humidity (dev w) /\
     Temperature (dev w') = Temperature (dev w)).
Proof.
  unfold publications, publication.
  destruct cfg as [c p s wf mq]. split_world w.
  destruct c, p, s; mrun; eexists; (split; [reflexivity|]); mrun;
    rewrite <- ?app_assoc, ?app_nil_r; cbv [stl shd]; simpl;
    repeat split; reflexivity.
Qed.

(** [sample], when it completes: the time stamp, the topic prefix, one
    display refresh with the five lines, and for each enabled sensor one
    answer taken and shown. *)
Lemma sample_run w w' :
  sample cfg w = Ok tt w' ->
  (msLAST_SAMPLE (dev w') = u32 (shd (clock (env w))) /\
   msLAST_METRIC (dev w') = msLAST_METRIC (dev w) /\
   deviceid (dev w') = deviceid (dev w) /\
   topic_prefix (dev w') = mqtt_topic_root ++ "/" ++ deviceid (dev w) ++ "/") /\
  out w' = (out w ++ [Lcd (ln1 (dev w')) (ln2 (dev w')) (ln3 (dev w'))
                         (ln4 (dev w')) (ln5 (dev w'))])%list /\
  (if hasCO2 cfg
   then CO2 (dev w') = returned (shd (co2_raw (env w))) /\
        ln5 (dev w') = "CO2: " ++ dec (CO2 (dev w')) /\
        co2_raw (env w') = stl (co2_raw (env w))
   else CO2 (dev w') = CO2 (dev w) /\ ln5 (dev w') = "" /\
        co2_raw (env w') = co2_raw (env w)) /\
  (if hasPM cfg
   then PM2 (dev w') = returned (shd (pm2_raw (env w))) /\
        pm25toAQI (PM2 (dev w')) = Some (Firmware.AQI (dev w')) /\
        ln3 (dev w') = "AQI:  " ++ dec (Firmware.AQI (dev w')) /\
        ln4 (dev w') = "PM2: " ++ dec (PM2 (dev w')) /\
        pm2_raw (env w') = stl (pm2_raw (env w))
   else PM2 (dev w') = PM2 (dev w) /\ Firmware.AQI (dev w') = Firmware.AQI (dev w) /\
        ln3 (dev w') = "" /\ ln4 (dev w') = "" /\
        pm2_raw (env w') = pm2_raw (env w)) /\
  (if hasSHT cfg
   then Humidity (dev w') = rh (returned (shd (tmp_rh (env w)))) /\
        Temperature (dev w') = fahrenheit (t (returned (shd (tmp_rh (env w))))) /\
        (exists ti, to_int (Temperature (dev w')) = Some ti /\
                    ln1 (dev w') = "TMP: " ++ dec ti ++ degF) /\
        ln2 (dev w') = "HMD: " ++ dec (Humidity (dev w')) ++ "%" /\
        tmp_rh (env w') = stl (tmp_rh (env w))
   else Humidity (dev w') = Humidity (dev w) /\
        Temperature (dev w') = Temperature (dev w) /\
        ln1 (dev w') = "" /\ ln2 (dev w') = "" /\
        tmp_rh (env w') = tmp_rh (env w)).
Proof.
  destruct cfg as [c p s wf mq]. split_world w.
  destruct c, p, s; mrun; intros H.
  all: repeat match type of H with
       | context [pm25toAQI ?v] => destruct (pm25toAQI v) eqn:?
       | context [to_int ?v] => destruct (to_int v) eqn:?
       end; try discriminate H.
  all: injection H as <-; mrun; repeat split; eauto.
Qed.

Lemma sample_total w :
  (hasPM cfg = true -> in_int (returned (shd (pm2_raw (env w)))) = true) ->
  (hasSHT cfg = true ->
   to_int (fahrenheit (t (returned (shd (tmp_rh (env w)))))) <> None) ->
  exists w', sample cfg w = Ok tt w'.
Proof.
  destruct cfg as [c p s wf mq]. split_world w. mrun. intros Hp Hs.
  assert (P : p = true -> exists a, pm25toAQI (returned (shd pm2_raw0)) = Some a).
  { intros E. apply ConverterFacts.pm25toAQI_total. apply Hp. assumption. }
  assert (S : s = true -> exists ti,
             to_int (fahrenheit (t (returned (shd tmp_rh0)))) = Some ti).
  { intros E. specialize (Hs E).
    destruct (to_int (fahrenheit (t (returned (shd tmp_rh0))))) as [ti|]; [eauto | congruence]. }
  destruct c, p, s; mrun;
    try (destruct (P eq_refl) as [a ->]); try (destruct (S eq_refl) as [ti ->]);
    eexists; reflexivity.
Qed.

Lemma reconnect_unfold fuel :
  reconnect fuel =
    (c <- client_connected ;;
     if c then ret tt
     else match fuel with
          | O => out_of_fuel
          | S fuel' =>
              r <- random 65535 ;;
              ok <- client_connect (client_id r) ;;
              (if ok then ret tt else delay 5000) ;;
              reconnect fuel'
          end).
Proof. destruct fuel; reflexivity. Qed.

(** The connection supervisor touches no global and only connects and
    waits, also when it never gets through. *)
Lemma reconnect_any fuel : forall w,
  dev (world_of (reconnect fuel w)) = dev w /\
  exists evs, out (world_of (reconnect fuel w)) = (out w ++ evs)%list /\
              Forall connecting evs.
Proof.
  induction fuel as [|fuel IH]; intros w; rewrite reconnect_unfold;
    split_world w; mrun.
  - destruct (shd link0); simpl; (split; [reflexivity|]);
      exists []; rewrite app_nil_r; auto.
  - destruct (shd link0).
    + simpl. split; [reflexivity|]. exists []. rewrite app_nil_r. auto.
    + destruct (shd conn0);
        match goal with
        | |- context [reconnect fuel ?w1] =>
            destruct (IH w1) as (Hd & evs & Ho & Hc)
        end; rewrite Hd, Ho; mrun; (split; [reflexivity|]);
        rewrite <- !app_assoc; simpl;
        eexists; (split; [reflexivity|]); repeat constructor; assumption.
Qed.

Lemma connection_any fuel w :
  dev (world_of (connection cfg fuel w)) = dev w /\
  exists evs, out (world_of (connection cfg fuel w)) = (out w ++ evs)%list /\
              Forall connecting evs.
Proof.
  unfold connection, when.
  destruct (connectWIFI cfg && sendMQTT cfg).
  - split_world w. mrun. destruct (shd link0).
    + simpl. split; [reflexivity|]. exists [ClientLoop]. split; [reflexivity|].
      repeat constructor.
    + match goal with
      | |- context [reconnect fuel ?w1] =>
          destruct (reconnect_any fuel w1) as (Hd & evs & Ho & Hc);
          destruct (reconnect fuel w1) as [[] w2|w2|w2]
      end; destruct w2 as [d2 e2 o2]; simpl in *.
      * split; [assumption|]. rewrite Ho. exists (evs ++ [ClientLoop])%list.
        rewrite app_assoc. split; [reflexivity|].
        apply Forall_app. split; [assumption | repeat constructor].
      * split; [assumption|]. exists evs. split; assumption.
      * split; [assumption|]. exists evs. split; assumption.
  - simpl. split; [reflexivity|]. exists []. rewrite app_nil_r. auto.
Qed.

Lemma elapsed_run last interval w :
  exists b w', elapsed last interval w = Ok b w' /\
               dev w' = dev w /\ out w' = out w.
Proof. split_world w. mrun. eexists. eexists. split; [reflexivity|]. split; reflexivity. Qed.

(** *** The trace of a disabled sensor *)

Lemma connecting_quiet evs :
  Forall connecting evs ->
  Forall quiet_sht evs /\ Forall quiet_pm evs /\ Forall quiet_co2 evs.
Proof.
  intros H. repeat split; eapply Forall_impl; try exact H;
    intros [] Hc; simpl in *; auto; contradiction.
Qed.

Lemma silent_start chipId e : silent cfg (start chipId e).
Proof.
  unfold silent, start. simpl. split; [apply setup_deviceid_length|].
  split; [left; reflexivity|]. repeat split; auto.
Qed.

Lemma silent_connecting w w' evs :
  silent cfg w -> dev w' = dev w -> out w' = (out w ++ evs)%list ->
  Forall connecting evs -> silent cfg w'.
Proof.
  intros (I1 & I2 & Is & Ip & Ic) Hd Ho Hc.
  destruct (connecting_quiet evs Hc) as (Qs & Qp & Qc).
  unfold silent. rewrite Hd, Ho. split; [assumption|]. split; [assumption|].
  split; [|split].
  - intros E. destruct (Is E) as (? & ? & ?). repeat split; auto.
    apply Forall_app; auto.
  - intros E. destruct (Ip E) as (? & ? & ?). repeat split; auto.
    apply Forall_app; auto.
  - intros E. destruct (Ic E) as (? & ?). repeat split; auto.
    apply Forall_app; auto.
Qed.

Lemma silent_connection fuel : preserves (silent cfg) (connection cfg fuel).
Proof.
  intros w I. destruct (connection_any fuel w) as (Hd & evs & Ho & Hc).
  eapply silent_connecting; eassumption.
Qed.

Lemma silent_elapsed last interval : preserves (silent cfg) (elapsed last interval).
Proof.
  intros w I. destruct (elapsed_run last interval w) as (b & w1 & E & Hd & Ho).
  rewrite E. simpl. apply (silent_connecting w w1 []); auto.
  rewrite app_nil_r. assumption.
Qed.

(** Also a sampling pass that stops at an undefined conversion has only
    touched the lines of enabled sensors. *)
Lemma silent_sample : preserves (silent cfg) (sample cfg).
Proof.
  intros w (I1 & I2 & Is & Ip & Ic). unfold silent in *.
  destruct cfg as [c p s wf mq]. split_world w.
  destruct c, p, s; mrun;
    repeat match goal with
      | |- context [pm25toAQI ?v] => destruct (pm25toAQI v)
      | |- context [to_int ?v] => destruct (to_int v)
      end;
    (split; [exact I1|]); (split; [right; reflexivity|]);
    repeat split; try congruence;
    try (apply Forall_app; split; [|repeat constructor; reflexivity]);
    first [ apply (Is eq_refl) | apply (Ip eq_refl) | apply (Ic eq_refl) ].
Qed.

(** With a prefix that [sample] built (or none yet), a topic is not cut by
    its buffer of 64 bytes. *)
Lemma topic_fits d metric :
  (String.length (deviceid d) <= 31)%nat ->
  topic_prefix d = "" \/
  topic_prefix d = mqtt_topic_root ++ "/" ++ deviceid d ++ "/" ->
  (String.length metric <= 11)%nat ->
  toCharArray (topic_prefix d ++ metric) 64 = topic_prefix d ++ metric.
Proof.
  intros Hid Hp Hm. apply toCharArray_fits. rewrite length_app.
  destruct Hp as [-> | ->]; simpl; [lia|].
  rewrite !length_app. simpl. lia.
Qed.

Lemma publications_quiet d :
  (String.length (deviceid d) <= 31)%nat ->
  topic_prefix d = "" \/
  topic_prefix d = mqtt_topic_root ++ "/" ++ deviceid d ++ "/" ->
  (hasSHT cfg = false -> Forall quiet_sht (publications sof cfg d)) /\
  (hasPM cfg = false -> Forall quiet_pm (publications sof cfg d)) /\
  (hasCO2 cfg = false -> Forall quiet_co2 (publications sof cfg d)).
Proof.
  intros Hid Hp. unfold publications, publication.
  rewrite !(topic_fits d _ Hid Hp) by (simpl; lia).
  repeat split; intros ->; destruct (hasCO2 cfg), (hasPM cfg), (hasSHT cfg);
    simpl; repeat constructor;
    apply not_topic_of; simpl; discriminate.
Qed.

Lemma silent_publish : preserves (silent cfg) (publish sof cfg).
Proof.
  intros w (I1 & I2 & Is & Ip & Ic).
  destruct (publish_run w) as (w1 & E & Ho & _ & _ & (Hid & Htp & _) & L & _).
  rewrite E. simpl.
  destruct L as (L1 & L2 & L3 & L4 & L5).
  destruct (publications_quiet (dev w) I1 I2) as (Qs & Qp & Qc).
  unfold silent. rewrite Hid, Htp, Ho, L1, L2, L3, L4, L5.
  split; [assumption|]. split; [assumption|]. split; [|split].
  - intros E'. destruct (Is E') as (? & ? & ?). repeat split; auto.
    apply Forall_app; auto.
  - intros E'. destruct (Ip E') as (? & ? & ?). repeat split; auto.
    apply Forall_app; auto.
  - intros E'. destruct (Ic E') as (? & ?). repeat split; auto.
    apply Forall_app; auto.
Qed.

Lemma silent_loop fuel : preserves (silent cfg) (loop sof cfg fuel).
Proof.
  unfold loop.
  apply preserves_bind; [apply silent_connection | intros _].
  apply preserves_bind; [apply silent_elapsed | intros due].
  apply preserves_bind; [apply preserves_when, silent_sample | intros _].
  destruct (connectWIFI cfg && sendMQTT cfg); [|apply preserves_ret].
  apply preserves_bind; [apply silent_elapsed | intros due'].
  apply preserves_when, silent_publish.
Qed.

Lemma silent_run fuel n : preserves (silent cfg) (run sof cfg fuel n).
Proof.
  induction n as [|n IH]; simpl.
  - apply preserves_ret.
  - apply preserves_bind; [apply silent_loop | intros _; exact IH].
Qed.

(** *** The claims on the loop *)

(** C6.  In every execution of [loop()] from the state [setup()] leaves,
    whatever the environment answers and wherever the execution stands
    (after [n] iterations, or stopped in the [n]-th one), a disabled sensor
    stays silent: with the temperature and humidity sensor disabled the
    lines 1 and 2 are the empty string in the globals and in every display
    refresh, and no topic of [humidity] or [temperature] is published; the
    same for the PM sensor (lines 3 and 4, topics [aqi] and [pm25]) and the
    CO2 sensor (line 5, topic [co2]). *)
Theorem disabled_sensors_stay_silent chipId e fuel n :
  let w' := world_of (run sof cfg fuel n (start chipId e)) in
  (hasSHT cfg = false ->
   ln1 (dev w') = "" /\ ln2 (dev w') = "" /\ Forall quiet_sht (out w')) /\
  (hasPM cfg = false ->
   ln3 (dev w') = "" /\ ln4 (dev w') = "" /\ Forall quiet_pm (out w')) /\
  (hasCO2 cfg = false -> ln5 (dev w') = "" /\ Forall quiet_co2 (out w')).
Proof.
  intros w'. destruct (silent_run fuel n (start chipId e) (silent_start chipId e))
    as (_ & _ & H).
  exact H.
Qed.

(** C4.  A publishing pass sets [msLAST_METRIC] to the time it reads,
    whatever [client.publish] answers: with any other supply of answers
    the globals and the events are the same.  Every enabled metric is
    published once, in order, and one answer is consumed for each. *)
Theorem publish_stamps_and_sends_all w (answers : Stream bool) :
  exists w1 w2,
    publish sof cfg w = Ok tt w1 /\
    publish sof cfg (mkWorld (dev w) (set_pub answers (env w)) (out w)) =
      Ok tt w2 /\
    msLAST_METRIC (dev w1) = u32 (shd (clock (env w))) /\
    out w1 = (out w ++ publications sof cfg (dev w))%list /\
    dev w2 = dev w1 /\ out w2 = out w1 /\
    (forall n, pub (env w1) n =
               pub (env w) (List.length (publications sof cfg (dev w)) + n)%nat).
Proof.
  unfold publications, publication.
  destruct cfg as [c p s wf mq]. split_world w.
  destruct c, p, s; mrun; eexists; eexists;
    (split; [reflexivity|]); (split; [reflexivity|]); mrun;
    rewrite <- ?app_assoc, ?app_nil_r; cbv [stl shd]; simpl;
    repeat split; reflexivity.
Qed.

(** C10.  With CO2 enabled and 412 the value [sample] took from the CO2
    driver, the following publishing pass publishes the topic
    [airgradient/<deviceid>/co2] with the payload [412] and the retained
    flag, first and once; [<deviceid>] consists of lower-case hexadecimal
    digits. *)
Theorem co2_412_published chipId w w1 :
  hasCO2 cfg = true ->
  deviceid (dev w) = setup_deviceid chipId ->
  returned (shd (co2_raw (env w))) = 412 ->
  sample cfg w = Ok tt w1 ->
  exists w2 rest,
    publish sof cfg w1 = Ok tt w2 /\
    out w2 =
      (out w1 ++
       Publish ("airgradient/" ++ setup_deviceid chipId ++ "/co2") "412" true
       :: rest)%list /\
    (forall topic payload retained,
        In (Publish topic payload retained) rest ->
        topic <> "airgradient/" ++ setup_deviceid chipId ++ "/co2") /\
    forallb is_lower_hex (list_ascii_of_string (setup_deviceid chipId)) = true.
Proof.
  intros Hc Hid Hv Hs. apply sample_run in Hs.
  destruct Hs as ((_ & _ & Hid1 & Htp) & _ & Hco2 & _).
  rewrite Hc in Hco2. destruct Hco2 as (Ev & _ & _).
  rewrite Hv in Ev. rewrite Hid in Hid1, Htp.
  destruct (publish_run w1) as (w2 & E & Ho & _).
  assert (Hlen : (String.length (deviceid (dev w1)) <= 31)%nat).
  { rewrite Hid1. apply setup_deviceid_length. }
  assert (Hpre : topic_prefix (dev w1) = "" \/
                 topic_prefix (dev w1) =
                   mqtt_topic_root ++ "/" ++ deviceid (dev w1) ++ "/").
  { right. rewrite Hid1. exact Htp. }
  exists w2. unfold publications, publication in Ho.
  rewrite !(topic_fits (dev w1) _ Hlen Hpre) in Ho by (simpl; lia).
  rewrite Hc, Ev, Htp in Ho.
  eexists. split; [exact E|]. split; [|split].
  - rewrite Ho. unfold mqtt_topic_root. simpl.
    rewrite append_assoc. reflexivity.
  - intros topic payload retained Hin.
    assert (Hd : forall m, m <> "co2" ->
              (mqtt_topic_root ++ "/" ++ setup_deviceid chipId ++ "/") ++ m <>
              "airgradient/" ++ setup_deviceid chipId ++ "/co2").
    { intros m Hm Heq. apply Hm.
      apply (append_inv_head ("airgradient/" ++ setup_deviceid chipId ++ "/")).
      etransitivity; [exact Heq|]. simpl. rewrite append_assoc. reflexivity. }
    destruct (hasPM cfg), (hasSHT cfg); simpl in Hin;
      repeat (destruct Hin as [Hin|Hin];
              [injection Hin as <- _ _; apply Hd; discriminate|]);
      contradiction.
  - apply setup_deviceid_lower.
Qed.

(** C5.  With WiFi and MQTT enabled, the transport not connected and
    [client.connect] failing three times before it succeeds, the
    supervisor makes four attempts, each with an identifier built from a
    fresh [random(0xffff)], waits 5000 ms after each of the three failures
    and then lets the loop go on ([client.loop()]).  Nothing is published
    meanwhile and no global changes, [msLAST_METRIC] included; whatever the
    rest of this [loop()] iteration does comes after these events. *)
Theorem three_failures_then_connected fuel w :
  connectWIFI cfg && sendMQTT cfg = true ->
  begins [false; false; false; false; false; true] (link (env w)) ->
  begins [false; false; false; true] (conn (env w)) ->
  exists w',
    connection cfg (4 + fuel) w = Ok tt w' /\
    dev w' = dev w /\
    out w' =
      (out w ++
       [Connect (client_id (rand (env w) 0%nat mod 65535)%N); Delay 5000;
        Connect (client_id (rand (env w) 1%nat mod 65535)%N); Delay 5000;
        Connect (client_id (rand (env w) 2%nat mod 65535)%N); Delay 5000;
        Connect (client_id (rand (env w) 3%nat mod 65535)%N);
        ClientLoop])%list /\
    exists evs, out (world_of (loop sof cfg (4 + fuel) w)) = (out w' ++ evs)%list.
Proof.
  intros Hcfg Hl Hc.
  pose proof (Hl 0%nat _ eq_refl) as L0. pose proof (Hl 1%nat _ eq_refl) as L1.
  pose proof (Hl 2%nat _ eq_refl) as L2. pose proof (Hl 3%nat _ eq_refl) as L3.
  pose proof (Hl 4%nat _ eq_refl) as L4. pose proof (Hl 5%nat _ eq_refl) as L5.
  pose proof (Hc 0%nat _ eq_refl) as C0. pose proof (Hc 1%nat _ eq_refl) as C1.
  pose proof (Hc 2%nat _ eq_refl) as C2. pose proof (Hc 3%nat _ eq_refl) as C3.
  clear Hl Hc.
  assert (E : exists w',
    connection cfg (4 + fuel) w = Ok tt w' /\
    dev w' = dev w /\
    out w' =
      (out w ++
       [Connect (client_id (rand (env w) 0%nat mod 65535)%N); Delay 5000;
        Connect (client_id (rand (env w) 1%nat mod 65535)%N); Delay 5000;
        Connect (client_id (rand (env w) 2%nat mod 65535)%N); Delay 5000;
        Connect (client_id (rand (env w) 3%nat mod 65535)%N);
        ClientLoop])%list).
  { unfold connection. rewrite Hcfg. split_world w.
    simpl plus. mrun. cbv [shd stl]. rewrite L0.
    do 4 (rewrite reconnect_unfold; mrun; cbv [shd stl];
          rewrite ?L1, ?L2, ?L3, ?L4, ?C0, ?C1, ?C2, ?C3).
    rewrite reconnect_unfold. mrun. cbv [shd stl]. rewrite L5.
    eexists. split; [reflexivity|]. mrun. split; [reflexivity|].
    rewrite <- !app_assoc. reflexivity. }
  destruct E as (w' & E & Hd & Ho). exists w'.
  repeat split; try assumption.
  apply loop_after_connection. exact E.
Qed.

(** C3 as the code has it.  The firmware does not tell a failed read from
    a good one: whatever the driver of an enabled sensor returns is stored
    and shown on the sensor's display line, and every publishing pass that
    finds the sensor globals and [topic_prefix] as this sampling pass left
    them publishes it (a later sampling pass stores what the driver returns
    then).  Each enabled sensor is read once in a sampling pass, and the
    pass completes as soon as the two conversions to [int] are defined: the
    PM value is an [int], and the temperature in Fahrenheit fits one. *)
Theorem sample_takes_what_the_driver_returns w :
  (hasPM cfg = true -> in_int (returned (shd (pm2_raw (env w)))) = true) ->
  (hasSHT cfg = true ->
   to_int (fahrenheit (t (returned (shd (tmp_rh (env w)))))) <> None) ->
  exists w1,
    sample cfg w = Ok tt w1 /\
    out w1 = (out w ++ [Lcd (ln1 (dev w1)) (ln2 (dev w1)) (ln3 (dev w1))
                           (ln4 (dev w1)) (ln5 (dev w1))])%list /\
    (forall w2,
       CO2 (dev w2) = CO2 (dev w1) -> PM2 (dev w2) = PM2 (dev w1) ->
       Firmware.AQI (dev w2) = Firmware.AQI (dev w1) ->
       Humidity (dev w2) = Humidity (dev w1) ->
       Temperature (dev w2) = Temperature (dev w1) ->
       topic_prefix (dev w2) = topic_prefix (dev w1) ->
       exists w3, publish sof cfg w2 = Ok tt w3 /\
                  out w3 = (out w2 ++ publications sof cfg (dev w1))%list) /\
    (hasCO2 cfg = true ->
     let v := returned (shd (co2_raw (env w))) in
     CO2 (dev w1) = v /\ ln5 (dev w1) = "CO2: " ++ dec v /\
     co2_raw (env w1) = stl (co2_raw (env w)) /\
     In (publication (dev w1) (dec v) "co2") (publications sof cfg (dev w1))) /\
    (hasPM cfg = true ->
     let v := returned (shd (pm2_raw (env w))) in
     PM2 (dev w1) = v /\ ln4 (dev w1) = "PM2: " ++ dec v /\
     pm25toAQI v = Some (Firmware.AQI (dev w1)) /\
     ln3 (dev w1) = "AQI:  " ++ dec (Firmware.AQI (dev w1)) /\
     pm2_raw (env w1) = stl (pm2_raw (env w)) /\
     In (publication (dev w1) (dec v) "pm25") (publications sof cfg (dev w1)) /\
     In (publication (dev w1) (dec (Firmware.AQI (dev w1))) "aqi")
        (publications sof cfg (dev w1))) /\
    (hasSHT cfg = true ->
     let r := returned (shd (tmp_rh (env w))) in
     Humidity (dev w1) = rh r /\ Temperature (dev w1) = fahrenheit (t r) /\
     ln2 (dev w1) = "HMD: " ++ dec (rh r) ++ "%" /\
     (exists ti, to_int (fahrenheit (t r)) = Some ti /\
                 ln1 (dev w1) = "TMP: " ++ dec ti ++ degF) /\
     tmp_rh (env w1) = stl (tmp_rh (env w)) /\
     In (publication (dev w1) (dec (rh r)) "humidity")
        (publications sof cfg (dev w1)) /\
     In (publication (dev w1) (sof (fahrenheit (t r))) "temperature")
        (publications sof cfg (dev w1))).
Proof.
  intros Hp Hs. destruct (sample_total w Hp Hs) as [w1 E]. exists w1.
  split; [exact E|]. apply sample_run in E.
  destruct E as (_ & Ho & Hc & Hpm & Hsht). split; [exact Ho|].
  split.
  { intros w2 G1 G2 G3 G4 G5 G6. destruct (publish_run w2) as (w3 & E3 & Ho3 & _).
    exists w3. split; [exact E3|]. rewrite Ho3.
    unfold publications, publication. rewrite G1, G2, G3, G4, G5, G6. reflexivity. }
  unfold publications. split; [|split].
  - intros C. rewrite C in *. destruct Hc as (E1 & E2 & E3). cbv zeta.
    rewrite <- E1. repeat split; auto. apply in_or_app. left. left. reflexivity.
  - intros C. rewrite C in *. destruct Hpm as (E1 & E2 & E3 & E4 & E5). cbv zeta.
    rewrite <- E1. repeat split; auto.
    + apply in_or_app. right. apply in_or_app. left. right. left. reflexivity.
    + apply in_or_app. right. apply in_or_app. left. left. reflexivity.
  - intros C. rewrite C in *. destruct Hsht as (E1 & E2 & E3 & E4 & E5). cbv zeta.
    destruct E3 as (ti & T1 & T2). rewrite E2 in T1. rewrite E1 in E4.
    repeat split; auto.
    + exists ti. split; assumption.
    + rewrite <- E1. apply in_or_app. right. apply in_or_app. right. left. reflexivity.
    + rewrite <- E2. apply in_or_app. right. apply in_or_app. right. right. left.
      reflexivity.
Qed.

End Runs.

Lemma begins_script {A : Type} (l : list A) (d : A) : begins l (script l d).
Proof. intros i a H. unfold script. apply nth_error_nth. assumption. Qed.

(** C3 does not hold as stated: the CO2 driver fails on the first read and
    hands back -1; the sampling pass shows ["CO2: -1"] on line 5 and the
    publishing pass publishes ["-1"] on the CO2 topic.  The reading is not
    absent. *)
Lemma failed_co2_read_is_shown_and_published :
  failed (shd (co2_raw failing_co2)) = true /\
  returned (shd (co2_raw failing_co2)) = -1 /\
  exists w1 w2,
    sample co2_only (start 11259375 failing_co2) = Ok tt w1 /\
    ln5 (dev w1) = "CO2: -1" /\
    out w1 = [Lcd "" "" "" "" "CO2: -1"] /\
    publish (fun _ => "") co2_only w1 = Ok tt w2 /\
    out w2 = [Lcd "" "" "" "" "CO2: -1";
              Publish "airgradient/abcdef/co2" "-1" true].
Proof.
  split; [reflexivity|]. split; [reflexivity|].
  eexists. eexists. split; [vm_compute; reflexivity|].
  split; [reflexivity|]. split; [reflexivity|].
  split; [vm_compute; reflexivity|]. reflexivity.
Qed.

Lemma sample_takes_what_the_driver_returns_witness :
  let cfg := mkConfig true true true true true in
  let e := set_pm2_raw (script [Bad 0] (Good 8))
             (set_tmp_rh (script [Bad (mkTMP_RH (Fin 0) 0)]
                            (Good (mkTMP_RH (Fin 21.5) 40))) failing_co2) in
  let w := start 11259375 e in
  (hasPM cfg = true -> in_int (returned (shd (pm2_raw (env w)))) = true) /\
  (hasSHT cfg = true ->
   to_int (fahrenheit (t (returned (shd (tmp_rh (env w)))))) <> None) /\
  exists w1,
    sample cfg w = Ok tt w1 /\
    ln5 (dev w1) = "CO2: -1" /\ ln4 (dev w1) = "PM2: 0" /\
    ln2 (dev w1) = "HMD: 0%" /\
    exists w3, publish (fun _ => "") cfg w1 = Ok tt w3 /\
               out w3 = (out w1 ++ publications (fun _ => "") cfg (dev w1))%list.
Proof.
  intros cfg e w.
  assert (H1 : hasPM cfg = true -> in_int (returned (shd (pm2_raw (env w)))) = true)
    by (intros _; vm_compute; reflexivity).
  assert (H2 : hasSHT cfg = true ->
               to_int (fahrenheit (t (returned (shd (tmp_rh (env w)))))) <> None)
    by (intros _; vm_compute; discriminate).
  split; [exact H1|]. split; [exact H2|].
  destruct (sample_takes_what_the_driver_returns (fun _ => "") cfg w H1 H2)
    as (w1 & E & _ & Hpub & Hc & Hp & Hs).
  exists w1. split; [exact E|].
  destruct (Hc eq_refl) as (_ & L5 & _). destruct (Hp eq_refl) as (_ & L4 & _).
  destruct (Hs eq_refl) as (_ & _ & L2 & _).
  split; [exact L5|]. split; [exact L4|]. split; [exact L2|].
  exact (Hpub w1 eq_refl eq_refl eq_refl eq_refl eq_refl eq_refl).
Defined.

Lemma disabled_sensors_stay_silent_witness :
  let w' := world_of (run (fun _ => "") co2_only 1 2 (start 11259375 failing_co2)) in
  hasSHT co2_only = false /\ hasPM co2_only = false /\
  (ln1 (dev w') = "" /\ ln2 (dev w') = "" /\ Forall quiet_sht (out w')) /\
  (ln3 (dev w') = "" /\ ln4 (dev w') = "" /\ Forall quiet_pm (out w')).
Proof.
  intros w'.
  assert (H1 : hasSHT co2_only = false) by reflexivity.
  assert (H2 : hasPM co2_only = false) by reflexivity.
  split; [exact H1|]. split; [exact H2|].
  destruct (disabled_sensors_stay_silent (fun _ => "") co2_only 11259375
              failing_co2 1 2) as (Hs & Hp & _).
  split; [exact (Hs H1) | exact (Hp H2)].
Defined.

Lemma co2_412_published_witness :
  let w := start 11259375 (set_co2_raw (script [] (Good 412)) failing_co2) in
  hasCO2 co2_only = true /\
  deviceid (dev w) = setup_deviceid 11259375 /\
  returned (shd (co2_raw (env w))) = 412 /\
  exists w1,
    sample co2_only w = Ok tt w1 /\
    exists w2 rest,
      publish (fun _ => "") co2_only w1 = Ok tt w2 /\
      out w2 =
        (out w1 ++
         Publish ("airgradient/" ++ setup_deviceid 11259375 ++ "/co2") "412" true
         :: rest)%list /\
      (forall topic payload retained,
          In (Publish topic payload retained) rest ->
          topic <> "airgradient/" ++ setup_deviceid 11259375 ++ "/co2") /\
      forallb is_lower_hex (list_ascii_of_string (setup_deviceid 11259375)) = true.
Proof.
  intros w.
  assert (H1 : hasCO2 co2_only = true) by reflexivity.
  assert (H2 : deviceid (dev w) = setup_deviceid 11259375) by reflexivity.
  assert (H3 : returned (shd (co2_raw (env w))) = 412) by reflexivity.
  assert (E : exists w1, sample co2_only w = Ok tt w1)
    by (eexists; vm_compute; reflexivity).
  destruct E as [w1 E].
  split; [exact H1|]. split; [exact H2|]. split; [exact H3|].
  exists w1. split; [exact E|].
  exact (co2_412_published (fun _ => "") co2_only 11259375 w w1 H1 H2 H3 E).
Defined.

Lemma three_failures_then_connected_witness :
  let e := set_link (script [false; false; false; false; false; true] true)
             (set_conn (script [false; false; false; true] true)
                (set_rand (script [4660; 70000; 7; 8]%N 0%N) failing_co2)) in
  let w := start 11259375 e in
  connectWIFI co2_only && sendMQTT co2_only = true /\
  begins [false; false; false; false; false; true] (link (env w)) /\
  begins [false; false; false; true] (conn (env w)) /\
  exists w',
    connection co2_only (4 + 0) w = Ok tt w' /\
    dev w' = dev w /\
    out w' =
      [Connect "airgradient-1234"; Delay 5000;
       Connect "airgradient-1171"; Delay 5000;
       Connect "airgradient-7"; Delay 5000;
       Connect "airgradient-8"; ClientLoop].
Proof.
  intros e w.
  assert (H1 : connectWIFI co2_only && sendMQTT co2_only = true) by reflexivity.
  assert (H2 : begins [false; false; false; false; false; true] (link (env w)))
    by apply begins_script.
  assert (H3 : begins [false; false; false; true] (conn (env w)))
    by apply begins_script.
  split; [exact H1|]. split; [exact H2|]. split; [exact H3|].
  destruct (three_failures_then_connected (fun _ => "") co2_only 0 w H1 H2 H3)
    as (w' & E & Hd & Ho & _).
  exists w'. split; [exact E|]. split; [exact Hd|]. exact Ho.
Defined.

End FirmwareFacts.

(** ** More on the interpolation [linear] *)

Module LinearFacts.
Import FP Converter FPFacts ConverterFacts.
Local Open Scope Q_scope.

(** A rounding is finite or an infinity, never a NaN. *)
Lemma rnd_cases fmt x :
  rnd fmt x = Fin (round fmt x) \/ exists s, rnd fmt x = Inf s.
Proof.
  unfold rnd. destruct (Qle_bool (pow2 (emax fmt)) (Qabs (round fmt x))); eauto.
Qed.

Lemma Qzero_false d : ~ d == 0 -> Qzero d = false.
Proof.
  intros H. unfold Qzero. destruct d as [[|p|p] q]; try reflexivity.
  exfalso. apply H. reflexivity.
Qed.


Lemma floor_half n : Qfloor (inject_Z n + (1 # 2)) = n.
Proof.
  apply Z.le_antisymm.
  - assert (H : (Qfloor (inject_Z n + (1 # 2)) < n + 1)%Z); [|lia].
    rewrite Zlt_Qlt. eapply Qle_lt_trans; [apply Qfloor_le|].
    rewrite inject_Z_plus. change (inject_Z 1) with 1. lra.
  - rewrite <- (Qfloor_Z n) at 1. apply Qfloor_resp_le. lra.
Qed.

Lemma round_half_away_Z r n : r == inject_Z n -> round_half_away r = n.
Proof.
  intros E. unfold round_half_away. destruct (Qneg r).
  - assert (E' : - r + (1 # 2) == inject_Z (- n) + (1 # 2))
      by (rewrite E, inject_Z_opp; reflexivity).
    rewrite (Qfloor_comp _ _ E'), floor_half. lia.
  - assert (E' : r + (1 # 2) == inject_Z n + (1 # 2)) by (rewrite E; reflexivity).
    rewrite (Qfloor_comp _ _ E'), floor_half. reflexivity.
Qed.

Lemma round_to_int_Z r n :
  r == inject_Z n -> (Z.abs n < 2 ^ 24)%Z -> round_to_int (Fin r) = Some n.
Proof.
  intros E Hn. unfold round_to_int. rewrite (round_half_away_Z r n E).
  unfold in_int, INT_MIN, INT_MAX.
  replace (- 2 ^ 31 <=? n)%Z with true by (symmetry; apply Z.leb_le; lia).
  replace (n <=? 2 ^ 31 - 1)%Z with true by (symmetry; apply Z.leb_le; lia).
  reflexivity.
Qed.

Lemma in_int_small z : (Z.abs z < 2 ^ 24)%Z -> in_int z = true.
Proof.
  intros Hz. unfold in_int, INT_MIN, INT_MAX.
  apply andb_true_iff. rewrite !Z.leb_le. lia.
Qed.

(** X1.  The interpolation is exact at both ends of a band: whatever the
    two breakpoints, as long as their [float] difference [d] is not zero,
    and whatever the two indices, as long as [AQIhigh], [AQIlow] and the
    difference [AQIhigh - AQIlow] are below [2 ^ 24] in size (the integers
    a [float] holds exactly),
    [linear(AQIhigh, AQIlow, Conchigh, Conclow, Conclow)] is [AQIlow] and
    [linear(AQIhigh, AQIlow, Conchigh, Conclow, Conchigh)] is [AQIhigh]:
    the division and the product of line 154 lose nothing there. *)
Theorem linear_exact_at_both_ends (AQIhigh AQIlow : Z) (Conchigh Conclow d : Q) :
  sub f32 (Fin Conchigh) (Fin Conclow) = Fin d -> ~ d == 0 ->
  (Z.abs AQIhigh < 2 ^ 24)%Z -> (Z.abs AQIlow < 2 ^ 24)%Z ->
  (Z.abs (AQIhigh - AQIlow) < 2 ^ 24)%Z ->
  linear AQIhigh AQIlow (Fin Conchigh) (Fin Conclow) (Fin Conclow) = Some AQIlow /\
  linear AQIhigh AQIlow (Fin Conchigh) (Fin Conclow) (Fin Conchigh) = Some AQIhigh.
Proof.
  intros Ed Hd HA HB HAB.
  destruct (f32_exact (inject_Z (AQIhigh - AQIlow)) _ (Qeq_refl _) HAB) as (m & Em & Hm).
  destruct (f32_exact (inject_Z AQIlow) _ (Qeq_refl _) HB) as (b & Eb & Hb).
  unfold linear, of_int. rewrite (in_int_small _ HAB), Ed, Em, Eb. split.
  - destruct (f32_exact (Conclow + - Conclow) 0) as (r0 & E0 & H0);
      [ring | reflexivity |].
    unfold sub, opp, add. rewrite E0. cbn [div]. rewrite (Qzero_false d Hd).
    destruct (f32_exact (r0 / d) 0) as (r1 & E1 & H1);
      [rewrite H0; unfold Qdiv; ring | reflexivity |].
    rewrite E1. cbn [mul].
    destruct (f32_exact (r1 * m) 0) as (r2 & E2 & H2);
      [rewrite H1; ring | reflexivity |].
    rewrite E2.
    destruct (f32_exact (r2 + b) AQIlow) as (r3 & E3 & H3);
      [rewrite H2, Hb; ring | assumption |].
    rewrite E3. apply round_to_int_Z; assumption.
  - cbn [div]. rewrite (Qzero_false d Hd).
    destruct (f32_exact (d / d) 1) as (r1 & E1 & H1);
      [field; assumption | reflexivity |].
    rewrite E1. cbn [mul].
    destruct (f32_exact (r1 * m) (AQIhigh - AQIlow)) as (r2 & E2 & H2);
      [rewrite H1, Hm; ring | assumption |].
    rewrite E2. cbn [add].
    destruct (f32_exact (r2 + b) AQIhigh) as (r3 & E3 & H3);
      [rewrite H2, Hb, <- inject_Z_plus; f_equiv; lia | assumption |].
    rewrite E3. apply round_to_int_Z; assumption.
Qed.

Lemma linear_exact_at_both_ends_witness :
  sub f32 (Fin 12) (Fin 0) = Fin 12 /\ ~ 12 == 0 /\
  linear 50 0 (Fin 12) (Fin 0) (Fin 0) = Some 0%Z /\
  linear 50 0 (Fin 12) (Fin 0) (Fin 12) = Some 50%Z.
Proof.
  assert (H1 : sub f32 (Fin 12) (Fin 0) = Fin 12) by (vm_compute; reflexivity).
  assert (H2 : ~ 12 == 0) by (intros H; discriminate H).
  assert (HA : (Z.abs 50 < 2 ^ 24)%Z) by reflexivity.
  assert (HB : (Z.abs 0 < 2 ^ 24)%Z) by reflexivity.
  assert (HAB : (Z.abs (50 - 0) < 2 ^ 24)%Z) by reflexivity.
  split; [exact H1|]. split; [exact H2|].
  exact (linear_exact_at_both_ends 50 0 12 0 12 H1 H2 HA HB HAB).
Defined.

(** The value [linear] rounds: finite as soon as [linear] has a result. *)
Lemma linear_Some A B ch cl d q z :
  sub f32 (Fin ch) (Fin cl) = Fin d -> 0 < d ->
  linear A B (Fin ch) (Fin cl) (Fin q) = Some z ->
  let m := round f32 (inject_Z (A - B)) in
  let b := round f32 (inject_Z B) in
  z = round_half_away
        (round f32 (round f32 (round f32 (round f32 (q + - cl) / d) * m) + b)).
Proof.
  intros Ed Hd. unfold linear, of_int. rewrite Ed.
  destruct (in_int (A - B)); [|intros H; discriminate H].
  unfold sub, opp, add.
  destruct (rnd_cases f32 (q + - cl)) as [E|[s E]]; rewrite E; clear E;
    cbn [div mul]; rewrite ?(Qzero_pos d Hd);
    [destruct (rnd_cases f32 (round f32 (q + - cl) / d)) as [E|[s E]]; rewrite E; clear E|];
    destruct (rnd_cases f32 (inject_Z (A - B))) as [E|[s' E]]; rewrite E; clear E;
    destruct (rnd_cases f32 (inject_Z B)) as [E|[s'' E]]; rewrite E; clear E;
    cbn [mul];
    try match goal with
      | |- context [rnd f32 (?x * ?y)] =>
          destruct (rnd_cases f32 (x * y)) as [E|[s3 E]]; rewrite E; clear E
      end;
    repeat match goal with
      | |- context [Qzero ?x] => destruct (Qzero x)
      | |- context [Bool.eqb ?x ?y] => destruct (Bool.eqb x y)
      end;
    try match goal with
      | |- context [rnd f32 (?x + ?y)] =>
          destruct (rnd_cases f32 (x + y)) as [E|[s4 E]]; rewrite E; clear E
      end;
    unfold round_to_int;
    try (intros H; discriminate H).
  intros H.
  destruct (in_int _) in H; [|discriminate H].
  injection H as <-. reflexivity.
Qed.

(** X2.  Within a band the interpolation never goes down: with
    [Conchigh] above [Conclow], [AQIhigh] at least [AQIlow] and a
    difference [AQIhigh - AQIlow] that fits an [int] (the subtraction of
    line 154 does not overflow), a larger concentration never has a smaller
    index, for any two finite concentrations on which [linear] has a
    result. *)
Theorem linear_monotone (AQIhigh AQIlow : Z) (Conchigh Conclow d q1 q2 : Q)
    (z1 z2 : Z) :
  sub f32 (Fin Conchigh) (Fin Conclow) = Fin d -> 0 < d ->
  (AQIlow <= AQIhigh)%Z -> in_int (AQIhigh - AQIlow) = true -> q1 <= q2 ->
  linear AQIhigh AQIlow (Fin Conchigh) (Fin Conclow) (Fin q1) = Some z1 ->
  linear AQIhigh AQIlow (Fin Conchigh) (Fin Conclow) (Fin q2) = Some z2 ->
  (z1 <= z2)%Z.
Proof.
  intros Ed Hd HAB _ Hq E1 E2.
  apply (linear_Some _ _ _ _ _ _ _ Ed Hd) in E1, E2. cbv zeta in E1, E2.
  subst z1 z2. apply round_half_away_le.
  assert (Hm : 0 <= round f32 (inject_Z (AQIhigh - AQIlow))).
  { change 0 with (round f32 0). apply (round_le f32 prec_f32).
    change 0 with (inject_Z 0). rewrite <- Zle_Qle. lia. }
  assert (Hi : 0 <= / d) by (apply Qinv_le_0_compat; lra).
  apply (round_le f32 prec_f32).
  apply Qplus_le_compat; [|apply Qle_refl].
  apply (round_le f32 prec_f32).
  apply Qmult_le_compat_r; [|assumption].
  apply (round_le f32 prec_f32).
  unfold Qdiv. apply Qmult_le_compat_r; [|assumption].
  apply (round_le f32 prec_f32). lra.
Qed.

Lemma linear_monotone_witness :
  sub f32 (Fin 12) (Fin 0) = Fin 12 /\ 0 < 12 /\ (0 <= 50)%Z /\
  in_int (50 - 0) = true /\ 3.3 <= 7.9 /\
  linear 50 0 (Fin 12) (Fin 0) (Fin 3.3) = Some 14%Z /\
  linear 50 0 (Fin 12) (Fin 0) (Fin 7.9) = Some 33%Z /\
  (14 <= 33)%Z.
Proof.
  assert (H1 : sub f32 (Fin 12) (Fin 0) = Fin 12) by (vm_compute; reflexivity).
  assert (H2 : 0 < 12) by reflexivity.
  assert (H3 : (0 <= 50)%Z) by (intros H; discriminate H).
  assert (HI : in_int (50 - 0) = true) by reflexivity.
  assert (H4 : 3.3 <= 7.9) by (intros H; discriminate H).
  assert (H5 : linear 50 0 (Fin 12) (Fin 0) (Fin 3.3) = Some 14%Z)
    by (vm_compute; reflexivity).
  assert (H6 : linear 50 0 (Fin 12) (Fin 0) (Fin 7.9) = Some 33%Z)
    by (vm_compute; reflexivity).
  repeat (split; [assumption|]).
  exact (linear_monotone 50 0 12 0 12 3.3 7.9 14 33 H1 H2 H3 HI H4 H5 H6).
Defined.



End LinearFacts.

(** ** More on the converter [pm25toAQI] *)

Module IndexFacts.
Import FP Converter FPFacts ConverterFacts.
Local Open Scope Q_scope.

(** *** Monotonicity on the integers *)

Lemma aqi_steps_up z :
  (0 <= z < 500)%Z ->
  exists a b, pm25toAQI z = Some a /\ pm25toAQI (z + 1) = Some b /\ (a <= b)%Z.
Proof.
  intros Hz.
  pose (P := fun z => match pm25toAQI z, pm25toAQI (z + 1) with
                      | Some a, Some b => (a <=? b)%Z
                      | _, _ => false
                      end).
  assert (H : P z = true).
  { apply (all_from_spec P 0 500); [vm_compute; reflexivity | lia]. }
  unfold P in H. clear P.
  destruct (pm25toAQI z) as [a|]; [|discriminate].
  destruct (pm25toAQI (z + 1)) as [b|]; [|discriminate].
  exists a, b. repeat split. apply Z.leb_le. assumption.
Qed.

Lemma aqi_chain (n : nat) : forall z,
  (0 <= z)%Z -> (z + Z.of_nat n <= 500)%Z ->
  exists a b, pm25toAQI z = Some a /\ pm25toAQI (z + Z.of_nat n) = Some b /\ (a <= b)%Z.
Proof.
  induction n as [|n IH]; intros z Z0 Z1.
  - destruct (aqi_0_500 z) as (a & E & _); [lia|].
    exists a, a. replace (z + Z.of_nat 0)%Z with z by lia.
    repeat split; try assumption. lia.
  - destruct (IH z Z0) as (a & b & E1 & E2 & L); [lia|].
    destruct (aqi_steps_up (z + Z.of_nat n)) as (b' & c & E3 & E4 & L'); [lia|].
    rewrite E2 in E3. injection E3 as <-.
    exists a, c. replace (z + Z.of_nat (S n))%Z with (z + Z.of_nat n + 1)%Z by lia.
    repeat split; try assumption. lia.
Qed.

Lemma aqi_ordered_0_500 z1 z2 :
  (0 <= z1)%Z -> (z1 <= z2)%Z -> (z2 <= 500)%Z ->
  exists a b, pm25toAQI z1 = Some a /\ pm25toAQI z2 = Some b /\
    (0 <= a /\ a <= b /\ b <= 500)%Z.
Proof.
  intros H1 H2 H3.
  destruct (aqi_chain (Z.to_nat (z2 - z1)) z1) as (a & b & E1 & E2 & L); [lia | lia |].
  replace (z1 + Z.of_nat (Z.to_nat (z2 - z1)))%Z with z2 in E2 by lia.
  destruct (aqi_0_500 z1) as (a' & E1' & B1); [lia|].
  destruct (aqi_0_500 z2) as (b' & E2' & B2); [lia|].
  rewrite E1 in E1'. injection E1' as <-. rewrite E2 in E2'. injection E2' as <-.
  exists a, b. repeat split; try assumption; lia.
Qed.

Lemma aqi_ordered_from_501 z1 z2 :
  (501 <= z1)%Z -> (z1 <= z2)%Z -> (z2 <= INT_MAX)%Z ->
  exists a b, pm25toAQI z1 = Some a /\ pm25toAQI z2 = Some b /\
    (501 <= a /\ a <= b)%Z.
Proof.
  intros H1 H2 H3.
  pose proof (truncate_from_501 z1 z2 H1 H2 H3) as Hc.
  edestruct (last_band_ordered 501 2147483648) as (a & b & E1 & E2 & B);
    [exact Hc | ev..|].
  eval_rha B.
  destruct (aqi_from_501 z1) as (a' & F1 & _); [lia|].
  destruct (aqi_from_501 z2) as (b' & F2 & _); [lia|].
  exists a, b. rewrite F1, F2. repeat split; try assumption; lia.
Qed.

Lemma aqi_ordered_negative z1 z2 :
  (INT_MIN <= z1)%Z -> (z1 <= z2)%Z -> (z2 <= -1)%Z ->
  exists a b, pm25toAQI z1 = Some a /\ pm25toAQI z2 = Some b /\
    (a <= b /\ b <= 0)%Z.
Proof.
  intros H1 H2 H3.
  pose proof (truncate_negative z1 z2 H1 H2 H3) as Hc.
  edestruct (last_band_ordered (-2147483648) (-1)) as (a & b & E1 & E2 & B);
    [exact Hc | ev..|].
  eval_rha B.
  destruct (aqi_negative z1) as (a' & F1 & _); [lia|].
  destruct (aqi_negative z2) as (b' & F2 & _); [lia|].
  exists a, b. rewrite F1, F2. repeat split; try assumption; lia.
Qed.

(** X4.  The converter never goes down: for any two [int] concentrations
    [pm25 <= pm25'] of the whole 32-bit range, negative ones and the ones
    beyond the table included, [pm25toAQI(pm25) <= pm25toAQI(pm25')].  No
    step from one branch of the [if] chain to the next loses index. *)
Theorem pm25toAQI_monotone (pm25 pm25' : Z) :
  (INT_MIN <= pm25)%Z -> (pm25 <= pm25')%Z -> (pm25' <= INT_MAX)%Z ->
  exists a a',
    pm25toAQI pm25 = Some a /\ pm25toAQI pm25' = Some a' /\ (a <= a')%Z.
Proof.
  intros H1 H2 H3.
  destruct (Z.lt_ge_cases pm25' 0) as [N2|N2].
  - destruct (aqi_ordered_negative pm25 pm25') as (a & b & E1 & E2 & B); try lia.
    exists a, b. repeat split; try assumption; lia.
  - destruct (Z.lt_ge_cases pm25 0) as [N1|N1].
    + destruct (aqi_negative pm25) as (a & _ & E1 & B1); [lia|].
      destruct (Z.le_gt_cases pm25' 500) as [M2|M2].
      * destruct (aqi_0_500 pm25') as (b & E2 & B2); [lia|].
        exists a, b. repeat split; try assumption; lia.
      * destruct (aqi_from_501 pm25') as (b & _ & E2 & B2); [lia|].
        exists a, b. repeat split; try assumption; lia.
    + destruct (Z.le_gt_cases pm25' 500) as [M2|M2].
      * destruct (aqi_ordered_0_500 pm25 pm25') as (a & b & E1 & E2 & B); try lia.
        exists a, b. repeat split; try assumption; lia.
      * destruct (Z.le_gt_cases pm25 500) as [M1|M1].
        -- destruct (aqi_0_500 pm25) as (a & E1 & B1); [lia|].
           destruct (aqi_from_501 pm25') as (b & _ & E2 & B2); [lia|].
           exists a, b. repeat split; try assumption; lia.
        -- destruct (aqi_ordered_from_501 pm25 pm25') as (a & b & E1 & E2 & B); try lia.
           exists a, b. repeat split; try assumption; lia.
Qed.

Lemma pm25toAQI_monotone_witness :
  (INT_MIN <= -7)%Z /\ (-7 <= 2000000)%Z /\ (2000000 <= INT_MAX)%Z /\
  exists a a',
    pm25toAQI (-7) = Some a /\ pm25toAQI 2000000 = Some a' /\ (a <= a')%Z.
Proof.
  assert (H1 : (INT_MIN <= -7)%Z) by (vm_compute; discriminate).
  assert (H2 : (-7 <= 2000000)%Z) by (vm_compute; discriminate).
  assert (H3 : (2000000 <= INT_MAX)%Z) by (vm_compute; discriminate).
  split; [exact H1|]. split; [exact H2|]. split; [exact H3|].
  exact (pm25toAQI_monotone (-7) 2000000 H1 H2 H3).
Defined.

(** X5.  For every [int] concentration of the table, 0 to 1000, the index
    lies between the [AQIlow] and the [AQIhigh] of the branch the [if]
    chain takes: 0..12 gives 0..50, 13..35 gives 51..100, 36..55 gives
    101..150, 56..150 gives 151..200, 151..250 gives 201..300, 251..350
    gives 301..400, 351..500 gives 401..500 and 501..1000 gives
    501..1000. *)
Theorem index_stays_in_band (pm25 : Z) :
  (0 <= pm25 <= 1000)%Z ->
  exists a,
    pm25toAQI pm25 = Some a /\
    ((0 <= pm25 <= 12 -> 0 <= a <= 50) /\
     (13 <= pm25 <= 35 -> 51 <= a <= 100) /\
     (36 <= pm25 <= 55 -> 101 <= a <= 150) /\
     (56 <= pm25 <= 150 -> 151 <= a <= 200) /\
     (151 <= pm25 <= 250 -> 201 <= a <= 300) /\
     (251 <= pm25 <= 350 -> 301 <= a <= 400) /\
     (351 <= pm25 <= 500 -> 401 <= a <= 500) /\
     (501 <= pm25 <= 1000 -> 501 <= a <= 1000))%Z.
Proof.
  intros Hz.
  pose (P := fun z => match pm25toAQI z with
     | Some a =>
         (if z <=? 12 then (0 <=? a) && (a <=? 50)
          else if z <=? 35 then (51 <=? a) && (a <=? 100)
          else if z <=? 55 then (101 <=? a) && (a <=? 150)
          else if z <=? 150 then (151 <=? a) && (a <=? 200)
          else if z <=? 250 then (201 <=? a) && (a <=? 300)
          else if z <=? 350 then (301 <=? a) && (a <=? 400)
          else if z <=? 500 then (401 <=? a) && (a <=? 500)
          else (501 <=? a) && (a <=? 1000))%Z
     | None => false
     end).
  assert (H : P pm25 = true).
  { apply (all_from_spec P 0 1001); [vm_compute; reflexivity | lia]. }
  unfold P in H. clear P. destruct (pm25toAQI pm25) as [a|]; [|discriminate].
  exists a. split; [reflexivity|].
  repeat match type of H with
    | context [(?x <=? ?y)%Z] => destruct (Z.leb_spec x y)
    end; simpl in H; try discriminate H; repeat split; intros; lia.
Qed.

Lemma index_stays_in_band_witness :
  (0 <= 40 <= 1000)%Z /\
  exists a, pm25toAQI 40 = Some a /\ (36 <= 40 <= 55 -> 101 <= a <= 150)%Z.
Proof.
  assert (H : (0 <= 40 <= 1000)%Z) by (split; intros E; discriminate E).
  split; [exact H|].
  destruct (index_stays_in_band 40 H) as (a & E & _ & _ & B & _).
  exists a. split; [exact E | exact B].
Defined.

End IndexFacts.

(** ** The truncation on the [int] parameter *)

Module TruncationFacts.
Import FP Converter FPFacts ConverterFacts.
Local Open Scope Q_scope.

(** The values of the model are reduced fractions. *)
Lemma round_canon fmt x : Qred (round fmt x) = round fmt x.
Proof.
  unfold round, round_pos. destruct (Qnum x); [reflexivity | ..];
    apply Qred_complete, Qred_correct.
Qed.

Lemma rnd_canon fmt x r : rnd fmt x = Fin r -> Qred r = r.
Proof. intros H. apply rnd_Fin in H. destruct H as [-> _]. apply round_canon. Qed.

Lemma cast_canon fmt v c : cast fmt v = Fin c -> Qred c = c.
Proof. destruct v; simpl; [apply rnd_canon | discriminate..]. Qed.

Lemma div_canon fmt a b c : div fmt a b = Fin c -> Qred c = c.
Proof.
  destruct a as [x|s|], b as [y|s'|]; simpl; try discriminate.
  - destruct (Qzero y); [destruct (Qzero x); discriminate | apply rnd_canon].
  - intros H. injection H as <-. reflexivity.
Qed.

Lemma canon_Z c z : Qred c = c -> c == inject_Z z -> c = inject_Z z.
Proof.
  intros Hc E. rewrite <- Hc. rewrite (Qred_complete _ _ E).
  apply Qcanon.Qred_identity. simpl. apply Z.gcd_1_r.
Qed.

Lemma truncate_of_int_exact z :
  (Z.abs z <= 1677721)%Z -> truncate_tenth (of_int f32 z) = Fin (inject_Z z).
Proof.
  intros Hz. destruct (truncate_exact z Hz) as (c & E & Hc). rewrite E. f_equal.
  apply canon_Z; [|assumption]. eapply cast_canon. exact E.
Qed.

(** The branch of the [if] chain that an [int] of the table takes. *)
Lemma band_of_int z :
  (0 <= z <= 500)%Z ->
  pm25toAQI z =
    (if z <=? 12 then linear 50 0 (of_int f32 12) (of_int f32 0)
     else if z <=? 35 then linear 100 51 (flt 35.4) (flt 12.1)
     else if z <=? 55 then linear 150 101 (flt 55.4) (flt 35.5)
     else if z <=? 150 then linear 200 151 (flt 150.4) (flt 55.5)
     else if z <=? 250 then linear 300 201 (flt 250.4) (flt 150.5)
     else if z <=? 350 then linear 400 301 (flt 350.4) (flt 250.5)
     else linear 500 401 (flt 500.4) (flt 350.5))%Z (Fin (inject_Z z)).
Proof.
  intros Hz.
  pose (B := fun z : Z =>
    (if z <=? 12 then linear 50 0 (of_int f32 12) (of_int f32 0)
     else if z <=? 35 then linear 100 51 (flt 35.4) (flt 12.1)
     else if z <=? 55 then linear 150 101 (flt 55.4) (flt 35.5)
     else if z <=? 150 then linear 200 151 (flt 150.4) (flt 55.5)
     else if z <=? 250 then linear 300 201 (flt 250.4) (flt 150.5)
     else if z <=? 350 then linear 400 301 (flt 350.4) (flt 250.5)
     else linear 500 401 (flt 500.4) (flt 350.5))%Z (Fin (inject_Z z))).
  pose (P := fun z : Z =>
    match pm25toAQI z, B z with
    | Some a, Some b => (a =? b)%Z
    | _, _ => false
    end).
  assert (H : P z = true).
  { apply (all_from_spec P 0 501); [vm_compute; reflexivity | lia]. }
  unfold P in H. change (pm25toAQI z = B z).
  destruct (pm25toAQI z) as [a|]; [|discriminate H].
  destruct (B z) as [b|]; [|discriminate H].
  apply Z.eqb_eq in H. rewrite H. reflexivity.
Qed.

(** C2 as the code has it.  The converter has an [int] parameter: an
    argument with a fraction is cut to its integer part [pm25] before the
    body runs.  On [pm25] the body computes
    [c = floor(10 * float(pm25)) / 10] and classifies [c]; for every
    [pm25] of at most 1677721 in size this [c] is [pm25] itself, so the
    truncation to one decimal place changes nothing.  The index is the one
    of the integer part: the first band for 0 to 12, the second for 13 to
    35, then 36 to 55, 56 to 150, 151 to 250, 251 to 350 and 351 to 500,
    each interpolated at [pm25], and the last band, interpolated at [c],
    for every other [pm25].  The argument 12.05 is received as 12 and gets
    the interpolation of the first band, 50, not the one of the second
    band, which is 51 at 12; the body run on the [float] 12.05 would
    truncate it to 12.0 and give 50 as well. *)
Theorem converter_classifies_the_integer_part (x : float) (pm25 : Z) :
  to_int x = Some pm25 ->
  (forall q, x = Fin q -> pm25 = Z.quot (Qnum q) (Zpos (Qden q))) /\
  pm25toAQI_of_double x = pm25toAQI pm25 /\
  ((Z.abs pm25 <= 1677721)%Z ->
   truncate_tenth (of_int f32 pm25) = Fin (inject_Z pm25)) /\
  (((0 <= pm25 <= 12)%Z -> pm25toAQI pm25 =
      linear 50 0 (of_int f32 12) (of_int f32 0) (Fin (inject_Z pm25))) /\
   ((13 <= pm25 <= 35)%Z -> pm25toAQI pm25 =
      linear 100 51 (flt 35.4) (flt 12.1) (Fin (inject_Z pm25))) /\
   ((36 <= pm25 <= 55)%Z -> pm25toAQI pm25 =
      linear 150 101 (flt 55.4) (flt 35.5) (Fin (inject_Z pm25))) /\
   ((56 <= pm25 <= 150)%Z -> pm25toAQI pm25 =
      linear 200 151 (flt 150.4) (flt 55.5) (Fin (inject_Z pm25))) /\
   ((151 <= pm25 <= 250)%Z -> pm25toAQI pm25 =
      linear 300 201 (flt 250.4) (flt 150.5) (Fin (inject_Z pm25))) /\
   ((251 <= pm25 <= 350)%Z -> pm25toAQI pm25 =
      linear 400 301 (flt 350.4) (flt 250.5) (Fin (inject_Z pm25))) /\
   ((351 <= pm25 <= 500)%Z -> pm25toAQI pm25 =
      linear 500 401 (flt 500.4) (flt 350.5) (Fin (inject_Z pm25))) /\
   ((pm25 < 0 \/ 500 < pm25)%Z -> pm25toAQI pm25 =
      linear 1000 501 (flt 1000.4) (flt 500.5)
        (truncate_tenth (of_int f32 pm25)))) /\
  (to_int (dbl 12.05) = Some 12%Z /\
   pm25toAQI_of_double (dbl 12.05) =
     linear 50 0 (of_int f32 12) (of_int f32 0) (Fin 12) /\
   pm25toAQI_of_double (dbl 12.05) = Some 50%Z /\
   linear 100 51 (flt 35.4) (flt 12.1) (Fin 12) = Some 51%Z /\
   truncate_tenth (flt 12.05) = Fin 12 /\
   aqi_of_truncated (truncate_tenth (flt 12.05)) = Some 50%Z).
Proof.
  intros Hx.
  assert (Hq : exists q, x = Fin q /\ pm25 = Z.quot (Qnum q) (Zpos (Qden q)) /\
                         in_int pm25 = true).
  { destruct x as [q|s|]; try discriminate Hx. exists q. unfold to_int in Hx.
    destruct (in_int (Z.quot (Qnum q) (Zpos (Qden q)))) eqn:I; [|discriminate Hx].
    injection Hx as <-. repeat split. exact I. }
  destruct Hq as (q & Eq & Ez & Hi).
  assert (Hr : (INT_MIN <= pm25 <= INT_MAX)%Z).
  { unfold in_int in Hi. apply andb_true_iff in Hi. rewrite !Z.leb_le in Hi. exact Hi. }
  split.
  { intros q' E'. rewrite Eq in E'. injection E' as <-. exact Ez. }
  split; [unfold pm25toAQI_of_double; rewrite Hx; reflexivity|].
  split; [apply truncate_of_int_exact|].
  split; [|repeat split; vm_compute; reflexivity].
  repeat split; intros R;
    try (rewrite (band_of_int pm25) by lia;
         repeat match goal with
           | |- context [(?a <=? ?b)%Z] => destruct (Z.leb_spec a b); try lia
           end; reflexivity).
  destruct R as [R|R].
  - destruct (aqi_negative pm25) as (a & F & _); [lia|]. exact F.
  - destruct (aqi_from_501 pm25) as (a & F & _); [lia|]. exact F.
Qed.

Lemma converter_classifies_the_integer_part_witness :
  to_int (dbl 8.3) = Some 8%Z /\
  pm25toAQI_of_double (dbl 8.3) = pm25toAQI 8 /\
  ((Z.abs 8 <= 1677721)%Z -> truncate_tenth (of_int f32 8) = Fin 8) /\
  ((0 <= 8 <= 12)%Z ->
   pm25toAQI 8 = linear 50 0 (of_int f32 12) (of_int f32 0) (Fin 8)).
Proof.
  assert (H1 : to_int (dbl 8.3) = Some 8%Z) by (vm_compute; reflexivity).
  split; [exact H1|].
  destruct (converter_classifies_the_integer_part (dbl 8.3) 8 H1)
    as (_ & A & B & (C & _) & _).
  split; [exact A|]. split; [exact B | exact C].
Defined.

(** C2 does not hold as stated: [floor(10 * 8.3) / 10] is 8.3, and the
    [if] chain on 8.3 gives 35, but the converter called on 8.3 returns 33,
    the index of 8; in the same way 12.95 truncates to 12.9, of index 53 in
    the second band, and the converter returns 50, the index of 12 in the
    first band.  What is classified is the integer part, not the value
    truncated to one decimal place. *)
Lemma fraction_is_cut_before_the_truncation :
  (truncate_tenth (flt 8.3) = flt 8.3 /\
   aqi_of_truncated (truncate_tenth (flt 8.3)) = Some 35%Z /\
   to_int (dbl 8.3) = Some 8%Z /\
   pm25toAQI_of_double (dbl 8.3) = Some 33%Z /\
   pm25toAQI_of_double (dbl 8.3) <> aqi_of_truncated (truncate_tenth (flt 8.3))) /\
  (truncate_tenth (flt 12.95) = flt 12.9 /\
   aqi_of_truncated (truncate_tenth (flt 12.95)) =
     linear 100 51 (flt 35.4) (flt 12.1) (flt 12.9) /\
   aqi_of_truncated (truncate_tenth (flt 12.95)) = Some 53%Z /\
   to_int (dbl 12.95) = Some 12%Z /\
   pm25toAQI_of_double (dbl 12.95) = Some 50%Z /\
   pm25toAQI_of_double (dbl 12.95) <> aqi_of_truncated (truncate_tenth (flt 12.95))).
Proof.
  split.
  - split; [ev_eq|]. split; [ev_eq|]. split; [ev_eq|]. split; [ev_eq|].
    vm_compute. intros H. discriminate H.
  - split; [ev_eq|]. split; [ev_eq|]. split; [ev_eq|]. split; [ev_eq|].
    split; [ev_eq|]. vm_compute. intros H. discriminate H.
Qed.

(** X21.  On the [int] parameter the truncation of line 164 does
    nothing: for every [pm25] of at most 1677721 in size, [float(pm25)] is
    [pm25] and [floor(10 * float(pm25)) / 10] is [pm25] again, whether
    [floor] is the [double] function of <math.h> or the [float] overload of
    <cmath>.  The index is the [if] chain run on [pm25] itself, and does
    not depend on which of the two a build picks. *)
Theorem truncation_leaves_an_int_as_it_is (pm25 : Z) :
  (Z.abs pm25 <= 1677721)%Z ->
  of_int f32 pm25 = Fin (inject_Z pm25) /\
  truncate_tenth (of_int f32 pm25) = Fin (inject_Z pm25) /\
  truncate_tenth_float (of_int f32 pm25) = Fin (inject_Z pm25) /\
  pm25toAQI pm25 = aqi_of_truncated (Fin (inject_Z pm25)).
Proof.
  intros Hz.
  assert (E0 : of_int f32 pm25 = Fin (inject_Z pm25)).
  { destruct (f32_exact (inject_Z pm25) pm25) as (r & E & Hr); [reflexivity | lia |].
    unfold of_int. rewrite E. f_equal. apply canon_Z; [|assumption].
    eapply rnd_canon. exact E. }
  assert (E1 : truncate_tenth (of_int f32 pm25) = Fin (inject_Z pm25)).
  { destruct (truncate_exact pm25 Hz) as (c & E & Hc). rewrite E. f_equal.
    apply canon_Z; [|assumption]. eapply cast_canon. exact E. }
  assert (E2 : truncate_tenth_float (of_int f32 pm25) = Fin (inject_Z pm25)).
  { destruct (truncate_tenth_float_exact pm25 Hz) as (c & E & Hc). rewrite E. f_equal.
    apply canon_Z; [|assumption]. eapply div_canon. exact E. }
  repeat split; try assumption.
  unfold pm25toAQI. rewrite E1. reflexivity.
Qed.

Lemma truncation_leaves_an_int_as_it_is_witness :
  (Z.abs 35 <= 1677721)%Z /\
  truncate_tenth (of_int f32 35) = Fin 35 /\
  truncate_tenth_float (of_int f32 35) = Fin 35 /\
  pm25toAQI 35 = aqi_of_truncated (Fin 35).
Proof.
  assert (H : (Z.abs 35 <= 1677721)%Z) by (intros E; discriminate E).
  split; [exact H|].
  exact (proj2 (truncation_leaves_an_int_as_it_is 35 H)).
Defined.

End TruncationFacts.

(** ** The temperature *)

Module TemperatureFacts.
Import FP Converter Firmware FPFacts ConverterFacts.
Local Open Scope Q_scope.

(** Discarding the fraction is monotone. *)
Lemma quot_le (a b : Q) :
  a <= b -> (Z.quot (Qnum a) (Zpos (Qden a)) <= Z.quot (Qnum b) (Zpos (Qden b)))%Z.
Proof.
  destruct a as [na da], b as [nb db]. unfold Qle. simpl. intros H.
  rewrite <- (Z.quot_mul_cancel_r na (Zpos da) (Zpos db)) by discriminate.
  rewrite <- (Z.quot_mul_cancel_r nb (Zpos db) (Zpos da)) by discriminate.
  rewrite (Z.mul_comm (Zpos db) (Zpos da)).
  apply Z.quot_le_mono; [reflexivity | assumption].
Qed.

Lemma to_int_ordered lo hi x y :
  ordered_in lo hi x y ->
  in_int (Z.quot (Qnum lo) (Zpos (Qden lo))) = true ->
  in_int (Z.quot (Qnum hi) (Zpos (Qden hi))) = true ->
  exists z1 z2, to_int x = Some z1 /\ to_int y = Some z2 /\
    (Z.quot (Qnum lo) (Zpos (Qden lo)) <= z1 /\ z1 <= z2 /\
     z2 <= Z.quot (Qnum hi) (Zpos (Qden hi)))%Z.
Proof.
  intros (a & b & -> & -> & H1 & H2 & H3) Il Ih.
  pose proof (quot_le _ _ H1). pose proof (quot_le _ _ H2). pose proof (quot_le _ _ H3).
  unfold in_int in *. apply andb_true_iff in Il, Ih.
  rewrite !Z.leb_le in Il, Ih.
  eexists. eexists. unfold to_int, in_int.
  replace (INT_MIN <=? Z.quot (Qnum a) (Zpos (Qden a)))%Z with true
    by (symmetry; apply Z.leb_le; lia).
  replace (Z.quot (Qnum a) (Zpos (Qden a)) <=? INT_MAX)%Z with true
    by (symmetry; apply Z.leb_le; lia).
  replace (INT_MIN <=? Z.quot (Qnum b) (Zpos (Qden b)))%Z with true
    by (symmetry; apply Z.leb_le; lia).
  replace (Z.quot (Qnum b) (Zpos (Qden b)) <=? INT_MAX)%Z with true
    by (symmetry; apply Z.leb_le; lia).
  simpl. repeat split; try reflexivity; lia.
Qed.

Lemma fahrenheit_ordered lo hi L1 H1 k L2 H2 L3 H3 L4 H4 x y :
  ordered_in lo hi x y ->
  rnd f64 lo = Fin L1 -> rnd f64 hi = Fin H1 ->
  dbl 1.8 = Fin k -> 0 <= k ->
  rnd f64 (L1 * k) = Fin L2 -> rnd f64 (H1 * k) = Fin H2 ->
  rnd f64 (L2 + 32) = Fin L3 -> rnd f64 (H2 + 32) = Fin H3 ->
  rnd f32 L3 = Fin L4 -> rnd f32 H3 = Fin H4 ->
  ordered_in L4 H4 (fahrenheit x) (fahrenheit y).
Proof.
  intros Hxy E1 E1' Ek Hk E2 E2' E3 E3' E4 E4'. unfold fahrenheit.
  eapply (cast_ordered f32 prec_f32); [|eassumption..].
  eapply (add_ordered f64 prec_f64) with (k := 32); [|ev_eq|eassumption..].
  eapply (mul_r_ordered f64 prec_f64); [|eassumption..].
  eapply (cast_ordered f64 prec_f64); [|eassumption..].
  exact Hxy.
Qed.

Lemma fahrenheit_sensor_range x y :
  ordered_in (- (40)) 125 x y ->
  ordered_in (- (40)) 257 (fahrenheit x) (fahrenheit y).
Proof.
  intros H. eapply fahrenheit_ordered; [exact H | ev..].
Qed.

Lemma fahrenheit_defined q :
  - (40) <= q -> q <= 125 -> exists ti, to_int (fahrenheit (Fin q)) = Some ti.
Proof.
  intros H1 H2.
  assert (Ho : ordered_in (- (40)) 125 (Fin q) (Fin q)).
  { exists q, q. repeat split; try assumption. apply Qle_refl. }
  apply fahrenheit_sensor_range in Ho.
  destruct (to_int_ordered _ _ _ _ Ho) as (t1 & t2 & T1 & T2 & B); [ev_eq..|].
  eauto.
Qed.

(** X6.  On the range of the sensor, -40 to 125 degrees Celsius, the
    Fahrenheit value of line 272 is finite, goes from -40 to 257 and never
    goes down as the Celsius value goes up; the [(int)] of line 273 is
    defined on it and gives display values from -40 to 257 in the same
    order.  Both ends are exact. *)
Theorem fahrenheit_of_the_sensor_range (q1 q2 : Q) :
  - (40) <= q1 -> q1 <= q2 -> q2 <= 125 ->
  (exists f1 f2,
      fahrenheit (Fin q1) = Fin f1 /\ fahrenheit (Fin q2) = Fin f2 /\
      (- (40) <= f1 /\ f1 <= f2 /\ f2 <= 257)) /\
  (exists t1 t2,
      to_int (fahrenheit (Fin q1)) = Some t1 /\
      to_int (fahrenheit (Fin q2)) = Some t2 /\
      (- (40) <= t1 /\ t1 <= t2 /\ t2 <= 257)%Z) /\
  fahrenheit (Fin (- (40))) = Fin (- (40)) /\ fahrenheit (Fin 125) = Fin 257.
Proof.
  intros H1 H2 H3.
  assert (Ho : ordered_in (- (40)) 125 (Fin q1) (Fin q2)).
  { exists q1, q2. repeat split; assumption. }
  apply fahrenheit_sensor_range in Ho.
  split; [|split; [|split; ev_eq]].
  - destruct Ho as (f1 & f2 & E1 & E2 & B). exists f1, f2. tauto.
  - destruct (to_int_ordered _ _ _ _ Ho) as (t1 & t2 & T1 & T2 & B); [ev_eq..|].
    exists t1, t2. split; [assumption|]. split; [assumption|].
    change (Z.quot (Qnum (- (40))) (Zpos (Qden (- (40))))) with (- (40))%Z in B.
    change (Z.quot (Qnum 257) (Zpos (Qden 257))) with 257%Z in B.
    exact B.
Qed.

Lemma fahrenheit_of_the_sensor_range_witness :
  - (40) <= 21.5 /\ 21.5 <= 30 /\ 30 <= 125 /\
  exists t1 t2,
    to_int (fahrenheit (Fin 21.5)) = Some t1 /\
    to_int (fahrenheit (Fin 30)) = Some t2 /\
    (- (40) <= t1 /\ t1 <= t2 /\ t2 <= 257)%Z.
Proof.
  assert (H1 : - (40) <= 21.5) by (intros H; discriminate H).
  assert (H2 : 21.5 <= 30) by (intros H; discriminate H).
  assert (H3 : 30 <= 125) by (intros H; discriminate H).
  split; [exact H1|]. split; [exact H2|]. split; [exact H3|].
  apply (fahrenheit_of_the_sensor_range 21.5 30 H1 H2 H3).
Defined.

End TemperatureFacts.

(** ** The texts read back *)

Module TextFacts.
Import Text Firmware Decode FirmwareFacts.
Local Open Scope string_scope.
Local Open Scope Z_scope.

(** *** Hexadecimal text: a number below [16 ^ n] has at most [n] digits *)

Lemma hex_acc_lower (l : Hexadecimal.uint) : forall acc,
  (Npos acc * 16 ^ N.of_nat (Hexadecimal.nb_digits l) <= Npos (Pos.of_hex_uint_acc l acc))%N.
Proof.
  induction l; intros acc; cbn [Hexadecimal.nb_digits Pos.of_hex_uint_acc];
    [rewrite N.mul_1_r; apply N.le_refl | ..];
    (eapply N.le_trans; [|apply IHl]);
    rewrite Nnat.Nat2N.inj_succ, N.pow_succ_r';
    set (k := (16 ^ N.of_nat (Hexadecimal.nb_digits l))%N); nia.
Qed.

Lemma hex_lower_bound (d : Hexadecimal.uint) :
  Hexadecimal.unorm d = d ->
  (Hexadecimal.nb_digits d <= 1)%nat \/
  (16 ^ N.of_nat (Hexadecimal.nb_digits d - 1) <= N.of_hex_uint d)%N.
Proof.
  intros Hn. destruct d as [|l|l|l|l|l|l|l|l|l|l|l|l|l|l|l|l];
    [left; simpl; lia | |
     right; unfold N.of_hex_uint; cbn [Pos.of_hex_uint Hexadecimal.nb_digits];
     rewrite Nat.sub_succ, Nat.sub_0_r;
     (eapply N.le_trans; [|apply hex_acc_lower]); lia ..].
  left. unfold Hexadecimal.unorm in Hn. cbn [Hexadecimal.nzhead] in Hn.
  pose proof (HexadecimalFacts.nb_digits_nzhead l) as Hl.
  destruct (Hexadecimal.nzhead l) eqn:E;
    [injection Hn as <-; simpl; lia | rewrite Hn in Hl; simpl in Hl; lia ..].
Qed.

Lemma to_hex_uint_digits (n : N) :
  (n < 2 ^ 32)%N -> (Hexadecimal.nb_digits (N.to_hex_uint n) <= 8)%nat.
Proof.
  intros Hn.
  assert (Hu : Hexadecimal.unorm (N.to_hex_uint n) = N.to_hex_uint n).
  { rewrite <- (HexadecimalN.Unsigned.of_to n) at 2.
    rewrite HexadecimalN.Unsigned.to_of. reflexivity. }
  destruct (hex_lower_bound _ Hu) as [H|H]; [lia|].
  rewrite HexadecimalN.Unsigned.of_to in H.
  set (k := Hexadecimal.nb_digits (N.to_hex_uint n)) in *.
  destruct (Nat.le_gt_cases k 8) as [L|L]; [assumption|exfalso].
  assert (P : (16 ^ 8 <= 16 ^ N.of_nat (k - 1))%N).
  { apply N.pow_le_mono_r; lia. }
  change (16 ^ 8)%N with (2 ^ 32)%N in P. lia.
Qed.

Lemma hex_string_length (d : Hexadecimal.uint) :
  String.length (HexadecimalString.NilEmpty.string_of_uint d) = Hexadecimal.nb_digits d.
Proof. induction d; simpl; congruence. Qed.

Lemma hex_length (n : N) : (n < 2 ^ 32)%N -> (String.length (hex n) <= 8)%nat.
Proof.
  intros Hn. pose proof (to_hex_uint_digits n Hn) as H. unfold hex.
  unfold HexadecimalString.NilZero.string_of_uint.
  destruct (N.to_hex_uint n) eqn:E; try (rewrite hex_string_length; exact H).
  simpl. lia.
Qed.

Lemma to_hex_uint_nonnil (n : N) : N.to_hex_uint n <> Hexadecimal.Nil.
Proof.
  destruct n; simpl; [discriminate | apply HexadecimalPos.Unsigned.to_uint_nonnil].
Qed.

(** X7.  [deviceid] is the whole hexadecimal text of the 32-bit chip
    identifier: at most 8 characters, so the 32 bytes of the buffer never
    cut it, and read back as a hexadecimal number it is the chip
    identifier again.  Two chips never share a device identifier, nor a
    topic. *)
Theorem deviceid_reads_back_as_the_chip (chipId : N) :
  (String.length (setup_deviceid chipId) <= 8)%nat /\
  setup_deviceid chipId = hex (chipId mod 2 ^ 32) /\
  chip_of_deviceid (setup_deviceid chipId) = Some (chipId mod 2 ^ 32)%N.
Proof.
  assert (Hm : (chipId mod 2 ^ 32 < 2 ^ 32)%N) by (apply N.mod_lt; discriminate).
  pose proof (hex_length _ Hm) as Hl.
  assert (E : setup_deviceid chipId = hex (chipId mod 2 ^ 32)).
  { unfold setup_deviceid. apply toCharArray_fits. lia. }
  rewrite E. split; [assumption|]. split; [reflexivity|].
  unfold chip_of_deviceid, hex.
  rewrite HexadecimalString.NilZero.usu by apply to_hex_uint_nonnil.
  simpl. rewrite HexadecimalN.Unsigned.of_to. reflexivity.
Qed.

(** *** Decimal text: a number below [10 ^ n] has at most [n] digits *)

Lemma dec_acc_lower (l : Decimal.uint) : forall acc,
  (Npos acc * 10 ^ N.of_nat (Decimal.nb_digits l) <= Npos (Pos.of_uint_acc l acc))%N.
Proof.
  induction l; intros acc; cbn [Decimal.nb_digits Pos.of_uint_acc];
    [rewrite N.mul_1_r; apply N.le_refl | ..];
    (eapply N.le_trans; [|apply IHl]);
    rewrite Nnat.Nat2N.inj_succ, N.pow_succ_r';
    set (k := (10 ^ N.of_nat (Decimal.nb_digits l))%N); nia.
Qed.

Lemma dec_lower_bound (d : Decimal.uint) :
  Decimal.unorm d = d ->
  (Decimal.nb_digits d <= 1)%nat \/
  (10 ^ N.of_nat (Decimal.nb_digits d - 1) <= Pos.of_uint d)%N.
Proof.
  intros Hn. destruct d as [|l|l|l|l|l|l|l|l|l|l];
    [left; simpl; lia | |
     right; cbn [Pos.of_uint Decimal.nb_digits];
     rewrite Nat.sub_succ, Nat.sub_0_r;
     (eapply N.le_trans; [|apply dec_acc_lower]); lia ..].
  left. unfold Decimal.unorm in Hn. cbn [Decimal.nzhead] in Hn.
  pose proof (DecimalFacts.nb_digits_nzhead l) as Hl.
  destruct (Decimal.nzhead l) eqn:E;
    [injection Hn as <-; simpl; lia | rewrite Hn in Hl; simpl in Hl; lia ..].
Qed.

Lemma to_uint_digits (p : positive) :
  (Npos p < 10 ^ 10)%N -> (Decimal.nb_digits (Pos.to_uint p) <= 10)%nat.
Proof.
  intros Hn.
  assert (Hu : Decimal.unorm (Pos.to_uint p) = Pos.to_uint p).
  { pose proof (DecimalPos.Unsigned.to_of (Pos.to_uint p)) as H.
    rewrite DecimalPos.Unsigned.of_to in H. simpl in H. symmetry. exact H. }
  destruct (dec_lower_bound _ Hu) as [H|H]; [lia|].
  rewrite DecimalPos.Unsigned.of_to in H.
  set (k := Decimal.nb_digits (Pos.to_uint p)) in *.
  destruct (Nat.le_gt_cases k 10) as [L|L]; [assumption|exfalso].
  assert (P : (10 ^ 10 <= 10 ^ N.of_nat (k - 1))%N).
  { apply N.pow_le_mono_r; lia. }
  lia.
Qed.

Lemma dec_string_length (d : Decimal.uint) :
  String.length (DecimalString.NilEmpty.string_of_uint d) = Decimal.nb_digits d.
Proof. induction d; simpl; congruence. Qed.

Lemma dec_uint_length (p : positive) :
  (Npos p < 10 ^ 10)%N ->
  (String.length (DecimalString.NilZero.string_of_uint (Pos.to_uint p)) <= 10)%nat.
Proof.
  intros Hn. pose proof (to_uint_digits p Hn) as H.
  unfold DecimalString.NilZero.string_of_uint.
  destruct (Pos.to_uint p) eqn:E; try (rewrite dec_string_length; exact H).
  simpl. lia.
Qed.

Lemma dec_length (z : Z) :
  - 2 ^ 31 <= z <= 2 ^ 31 - 1 -> (String.length (dec z) <= 11)%nat.
Proof.
  intros Hz. unfold dec, DecimalString.NilZero.string_of_int.
  destruct z as [|p|p]; cbn [Z.to_int].
  - simpl. lia.
  - pose proof (dec_uint_length p). assert (Npos p < 10 ^ 10)%N by lia. lia.
  - cbn [String.length].
    pose proof (dec_uint_length p). assert (Npos p < 10 ^ 10)%N by lia. lia.
Qed.

Lemma dec_reads_back (z : Z) : value_of_payload (dec z) = Some z.
Proof.
  unfold value_of_payload, dec.
  rewrite DecimalString.NilZero.isi.
  - simpl. rewrite DecimalZ.of_to. reflexivity.
  - destruct z; simpl; try discriminate.
    intros H. injection H as H. revert H. apply DecimalPos.Unsigned.to_uint_nonnil.
  - destruct z; simpl; try discriminate.
    intros H. injection H as H. revert H. apply DecimalPos.Unsigned.to_uint_nonnil.
Qed.

(** X8.  The payload of an [int] metric ([CO2], [AQI], [PM2],
    [Humidity]) is never cut: the decimal text of an [int] has at most 11
    characters, the copy of 64 bytes keeps all of them, and read back as a
    decimal number the payload is the value, negative ones included. *)
Theorem integer_payload_reads_back (v : Z) :
  Converter.INT_MIN <= v <= Converter.INT_MAX ->
  (String.length (dec v) <= 11)%nat /\
  toCharArray (dec v) 64 = dec v /\
  value_of_payload (toCharArray (dec v) 64) = Some v.
Proof.
  intros Hz. pose proof (dec_length v Hz) as Hl.
  assert (E : toCharArray (dec v) 64 = dec v) by (apply toCharArray_fits; lia).
  rewrite E. repeat split; [assumption | apply dec_reads_back].
Qed.

Lemma integer_payload_reads_back_witness :
  Converter.INT_MIN <= -2147483648 <= Converter.INT_MAX /\
  toCharArray (dec (-2147483648)) 64 = "-2147483648" /\
  value_of_payload (toCharArray (dec (-2147483648)) 64) = Some (-2147483648).
Proof.
  assert (H : Converter.INT_MIN <= -2147483648 <= Converter.INT_MAX)
    by (split; intros E; discriminate E).
  split; [exact H|].
  destruct (integer_payload_reads_back (-2147483648) H) as (_ & E1 & E2).
  split; [exact E1 | exact E2].
Defined.

End TextFacts.

(** ** The timers and the connection supervisor *)

Module SupervisorFacts.
Import FP Converter Text Firmware Traces FirmwareFacts.
Local Open Scope string_scope.
Local Open Scope Z_scope.

(** X9.  The two timers survive the rollover of [millis()]: with the last
    time stamp taken at the time [t0] and the clock read [d] milliseconds
    later, [d] below [2 ^ 32], the test [millis() - last >= interval] says
    whether [interval <= d], also when the 32-bit counter has wrapped
    around in between (after 49.7 days).  The test changes no global and
    does nothing to the outside. *)
Theorem timer_survives_rollover (last : Device -> Z) (interval t0 d : Z) (w : World) :
  last (dev w) = u32 t0 -> shd (clock (env w)) = t0 + d -> 0 <= d < 2 ^ 32 ->
  exists w',
    elapsed last interval w = Ok (interval <=? d) w' /\
    dev w' = dev w /\ out w' = out w.
Proof.
  intros Hl Hc Hd. destruct w as [dv e o]. destruct e. mrun. cbv [shd] in *.
  assert (E : u32 (u32 (clock0 0%nat) - last dv) = d).
  { rewrite Hl, Hc. unfold u32.
    rewrite Zminus_mod_idemp_r, Zminus_mod_idemp_l.
    replace (t0 + d - t0) with d by lia. apply Z.mod_small. assumption. }
  rewrite E. eexists. split; [reflexivity|]. split; reflexivity.
Qed.

Lemma timer_survives_rollover_witness :
  let w := mkWorld (set_msLAST_SAMPLE 4294967000 (boot 11259375))
                   (set_clock (script [4294969704] 0) failing_co2) [] in
  msLAST_SAMPLE (dev w) = u32 4294967000 /\
  shd (clock (env w)) = 4294967000 + 2704 /\
  0 <= 2704 < 2 ^ 32 /\
  u32 (shd (clock (env w))) = 2408 /\
  exists w',
    elapsed msLAST_SAMPLE msSAMPLE_INTERVAL w = Ok true w' /\
    dev w' = dev w /\ out w' = out w.
Proof.
  intros w.
  assert (H1 : msLAST_SAMPLE (dev w) = u32 4294967000) by reflexivity.
  assert (H2 : shd (clock (env w)) = 4294967000 + 2704) by reflexivity.
  assert (H3 : 0 <= 2704 < 2 ^ 32) by (split; [intros E; discriminate E | reflexivity]).
  split; [exact H1|]. split; [exact H2|]. split; [exact H3|].
  split; [reflexivity|].
  exact (timer_survives_rollover msLAST_SAMPLE msSAMPLE_INTERVAL 4294967000 2704 w
           H1 H2 H3).
Defined.

Lemma waited_failed_attempts n r : waited (failed_attempts n r) = 5000 * Z.of_nat n.
Proof.
  revert r. induction n as [|n IH]; intros r; [reflexivity|].
  cbn [failed_attempts waited]. rewrite IH. lia.
Qed.

Lemma waited_app a b : waited (a ++ b) = waited a + waited b.
Proof.
  induction a as [|e a IH]; [reflexivity|].
  destruct e; simpl; rewrite IH; lia.
Qed.

(** [n] failures, then a success. *)
Lemma reconnect_after_failures n : forall fuel w,
  (forall i, (i <= n)%nat -> link (env w) i = false) ->
  link (env w) (S n) = true ->
  (forall i, (i < n)%nat -> conn (env w) i = false) ->
  conn (env w) n = true ->
  exists w',
    reconnect (S n + fuel) w = Ok tt w' /\
    dev w' = dev w /\
    out w' =
      (out w ++ failed_attempts n (rand (env w)) ++
       [Connect (client_id (rand (env w) n mod 65535)%N)])%list.
Proof.
  induction n as [|n IH]; intros fuel w Hl Hl1 Hc Hc1.
  - pose proof (Hl 0%nat (Nat.le_refl _)) as L0.
    split_world w. simpl plus.
    rewrite reconnect_unfold. mrun. cbv [shd stl]. rewrite L0, Hc1. mrun.
    rewrite reconnect_unfold. mrun. cbv [shd stl]. rewrite Hl1.
    eexists. split; [reflexivity|]. mrun. repeat split; reflexivity.
  - pose proof (Hl 0%nat (Nat.le_0_l _)) as L0.
    pose proof (Hc 0%nat (Nat.lt_0_succ _)) as C0.
    split_world w. simpl plus.
    rewrite reconnect_unfold. mrun. cbv [shd stl]. rewrite L0, C0. mrun.
    match goal with
    | |- context [reconnect (S (n + fuel)) ?w1] =>
        destruct (IH fuel w1) as (w' & E & Hd & Ho)
    end; simpl.
    + intros i Hi. apply Hl. lia.
    + exact Hl1.
    + intros i Hi. apply Hc. lia.
    + exact Hc1.
    + simpl in E. rewrite E. exists w'. simpl in *.
      split; [reflexivity|]. split; [assumption|].
      rewrite Ho. rewrite <- !app_assoc. reflexivity.
Qed.

(** Every attempt fails. *)
Lemma reconnect_down fuel : forall w,
  (forall i, link (env w) i = false) -> (forall i, conn (env w) i = false) ->
  exists w',
    reconnect fuel w = OutOfFuel w' /\ dev w' = dev w /\
    out w' = (out w ++ failed_attempts fuel (rand (env w)))%list /\
    (clock (env w') = clock (env w) /\ co2_raw (env w') = co2_raw (env w) /\
     pm2_raw (env w') = pm2_raw (env w) /\ tmp_rh (env w') = tmp_rh (env w) /\
     pub (env w') = pub (env w)).
Proof.
  induction fuel as [|fuel IH]; intros w Hl Hc.
  - pose proof (Hl 0%nat) as L0. split_world w.
    rewrite reconnect_unfold. mrun. cbv [shd stl]. rewrite L0.
    eexists. split; [reflexivity|]. simpl. rewrite app_nil_r.
    repeat split; reflexivity.
  - pose proof (Hl 0%nat) as L0. pose proof (Hc 0%nat) as C0.
    split_world w.
    rewrite reconnect_unfold. mrun. cbv [shd stl]. rewrite L0, C0. mrun.
    match goal with
    | |- context [reconnect fuel ?w1] =>
        destruct (IH w1) as (w' & E & Hd & Ho & He)
    end; simpl.
    + intros i. apply Hl.
    + intros i. apply Hc.
    + rewrite E. exists w'. simpl in *.
      split; [reflexivity|]. split; [assumption|]. split; [|exact He].
      rewrite Ho. rewrite <- !app_assoc. reflexivity.
Qed.

(** X10.  One backoff for each failure: when [client.connect] fails [n]
    times and then succeeds, [reconnect()] returns after [n + 1] attempts,
    each with the identifier of a fresh [random(0xffff)], has waited
    [n] times 5000 ms, not once more, and has changed no global. *)
Theorem one_backoff_for_each_failure (n fuel : nat) (w : World) :
  (forall i, (i <= n)%nat -> link (env w) i = false) ->
  link (env w) (S n) = true ->
  (forall i, (i < n)%nat -> conn (env w) i = false) ->
  conn (env w) n = true ->
  exists w',
    reconnect (S n + fuel) w = Ok tt w' /\
    dev w' = dev w /\
    out w' =
      (out w ++ failed_attempts n (rand (env w)) ++
       [Connect (client_id (rand (env w) n mod 65535)%N)])%list /\
    waited (out w') = waited (out w) + 5000 * Z.of_nat n.
Proof.
  intros Hl Hl1 Hc Hc1.
  destruct (reconnect_after_failures n fuel w Hl Hl1 Hc Hc1) as (w' & E & Hd & Ho).
  exists w'. repeat split; try assumption.
  rewrite Ho, !waited_app, waited_failed_attempts. simpl. lia.
Qed.

Lemma one_backoff_for_each_failure_witness :
  let e := set_link (script [false; false; false] true)
             (set_conn (script [false; false] true)
                (set_rand (script [4660; 70000; 7]%N 0%N) failing_co2)) in
  let w := start 11259375 e in
  (forall i, (i <= 2)%nat -> link (env w) i = false) /\
  link (env w) 3%nat = true /\
  (forall i, (i < 2)%nat -> conn (env w) i = false) /\
  conn (env w) 2%nat = true /\
  exists w',
    reconnect (3 + 0) w = Ok tt w' /\
    out w' = [Connect "airgradient-1234"; Delay 5000;
              Connect "airgradient-1171"; Delay 5000;
              Connect "airgradient-7"] /\
    waited (out w') = 10000.
Proof.
  intros e w.
  assert (H1 : forall i, (i <= 2)%nat -> link (env w) i = false).
  { intros [|[|[|i]]] Hi; try reflexivity. lia. }
  assert (H2 : link (env w) 3%nat = true) by reflexivity.
  assert (H3 : forall i, (i < 2)%nat -> conn (env w) i = false).
  { intros [|[|i]] Hi; try reflexivity. lia. }
  assert (H4 : conn (env w) 2%nat = true) by reflexivity.
  split; [exact H1|]. split; [exact H2|]. split; [exact H3|]. split; [exact H4|].
  destruct (one_backoff_for_each_failure 2 0 w H1 H2 H3 H4) as (w' & E & _ & Ho & Hw).
  exists w'. split; [exact E|]. split; [exact Ho | exact Hw].
Defined.

(** X11.  While the broker refuses every connection, [loop()] does not
    get past [reconnect()]: however many attempts are allowed, the
    iteration is still retrying, and all it has done is connect and wait
    5000 ms, attempt after attempt.  No global changes, the events are the
    failed attempts and nothing else (no display refresh, no publication),
    and no answer has been taken from the clock nor from any of the three
    sensors, nor from [client.publish]: no sensor is read, although the
    sensors and the display do not need the broker. *)
Theorem loop_stays_in_reconnect_while_broker_is_down
    (sof : float -> string) (cfg : Config) (fuel : nat) (w : World) :
  connectWIFI cfg && sendMQTT cfg = true ->
  (forall i, link (env w) i = false) -> (forall i, conn (env w) i = false) ->
  exists w',
    loop sof cfg fuel w = OutOfFuel w' /\
    dev w' = dev w /\
    out w' = (out w ++ failed_attempts fuel (rand (env w)))%list /\
    (clock (env w') = clock (env w) /\ co2_raw (env w') = co2_raw (env w) /\
     pm2_raw (env w') = pm2_raw (env w) /\ tmp_rh (env w') = tmp_rh (env w) /\
     pub (env w') = pub (env w)).
Proof.
  intros Hcfg Hl Hc. unfold loop, connection. rewrite Hcfg.
  pose proof (Hl 0%nat) as L0.
  split_world w. mrun. cbv [shd stl]. rewrite L0.
  match goal with
  | |- context [reconnect fuel ?w1] =>
      destruct (reconnect_down fuel w1) as (w' & E & Hd & Ho & He)
  end; simpl.
  - intros i. apply Hl.
  - intros i. apply Hc.
  - rewrite E. exists w'. simpl in *.
    split; [reflexivity|]. split; [assumption|]. split; [assumption | exact He].
Qed.

Lemma loop_stays_in_reconnect_while_broker_is_down_witness :
  let e := set_link (script [] false) (set_conn (script [] false) failing_co2) in
  let w := start 11259375 e in
  connectWIFI co2_only && sendMQTT co2_only = true /\
  (forall i, link (env w) i = false) /\ (forall i, conn (env w) i = false) /\
  exists w',
    loop (fun _ => "") co2_only 2 w = OutOfFuel w' /\
    dev w' = dev w /\
    out w' = [Connect "airgradient-0"; Delay 5000; Connect "airgradient-0"; Delay 5000] /\
    co2_raw (env w') = co2_raw (env w).
Proof.
  intros e w.
  assert (H1 : connectWIFI co2_only && sendMQTT co2_only = true) by reflexivity.
  assert (H2 : forall i, link (env w) i = false).
  { intros i. simpl. unfold script. destruct i; reflexivity. }
  assert (H3 : forall i, conn (env w) i = false).
  { intros i. simpl. unfold script. destruct i; reflexivity. }
  split; [exact H1|]. split; [exact H2|]. split; [exact H3|].
  destruct (loop_stays_in_reconnect_while_broker_is_down (fun _ => "") co2_only 2 w
              H1 H2 H3) as (w' & E & Hd & Ho & _ & Hs & _).
  exists w'. split; [exact E|]. split; [exact Hd|]. split; [exact Ho | exact Hs].
Defined.

End SupervisorFacts.

(** ** More on the device loop *)

Module RunFacts.
Import FP Converter Text Firmware Traces FPFacts ConverterFacts FirmwareFacts
  TemperatureFacts.
Local Open Scope string_scope.
Local Open Scope Z_scope.

(** *** Computations that are never left in the retry loop, and
    computations that return *)

Lemma unblocked_bind {A B : Type} (m : M A) (k : A -> M B) :
  unblocked m -> (forall a, unblocked (k a)) -> unblocked (bind m k).
Proof.
  intros Hm Hk w w'. unfold bind. specialize (Hm w).
  destruct (m w) as [a w1|w1|w1]; [apply Hk | discriminate | ].
  exfalso. apply (Hm w1). reflexivity.
Qed.

Lemma unblocked_ret {A : Type} (a : A) : unblocked (ret a).
Proof. intros w w'. discriminate. Qed.

Lemma unblocked_when (b : bool) (m : M unit) : unblocked m -> unblocked (when b m).
Proof. intros H. destruct b; [exact H | apply unblocked_ret]. Qed.

Lemma completes_bind {A B : Type} (I : World -> Prop) (m : M A) (k : A -> M B) :
  completes I m -> (forall a, completes I (k a)) -> completes I (bind m k).
Proof.
  intros Hm Hk w H. destruct (Hm w H) as (a & w1 & E & H1).
  unfold bind. rewrite E. apply Hk. assumption.
Qed.

Lemma completes_ret {A : Type} (I : World -> Prop) (a : A) : completes I (ret a).
Proof. intros w H. exists a, w. split; [reflexivity | assumption]. Qed.

Lemma completes_when (I : World -> Prop) (b : bool) (m : M unit) :
  completes I m -> completes I (when b m).
Proof. intros H. destruct b; [exact H | apply completes_ret]. Qed.

Section Runs.

Variable sof : float -> string.
Variable cfg : Config.

(** *** What each part of [loop] leaves alone *)

Lemma elapsed_env last interval w :
  elapsed last interval w =
    Ok (interval <=? u32 (u32 (shd (clock (env w))) - last (dev w)))
       (mkWorld (dev w) (set_clock (stl (clock (env w))) (env w)) (out w)).
Proof. destruct w as [d e o]. destruct e. mrun. reflexivity. Qed.

Lemma publish_env w :
  let w' := world_of (publish sof cfg w) in
  link (env w') = link (env w) /\ conn (env w') = conn (env w) /\
  rand (env w') = rand (env w) /\ co2_raw (env w') = co2_raw (env w) /\
  pm2_raw (env w') = pm2_raw (env w) /\ tmp_rh (env w') = tmp_rh (env w).
Proof.
  destruct cfg as [c p s wf mq]. split_world w.
  destruct c, p, s; mrun; repeat split; reflexivity.
Qed.

Lemma sample_env w :
  let w' := world_of (sample cfg w) in
  link (env w') = link (env w) /\ conn (env w') = conn (env w) /\
  rand (env w') = rand (env w) /\ pub (env w') = pub (env w) /\
  (pm2_raw (env w') = pm2_raw (env w) \/ pm2_raw (env w') = stl (pm2_raw (env w))) /\
  (tmp_rh (env w') = tmp_rh (env w) \/ tmp_rh (env w') = stl (tmp_rh (env w))) /\
  deviceid (dev w') = deviceid (dev w) /\
  topic_prefix (dev w') = mqtt_topic_root ++ "/" ++ deviceid (dev w) ++ "/" /\
  (out w' = out w \/ exists l1 l2 l3 l4 l5, out w' = (out w ++ [Lcd l1 l2 l3 l4 l5])%list) /\
  (forall w1, sample cfg w <> OutOfFuel w1).
Proof.
  destruct cfg as [c p s wf mq]. split_world w.
  destruct c, p, s; mrun;
    repeat match goal with
      | |- context [pm25toAQI ?v] => destruct (pm25toAQI v)
      | |- context [to_int ?v] => destruct (to_int v)
      end;
    repeat split; auto; try (right; repeat eexists; reflexivity);
    intros w1 H; discriminate H.
Qed.

Lemma reconnect_env fuel : forall w,
  let w' := world_of (reconnect fuel w) in
  clock (env w') = clock (env w) /\ co2_raw (env w') = co2_raw (env w) /\
  pm2_raw (env w') = pm2_raw (env w) /\ tmp_rh (env w') = tmp_rh (env w) /\
  pub (env w') = pub (env w).
Proof.
  induction fuel as [|fuel IH]; intros w; rewrite reconnect_unfold;
    split_world w; mrun.
  - destruct (shd link0); simpl; repeat split; reflexivity.
  - destruct (shd link0).
    + simpl. repeat split; reflexivity.
    + destruct (shd conn0);
        match goal with
        | |- context [reconnect fuel ?w1] =>
            destruct (IH w1) as (H1 & H2 & H3 & H4 & H5)
        end; mrun; simpl in *; repeat split; assumption.
Qed.

Lemma connection_env fuel w :
  let w' := world_of (connection cfg fuel w) in
  clock (env w') = clock (env w) /\ co2_raw (env w') = co2_raw (env w) /\
  pm2_raw (env w') = pm2_raw (env w) /\ tmp_rh (env w') = tmp_rh (env w) /\
  pub (env w') = pub (env w).
Proof.
  unfold connection, when.
  destruct (connectWIFI cfg && sendMQTT cfg).
  - split_world w. mrun. destruct (shd link0).
    + simpl. repeat split; reflexivity.
    + match goal with
      | |- context [reconnect fuel ?w1] =>
          destruct (reconnect_env fuel w1) as (H1 & H2 & H3 & H4 & H5);
          destruct (reconnect fuel w1) as [[] w2|w2|w2]
      end; destruct w2 as [d2 e2 o2]; simpl in *; repeat split; assumption.
  - simpl. repeat split; reflexivity.
Qed.

(** *** Offline *)

Lemma offline_refl w : offline w w.
Proof.
  repeat split; try reflexivity. exists []. rewrite app_nil_r. split; constructor.
Qed.

Lemma offline_trans w1 w2 w3 : offline w1 w2 -> offline w2 w3 -> offline w1 w3.
Proof.
  intros ((e1 & O1 & F1) & L1 & C1 & P1 & R1) ((e2 & O2 & F2) & L2 & C2 & P2 & R2).
  repeat split; try congruence.
  exists (e1 ++ e2)%list. rewrite O2, O1, app_assoc. split; [reflexivity|].
  apply Forall_app. split; assumption.
Qed.

Lemma offline_step {A : Type} (m : M A) w0 :
  (forall w, offline w (world_of (m w))) -> preserves (offline w0) m.
Proof. intros H w H0. eapply offline_trans; [exact H0 | apply H]. Qed.

Lemma offline_elapsed last interval w0 : preserves (offline w0) (elapsed last interval).
Proof.
  apply offline_step. intros w. rewrite elapsed_env. simpl.
  repeat split; try reflexivity. exists []. rewrite app_nil_r. split; constructor.
Qed.

Lemma offline_sample w0 : preserves (offline w0) (sample cfg).
Proof.
  apply offline_step. intros w.
  destruct (sample_env w) as (L & C & R & P & _ & _ & _ & _ & O & _).
  repeat split; try assumption.
  destruct O as [O | (l1 & l2 & l3 & l4 & l5 & O)]; rewrite O.
  - exists []. rewrite app_nil_r. split; constructor.
  - eexists. split; [reflexivity|]. repeat constructor.
Qed.

Lemma offline_loop fuel w0 :
  connectWIFI cfg && sendMQTT cfg = false -> preserves (offline w0) (loop sof cfg fuel).
Proof.
  intros Hc. unfold loop, connection. rewrite Hc. unfold when at 1.
  apply preserves_bind; [apply preserves_ret | intros _].
  apply preserves_bind; [apply offline_elapsed | intros due].
  apply preserves_bind; [apply preserves_when, offline_sample | intros _].
  apply preserves_ret.
Qed.

Lemma unblocked_elapsed last interval : unblocked (elapsed last interval).
Proof. intros w w'. rewrite elapsed_env. discriminate. Qed.

Lemma unblocked_sample : unblocked (sample cfg).
Proof. intros w w'. apply sample_env. Qed.

Lemma unblocked_loop fuel :
  connectWIFI cfg && sendMQTT cfg = false -> unblocked (loop sof cfg fuel).
Proof.
  intros Hc. unfold loop, connection. rewrite Hc. unfold when at 1.
  apply unblocked_bind; [apply unblocked_ret | intros _].
  apply unblocked_bind; [apply unblocked_elapsed | intros due].
  apply unblocked_bind; [apply unblocked_when, unblocked_sample | intros _].
  apply unblocked_ret.
Qed.

(** X12.  With WiFi or MQTT switched off the device never uses the
    transport: in any number of [loop()] iterations it connects to nothing,
    publishes nothing, waits for nothing and draws no random number; all it
    does to the outside is refresh the display.  It is never left in a
    retry loop. *)
Theorem without_mqtt_the_transport_is_never_used (fuel n : nat) (w : World) :
  connectWIFI cfg && sendMQTT cfg = false ->
  offline w (world_of (run sof cfg fuel n w)) /\
  forall w', run sof cfg fuel n w <> OutOfFuel w'.
Proof.
  intros Hc. split.
  - assert (H : preserves (offline w) (run sof cfg fuel n)).
    { induction n as [|n IH]; simpl; [apply preserves_ret|].
      apply preserves_bind; [apply offline_loop; assumption | intros _; exact IH]. }
    apply H, offline_refl.
  - assert (H : unblocked (run sof cfg fuel n)).
    { induction n as [|n IH]; simpl; [apply unblocked_ret|].
      apply unblocked_bind; [apply unblocked_loop; assumption | intros _; exact IH]. }
    apply H.
Qed.

(** *** Progress *)

Lemma sane_tail w e' o' d' :
  sane w ->
  (forall i, link e' i = true) ->
  (pm2_raw e' = pm2_raw (env w) \/ pm2_raw e' = stl (pm2_raw (env w))) ->
  (tmp_rh e' = tmp_rh (env w) \/ tmp_rh e' = stl (tmp_rh (env w))) ->
  sane (mkWorld d' e' o').
Proof.
  intros (Hl & Hp & Ht) Hl' Ep Et. unfold sane. simpl. split; [assumption|]. split.
  - destruct Ep as [-> | ->]; intros i; [apply Hp | apply (Hp (S i))].
  - destruct Et as [-> | ->]; intros i; [apply Ht | apply (Ht (S i))].
Qed.

Lemma completes_connection fuel : completes sane (connection cfg fuel).
Proof.
  intros w H. pose proof H as (Hl & Hp & Ht). unfold connection, when.
  destruct (connectWIFI cfg && sendMQTT cfg).
  - pose proof (Hl 0%nat) as L0. split_world w. mrun. cbv [shd] in *. rewrite L0.
    eexists. eexists. split; [reflexivity|].
    apply (sane_tail _ _ _ _ H); simpl; auto.
    intros i. apply (Hl (S i)).
  - exists tt, w. split; [reflexivity | assumption].
Qed.

Lemma completes_elapsed last interval : completes sane (elapsed last interval).
Proof.
  intros w H. rewrite elapsed_env. eexists. eexists. split; [reflexivity|].
  apply (sane_tail _ _ _ _ H); simpl; auto. apply H.
Qed.

Lemma completes_sample : completes sane (sample cfg).
Proof.
  intros w H. pose proof H as (Hl & Hp & Ht).
  destruct (sample_total cfg w) as [w' E].
  - intros _. apply (Hp 0%nat).
  - intros _. destruct (Ht 0%nat) as (q & Eq & B1 & B2). unfold shd. rewrite Eq.
    destruct (fahrenheit_defined q B1 B2) as [ti ->]. discriminate.
  - exists tt, w'. split; [assumption|].
    destruct (sample_env w) as (L & _ & _ & _ & Ep & Et & _). rewrite E in *. simpl in *.
    destruct w' as [d' e' o']. apply (sane_tail _ _ _ _ H); simpl in *; auto.
    rewrite L. assumption.
Qed.

Lemma completes_publish : completes sane (publish sof cfg).
Proof.
  intros w H. destruct (publish_run sof cfg w) as (w' & E & _).
  exists tt, w'. split; [assumption|].
  destruct (publish_env w) as (L & _ & _ & _ & Ep & Et). rewrite E in *. simpl in *.
  destruct w' as [d' e' o']. apply (sane_tail _ _ _ _ H); simpl in *; auto.
  rewrite L. apply H.
Qed.

(** *** The display lines and the globals *)

Lemma shown_sample w : shown (dev (world_of (sample cfg w))).
Proof.
  destruct cfg as [c p s wf mq]. split_world w.
  destruct c, p, s; mrun;
    repeat (match goal with
      | |- context [pm25toAQI ?v] => destruct (pm25toAQI v) eqn:?
      | |- context [to_int ?v] => destruct (to_int v) eqn:?
      end; mrun);
    unfold shown; mrun;
    repeat match goal with
      | H : pm25toAQI ?v = _ |- context [pm25toAQI ?v] => rewrite H
      end;
    repeat split; eauto 6.
Qed.

Lemma shown_same w w' :
  ln1 (dev w') = ln1 (dev w) /\ ln2 (dev w') = ln2 (dev w) /\
  ln3 (dev w') = ln3 (dev w) /\ ln4 (dev w') = ln4 (dev w) /\
  ln5 (dev w') = ln5 (dev w) ->
  CO2 (dev w') = CO2 (dev w) /\ PM2 (dev w') = PM2 (dev w) /\
  Firmware.AQI (dev w') = Firmware.AQI (dev w) /\
  Humidity (dev w') = Humidity (dev w) /\
  Temperature (dev w') = Temperature (dev w) ->
  shown (dev w) -> shown (dev w').
Proof.
  intros (L1 & L2 & L3 & L4 & L5) (G1 & G2 & G3 & G4 & G5). unfold shown.
  rewrite L1, L2, L3, L4, L5, G1, G2, G3, G4, G5. tauto.
Qed.

Lemma shown_loop fuel : preserves (fun w => shown (dev w)) (loop sof cfg fuel).
Proof.
  unfold loop.
  apply preserves_bind; [|intros _].
  { intros w H. destruct (connection_any cfg fuel w) as (Hd & _). rewrite Hd. exact H. }
  apply preserves_bind; [|intros due].
  { intros w H. rewrite elapsed_env. exact H. }
  apply preserves_bind; [|intros _].
  { apply preserves_when. intros w _. apply shown_sample. }
  destruct (connectWIFI cfg && sendMQTT cfg); [|apply preserves_ret].
  apply preserves_bind; [|intros due'].
  { intros w H. rewrite elapsed_env. exact H. }
  apply preserves_when. intros w H.
  destruct (publish_run sof cfg w) as (w' & E & _ & _ & _ & _ & L & G).
  rewrite E. simpl. apply (shown_same w w'); assumption.
Qed.

(** X14.  The display lines agree with the globals at every point of
    every execution: each line is empty or it is the text of the global
    that the next publishing pass sends ([CO2], [PM2], [AQI], [Humidity],
    the integer part of [Temperature]), and when line 3 has an index,
    [AQI] is the converter's index of [PM2].  What the display says and
    what is published never differ. *)
Theorem display_lines_agree_with_the_globals (fuel n : nat) (w : World) :
  shown (dev w) -> shown (dev (world_of (run sof cfg fuel n w))).
Proof.
  revert w. change (preserves (fun w => shown (dev w)) (run sof cfg fuel n)).
  induction n as [|n IH]; simpl; [apply preserves_ret|].
  apply preserves_bind; [apply shown_loop | intros _; exact IH].
Qed.

(** *** [AQI] is the index of [PM2] *)

Lemma indexed_same w w' :
  pm2_raw (env w') = pm2_raw (env w) ->
  PM2 (dev w') = PM2 (dev w) -> Firmware.AQI (dev w') = Firmware.AQI (dev w) ->
  indexed w -> indexed w'.
Proof. intros E1 E2 E3 [H1 H2]. unfold indexed. rewrite E1, E2, E3. split; assumption. Qed.

Lemma indexed_sample : preserves indexed (sample cfg).
Proof.
  intros w [Hp Hi].
  assert (T : exists a, pm25toAQI (returned (shd (pm2_raw (env w)))) = Some a).
  { apply pm25toAQI_total. apply (Hp 0%nat). }
  destruct T as [a T].
  assert (Hp' : forall i, in_int (returned (stl (pm2_raw (env w)) i)) = true).
  { intros i. apply (Hp (S i)). }
  destruct cfg as [c p s wf mq]. split_world w. mrun.
  destruct c, p, s; mrun; rewrite ?T; mrun;
    repeat (match goal with
      | |- context [to_int ?v] => destruct (to_int v)
      end; mrun);
    unfold indexed; mrun; split; assumption.
Qed.

Lemma indexed_loop fuel : preserves indexed (loop sof cfg fuel).
Proof.
  unfold loop.
  apply preserves_bind; [|intros _].
  { intros w H. destruct (connection_any cfg fuel w) as (Hd & _).
    destruct (connection_env fuel w) as (_ & _ & Hp & _).
    apply (indexed_same w); try assumption; rewrite Hd; reflexivity. }
  apply preserves_bind; [|intros due].
  { intros w H. rewrite elapsed_env. apply (indexed_same w); auto. }
  apply preserves_bind; [apply preserves_when, indexed_sample | intros _].
  destruct (connectWIFI cfg && sendMQTT cfg); [|apply preserves_ret].
  apply preserves_bind; [|intros due'].
  { intros w H. rewrite elapsed_env. apply (indexed_same w); auto. }
  apply preserves_when. intros w H.
  destruct (publish_env w) as (_ & _ & _ & _ & Hp & _).
  destruct (publish_run sof cfg w) as (w' & E & _ & _ & _ & _ & _ & _ & G2 & G3 & _).
  rewrite E in *. simpl in *. apply (indexed_same w); assumption.
Qed.

(** X15.  [AQI] and [PM2] stay in step: as long as the PM driver hands
    back [int] values, [AQI] is the converter's index of [PM2] at every
    point of every execution, so the [aqi] and [pm25] payloads of a
    publishing pass always belong together. *)
Theorem index_and_concentration_stay_in_step (fuel n : nat) (w : World) :
  (forall i, in_int (returned (pm2_raw (env w) i)) = true) ->
  pm25toAQI (PM2 (dev w)) = Some (Firmware.AQI (dev w)) ->
  let w' := world_of (run sof cfg fuel n w) in
  pm25toAQI (PM2 (dev w')) = Some (Firmware.AQI (dev w')).
Proof.
  intros Hp Hi.
  assert (P : preserves indexed (run sof cfg fuel n)).
  { induction n as [|n IH]; simpl; [apply preserves_ret|].
    apply preserves_bind; [apply indexed_loop | intros _; exact IH]. }
  apply (P w). split; assumption.
Qed.

(** *** What is published *)

Lemma topic_of_prefix id metric :
  (mqtt_topic_root ++ "/" ++ id ++ "/") ++ metric = topic_of id metric.
Proof.
  unfold topic_of, mqtt_topic_root. simpl. rewrite ?append_assoc. reflexivity.
Qed.

Lemma publication_well d id payload metric :
  deviceid d = id -> (String.length id <= 31)%nat ->
  topic_prefix d = "" \/ topic_prefix d = mqtt_topic_root ++ "/" ++ id ++ "/" ->
  In metric metrics ->
  well_published id (publication d payload metric) /\
  (topic_prefix d = mqtt_topic_root ++ "/" ++ id ++ "/" ->
   addressed id (publication d payload metric)).
Proof.
  intros Hid Hlen Hp Hm. unfold publication.
  assert (Hfit : toCharArray (topic_prefix d ++ metric) 64 = topic_prefix d ++ metric).
  { apply topic_fits; [rewrite Hid; assumption | rewrite Hid; assumption |].
    simpl in Hm. repeat (destruct Hm as [<- | Hm]; [simpl; lia|]). contradiction. }
  rewrite Hfit. split.
  - simpl. split; [reflexivity|]. split.
    + pose proof (toCharArray_length payload 64). lia.
    + exists metric. split; [assumption|].
      destruct Hp as [-> | ->]; [right; reflexivity | left; apply topic_of_prefix].
  - intros ->. simpl. exists metric. split; [assumption | apply topic_of_prefix].
Qed.

Lemma publications_well d id :
  deviceid d = id -> (String.length id <= 31)%nat ->
  topic_prefix d = "" \/ topic_prefix d = mqtt_topic_root ++ "/" ++ id ++ "/" ->
  Forall (well_published id) (publications sof cfg d) /\
  (topic_prefix d = mqtt_topic_root ++ "/" ++ id ++ "/" ->
   Forall (addressed id) (publications sof cfg d)).
Proof.
  intros Hid Hlen Hp.
  assert (H : forall payload metric, In metric metrics ->
            well_published id (publication d payload metric) /\
            (topic_prefix d = mqtt_topic_root ++ "/" ++ id ++ "/" ->
             addressed id (publication d payload metric))).
  { intros. apply publication_well; assumption. }
  unfold publications.
  split; [|intros Hfull];
    destruct (hasCO2 cfg), (hasPM cfg), (hasSHT cfg); simpl;
    repeat (apply Forall_cons || apply Forall_nil);
    apply H; first [assumption | simpl; auto 10].
Qed.

(** Events that are no publication. *)
Lemma connecting_published id evs :
  Forall connecting evs ->
  Forall (well_published id) evs /\ Forall (addressed id) evs.
Proof.
  intros H. split; eapply Forall_impl; try exact H;
    intros [] Hc; simpl in *; auto; contradiction.
Qed.

Lemma publishing_connection id P fuel :
  (forall evs, Forall connecting evs -> Forall P evs) ->
  preserves (publishing id P) (connection cfg fuel).
Proof.
  intros HP w (I1 & I2 & I3 & I4).
  destruct (connection_any cfg fuel w) as (Hd & evs & Ho & Hc).
  unfold publishing. rewrite Hd, Ho. repeat split; try assumption.
  apply Forall_app. split; [assumption | apply HP; assumption].
Qed.

Lemma publishing_elapsed id P last interval :
  preserves (publishing id P) (elapsed last interval).
Proof. intros w H. rewrite elapsed_env. exact H. Qed.

Lemma publishing_sample id P :
  (forall l1 l2 l3 l4 l5, P (Lcd l1 l2 l3 l4 l5)) ->
  forall w, publishing id P w ->
    publishing id P (world_of (sample cfg w)) /\
    topic_prefix (dev (world_of (sample cfg w))) = mqtt_topic_root ++ "/" ++ id ++ "/".
Proof.
  intros HP w (I1 & I2 & I3 & I4).
  destruct (sample_env w) as (_ & _ & _ & _ & _ & _ & Hid & Htp & Ho & _).
  unfold publishing. rewrite Hid, Htp, I1.
  repeat split; try assumption; try (right; reflexivity).
  destruct Ho as [-> | (l1 & l2 & l3 & l4 & l5 & ->)]; [assumption|].
  apply Forall_app. split; [assumption | repeat constructor; apply HP].
Qed.

Lemma well_published_loop id fuel :
  preserves (publishing id (well_published id)) (loop sof cfg fuel).
Proof.
  unfold loop.
  apply preserves_bind; [|intros _].
  { apply publishing_connection. intros evs H. apply connecting_published. assumption. }
  apply preserves_bind; [apply publishing_elapsed | intros due].
  apply preserves_bind; [|intros _].
  { apply preserves_when. intros w H. apply publishing_sample; [|assumption].
    intros; exact I. }
  destruct (connectWIFI cfg && sendMQTT cfg); [|apply preserves_ret].
  apply preserves_bind; [apply publishing_elapsed | intros due'].
  apply preserves_when. intros w (I1 & I2 & I3 & I4).
  destruct (publish_run sof cfg w) as (w' & E & Ho & _ & _ & (Hid & Htp & _) & _).
  rewrite E. simpl. unfold publishing. rewrite Hid, Htp, Ho.
  repeat split; try assumption.
  apply Forall_app. split; [assumption|]. apply publications_well; assumption.
Qed.

(** The same once the prefix is there. *)
Lemma addressed_loop id fuel :
  preserves (fun w => publishing id (addressed id) w /\
                      topic_prefix (dev w) = mqtt_topic_root ++ "/" ++ id ++ "/")
            (loop sof cfg fuel).
Proof.
  unfold loop.
  apply preserves_bind; [|intros _].
  { intros w [H Hp]. split.
    - apply publishing_connection; [|assumption].
      intros evs Hc. apply connecting_published. assumption.
    - destruct (connection_any cfg fuel w) as (Hd & _). rewrite Hd. assumption. }
  apply preserves_bind; [|intros due].
  { intros w H. rewrite elapsed_env. exact H. }
  apply preserves_bind; [|intros _].
  { apply preserves_when. intros w [H _]. apply publishing_sample; [|assumption].
    intros; exact I. }
  destruct (connectWIFI cfg && sendMQTT cfg); [|apply preserves_ret].
  apply preserves_bind; [|intros due'].
  { intros w H. rewrite elapsed_env. exact H. }
  apply preserves_when. intros w [(I1 & I2 & I3 & I4) Hp].
  destruct (publish_run sof cfg w) as (w' & E & Ho & _ & _ & (Hid & Htp & _) & _).
  rewrite E. simpl. unfold publishing. rewrite Hid, Htp, Ho.
  repeat split; try assumption.
  apply Forall_app. split; [assumption|]. apply publications_well; assumption.
Qed.

Lemma run_preserves (I : World -> Prop) fuel n :
  (forall fuel, preserves I (loop sof cfg fuel)) -> preserves I (run sof cfg fuel n).
Proof.
  intros H. induction n as [|n IH]; simpl; [apply preserves_ret|].
  apply preserves_bind; [apply H | intros _; exact IH].
Qed.

(** The first iteration samples when 2500 ms have passed since the boot;
    from then on the prefix is there. *)
Lemma first_loop id fuel w :
  publishing id (addressed id) w -> msLAST_SAMPLE (dev w) = 0 ->
  2500 <= u32 (clock (env w) 0%nat) ->
  match loop sof cfg fuel w with
  | Ok _ w' => publishing id (addressed id) w' /\
               topic_prefix (dev w') = mqtt_topic_root ++ "/" ++ id ++ "/"
  | Undefined w' | OutOfFuel w' => Forall (addressed id) (out w')
  end.
Proof.
  intros H Hs Hc. unfold loop. unfold bind at 1.
  pose proof (publishing_connection id (addressed id) fuel
                (fun evs Hc => proj2 (connecting_published id evs Hc)) w H) as H1.
  destruct (connection_any cfg fuel w) as (Hd & _).
  destruct (connection_env fuel w) as (Hck & _).
  destruct (connection cfg fuel w) as [[] w1|w1|w1]; simpl in *; try apply H1.
  unfold bind at 1. rewrite elapsed_env.
  replace (msSAMPLE_INTERVAL <=? u32 (u32 (shd (clock (env w1))) - msLAST_SAMPLE (dev w1)))
    with true.
  2:{ symmetry. apply Z.leb_le. rewrite Hd, Hs, Hck, Z.sub_0_r. unfold shd, u32 in *.
      rewrite Z.mod_mod by discriminate. exact Hc. }
  unfold when at 1. unfold bind at 1.
  match goal with
  | |- context [sample cfg ?w2] =>
      destruct (publishing_sample id (addressed id) (fun _ _ _ _ _ => I) w2) as [S1 S2];
      [exact H1|]; destruct (sample cfg w2) as [[] w3|w3|w3]; simpl in *; try apply S1
  end.
  assert (H3 : publishing id (addressed id) w3 /\
               topic_prefix (dev w3) = mqtt_topic_root ++ "/" ++ id ++ "/")
    by (split; assumption).
  clear - H3.
  assert (P : preserves
    (fun w => publishing id (addressed id) w /\
              topic_prefix (dev w) = mqtt_topic_root ++ "/" ++ id ++ "/")
    (if connectWIFI cfg && sendMQTT cfg
     then due <- elapsed msLAST_METRIC msPUBLISH_INTERVAL ;; when due (publish sof cfg)
     else ret tt)).
  { destruct (connectWIFI cfg && sendMQTT cfg); [|apply preserves_ret].
    apply preserves_bind; [|intros due'].
    { intros w H. rewrite elapsed_env. exact H. }
    apply preserves_when. intros w [(I1 & I2 & I3 & I4) Hp].
    destruct (publish_run sof cfg w) as (w' & E & Ho & _ & _ & (Hid & Htp & _) & _).
    rewrite E. simpl. unfold publishing. rewrite Hid, Htp, Ho.
    repeat split; try assumption.
    apply Forall_app. split; [assumption|]. apply publications_well; assumption. }
  specialize (P w3 H3).
  destruct (if connectWIFI cfg && sendMQTT cfg
            then due <- elapsed msLAST_METRIC msPUBLISH_INTERVAL ;; when due (publish sof cfg)
            else ret tt) as [[] w4|w4|w4] eqn:E; simpl in P.
  - exact P.
  - apply P.
  - apply P.
Qed.

(** X16.  Every publication of every execution is retained, its payload
    fits the 64 bytes it is copied to, and its topic is the whole
    [airgradient/<deviceid>/<metric>] of one of the five metrics, never
    cut by the 64 bytes of the topic copy; the only other topic is the bare
    name of the metric, for a publishing pass that comes before the first
    sampling pass.  That does not happen when the first [millis()] that
    [loop()] reads is at least 2500, as it is after the 4000 ms that
    [setup()] waits: then every topic is the whole one. *)
Theorem publications_are_retained_and_addressed (chipId : N) (e : Env) (fuel n : nat) :
  let id := setup_deviceid chipId in
  let w' := world_of (run sof cfg fuel n (start chipId e)) in
  Forall (well_published id) (out w') /\
  (2500 <= u32 (clock e 0%nat) -> Forall (addressed id) (out w')).
Proof.
  intros id w'.
  assert (H0 : forall P, publishing id P (start chipId e)).
  { intros P. unfold publishing, start. simpl. repeat split.
    - apply setup_deviceid_length.
    - left. reflexivity.
    - constructor. }
  split.
  - apply (run_preserves (publishing id (well_published id)) fuel n
             (well_published_loop id) _ (H0 _)).
  - intros Hc. unfold w'. destruct n as [|n]; [constructor|].
    simpl. unfold bind.
    pose proof (first_loop id fuel (start chipId e) (H0 _) eq_refl Hc) as F.
    destruct (loop sof cfg fuel (start chipId e)) as [[] w1|w1|w1]; simpl; try exact F.
    apply (run_preserves _ fuel n (addressed_loop id) _ F).
Qed.

(** *** A temperature that is no number *)

Lemma fahrenheit_nonfinite x :
  (forall q, x <> Fin q) -> fahrenheit x = x /\ to_int (fahrenheit x) = None.
Proof.
  intros H. destruct x as [q|s|]; [exfalso; apply (H q); reflexivity | |].
  - destruct s; split; vm_compute; reflexivity.
  - split; vm_compute; reflexivity.
Qed.

(** X17.  A temperature that is no number has no defined conversion:
    when the driver hands back a NaN or an infinity, the product and the
    sum of line 272 leave it as it is, [Temperature] takes that value, and
    [(int)Temperature] on line 273 converts a value that is not finite,
    for which C++ defines no result.  The sampling pass gets as far as that
    conversion, and what it does from there on is not defined. *)
Theorem temperature_that_is_no_number_is_undefined (w : World) :
  hasSHT cfg = true ->
  (hasPM cfg = true -> in_int (returned (shd (pm2_raw (env w)))) = true) ->
  (forall q, t (returned (shd (tmp_rh (env w)))) <> Fin q) ->
  exists w',
    sample cfg w = Undefined w' /\
    Temperature (dev w') = t (returned (shd (tmp_rh (env w)))) /\
    Humidity (dev w') = rh (returned (shd (tmp_rh (env w)))) /\
    (forall q, Temperature (dev w') <> Fin q) /\
    to_int (Temperature (dev w')) = None.
Proof.
  intros Hs Hp Hn.
  destruct (fahrenheit_nonfinite _ Hn) as [F1 F2].
  assert (T : hasPM cfg = true ->
              exists a, pm25toAQI (returned (shd (pm2_raw (env w)))) = Some a).
  { intros E. apply pm25toAQI_total. apply Hp. assumption. }
  destruct cfg as [c p s wf mq]. split_world w. mrun. subst s.
  destruct c, p; mrun; try (destruct (T eq_refl) as [a ->]); mrun;
    rewrite F2; mrun; rewrite F1;
    eexists; (split; [reflexivity|]); mrun;
    (split; [reflexivity|]); (split; [reflexivity|]);
    (split; [exact Hn|]); rewrite <- F1; exact F2.
Qed.

(** *** A connected device does not wait *)

Lemma calm_connection fuel w0 :
  completes (fun w => sane w /\ exists evs, out w = (out w0 ++ evs)%list /\ Forall calm evs)
            (connection cfg fuel).
Proof.
  intros w [H (evs & Ho & Hc)]. pose proof H as (Hl & Hp & Ht). unfold connection, when.
  destruct (connectWIFI cfg && sendMQTT cfg).
  - pose proof (Hl 0%nat) as L0. split_world w. mrun. cbv [shd] in *. rewrite L0.
    eexists. eexists. split; [reflexivity|]. split.
    + apply (sane_tail _ _ _ _ H); simpl; auto. intros i. apply (Hl (S i)).
    + mrun. exists (evs ++ [ClientLoop])%list. rewrite Ho, app_assoc.
      split; [reflexivity|]. apply Forall_app. split; [assumption|].
      repeat constructor.
  - exists tt, w. split; [reflexivity|]. split; [assumption|]. eauto.
Qed.

Lemma calm_step {A : Type} (m : M A) w0 :
  completes sane m ->
  (forall w, exists evs, out (world_of (m w)) = (out w ++ evs)%list /\ Forall calm evs) ->
  completes (fun w => sane w /\ exists evs, out w = (out w0 ++ evs)%list /\ Forall calm evs) m.
Proof.
  intros Hc Ha w [H (evs & Ho & Hf)].
  destruct (Hc w H) as (a & w' & E & H').
  destruct (Ha w) as (evs' & Ho' & Hf'). rewrite E in Ho'. simpl in Ho'.
  exists a, w'. split; [assumption|]. split; [assumption|].
  exists (evs ++ evs')%list. rewrite Ho', Ho, app_assoc. split; [reflexivity|].
  apply Forall_app. split; assumption.
Qed.

Lemma calm_loop fuel w0 :
  completes (fun w => sane w /\ exists evs, out w = (out w0 ++ evs)%list /\ Forall calm evs)
            (loop sof cfg fuel).
Proof.
  unfold loop.
  apply completes_bind; [apply calm_connection | intros _].
  apply completes_bind; [|intros due].
  { apply calm_step; [apply completes_elapsed|].
    intros w. rewrite elapsed_env. exists []. simpl. rewrite app_nil_r.
    split; [reflexivity | constructor]. }
  apply completes_bind; [|intros _].
  { apply completes_when. apply calm_step; [apply completes_sample|].
    intros w. destruct (sample_env w) as (_ & _ & _ & _ & _ & _ & _ & _ & Ho & _).
    destruct Ho as [-> | (l1 & l2 & l3 & l4 & l5 & ->)].
    - exists []. rewrite app_nil_r. split; [reflexivity | constructor].
    - eexists. split; [reflexivity|]. repeat constructor. }
  destruct (connectWIFI cfg && sendMQTT cfg); [|apply completes_ret].
  apply completes_bind; [|intros due'].
  { apply calm_step; [apply completes_elapsed|].
    intros w. rewrite elapsed_env. exists []. simpl. rewrite app_nil_r.
    split; [reflexivity | constructor]. }
  apply completes_when. apply calm_step; [apply completes_publish|].
  intros w. destruct (publish_run sof cfg w) as (w' & E & Ho & _).
  rewrite E. simpl. exists (publications sof cfg (dev w)). split; [assumption|].
  unfold publications, publication.
  destruct (hasCO2 cfg), (hasPM cfg), (hasSHT cfg); simpl; repeat constructor.
Qed.

(** X13.  With the transport connected and the sensors answering within
    range (every PM value an [int], every temperature between -40 and 125
    degrees Celsius), any number of [loop()] iterations runs to its end:
    no conversion is undefined, and the loop never connects anew and never
    waits, so nothing holds up the next sampling pass. *)
Theorem loop_goes_on_with_sensors_in_range (fuel n : nat) (w : World) :
  sane w ->
  exists w' evs,
    run sof cfg fuel n w = Ok tt w' /\ sane w' /\
    out w' = (out w ++ evs)%list /\ Forall calm evs.
Proof.
  intros H.
  assert (C : completes
    (fun w1 => sane w1 /\ exists evs, out w1 = (out w ++ evs)%list /\ Forall calm evs)
    (run sof cfg fuel n)).
  { induction n as [|n IH]; simpl; [apply completes_ret|].
    apply completes_bind; [apply calm_loop | intros _; exact IH]. }
  destruct (C w) as ([] & w' & E & H' & evs & Ho & Hc).
  - split; [assumption|]. exists []. rewrite app_nil_r. split; [reflexivity | constructor].
  - exists w', evs. split; [assumption|]. split; [assumption|]. split; assumption.
Qed.

End Runs.
Lemma without_mqtt_the_transport_is_never_used_witness :
  let cfg := mkConfig true true true true false in
  let w := start 11259375 failing_co2 in
  connectWIFI cfg && sendMQTT cfg = false /\
  offline w (world_of (run (fun _ => "") cfg 0 3 w)) /\
  forall w', run (fun _ => "") cfg 0 3 w <> OutOfFuel w'.
Proof.
  intros cfg w.
  assert (H : connectWIFI cfg && sendMQTT cfg = false) by reflexivity.
  split; [exact H|].
  exact (without_mqtt_the_transport_is_never_used (fun _ => "") cfg 0 3 w H).
Defined.

Lemma sane_start : sane (start 11259375 failing_co2).
Proof.
  unfold sane. split; [intros i; destruct i; reflexivity|].
  split; [intros i; destruct i; reflexivity|].
  intros i. exists 0%Q. split; [destruct i; reflexivity|].
  split; intros H; discriminate H.
Qed.

Lemma loop_goes_on_with_sensors_in_range_witness :
  let cfg := mkConfig true true true true true in
  let w := start 11259375 failing_co2 in
  sane w /\
  exists w' evs,
    run (fun _ => "32.00") cfg 0 3 w = Ok tt w' /\ sane w' /\
    out w' = (out w ++ evs)%list /\ Forall calm evs.
Proof.
  intros cfg w. split; [exact sane_start|].
  exact (loop_goes_on_with_sensors_in_range (fun _ => "32.00") cfg 0 3 w sane_start).
Defined.

Lemma display_lines_agree_with_the_globals_witness :
  let cfg := mkConfig true true true true true in
  let w := start 11259375 failing_co2 in
  shown (dev w) /\ shown (dev (world_of (run (fun _ => "32.00") cfg 0 3 w))).
Proof.
  intros cfg w.
  assert (H : shown (dev w)) by (unfold shown; simpl; auto 10).
  split; [exact H|].
  exact (display_lines_agree_with_the_globals (fun _ => "32.00") cfg 0 3 w H).
Defined.

Lemma index_and_concentration_stay_in_step_witness :
  let cfg := mkConfig true true true true true in
  let w := start 11259375 (set_pm2_raw (script [Good 8; Bad (-1)] (Good 40)) failing_co2) in
  (forall i, in_int (returned (pm2_raw (env w) i)) = true) /\
  pm25toAQI (PM2 (dev w)) = Some (Firmware.AQI (dev w)) /\
  let w' := world_of (run (fun _ => "32.00") cfg 0 3 w) in
  pm25toAQI (PM2 (dev w')) = Some (Firmware.AQI (dev w')).
Proof.
  intros cfg w.
  assert (H1 : forall i, in_int (returned (pm2_raw (env w) i)) = true).
  { intros [|[|[|i]]]; reflexivity. }
  assert (H2 : pm25toAQI (PM2 (dev w)) = Some (Firmware.AQI (dev w)))
    by (vm_compute; reflexivity).
  split; [exact H1|]. split; [exact H2|].
  exact (index_and_concentration_stay_in_step (fun _ => "32.00") cfg 0 3 w H1 H2).
Defined.

Lemma temperature_that_is_no_number_is_undefined_witness :
  let cfg := mkConfig true true true true true in
  let w := start 11259375
             (set_tmp_rh (script [Bad (mkTMP_RH NaN 0)] (Good (mkTMP_RH (Fin 21) 40)))
                failing_co2) in
  hasSHT cfg = true /\
  (hasPM cfg = true -> in_int (returned (shd (pm2_raw (env w)))) = true) /\
  (forall q, t (returned (shd (tmp_rh (env w)))) <> Fin q) /\
  exists w',
    sample cfg w = Undefined w' /\ Temperature (dev w') = NaN /\
    to_int (Temperature (dev w')) = None.
Proof.
  intros cfg w.
  assert (H1 : hasSHT cfg = true) by reflexivity.
  assert (H2 : hasPM cfg = true -> in_int (returned (shd (pm2_raw (env w)))) = true)
    by (intros _; reflexivity).
  assert (H3 : forall q, t (returned (shd (tmp_rh (env w)))) <> Fin q)
    by (intros q H; discriminate H).
  split; [exact H1|]. split; [exact H2|]. split; [exact H3|].
  destruct (temperature_that_is_no_number_is_undefined cfg w H1 H2 H3)
    as (w' & E & T & _ & _ & O).
  exists w'. split; [exact E|]. split; [exact T | exact O].
Defined.

End RunFacts.

(** ** Between the ticks *)

Module IdleFacts.
Import FP Converter Text Firmware Traces FirmwareFacts.
Local Open Scope string_scope.
Local Open Scope Z_scope.

Lemma u32_elapsed t0 d : 0 <= d < 2 ^ 32 -> u32 (u32 (t0 + d) - u32 t0) = d.
Proof.
  intros Hd. unfold u32. rewrite Zminus_mod_idemp_r, Zminus_mod_idemp_l.
  replace (t0 + d - t0) with d by lia. apply Z.mod_small. assumption.
Qed.

(** The parts of [loop] that an iteration without a tick runs. *)
Ltac idle :=
  cbv [when bind ret client_connected client_loop ask emit elapsed millis get
       shd stl env dev out link clock set_link set_clock negb
       co2_raw pm2_raw tmp_rh rand conn pub].

(** X22.  Between the ticks nothing happens: an iteration of [loop()]
    that reads the clock less than 2500 ms after the last sampling pass and
    less than 30000 ms after the last publishing pass, on a connected
    transport, reads no sensor, publishes nothing, leaves the display and
    every global as they are, and returns; with WiFi and MQTT enabled all it
    does is call [client.loop()].  Sensors are never read more often than
    every 2500 ms, the broker never gets more than one publishing pass in
    30 s. *)
Theorem nothing_happens_between_the_ticks
    (sof : float -> string) (cfg : Config) (fuel : nat) (w : World)
    (ts tp ds dp : Z) :
  shd (link (env w)) = true ->
  msLAST_SAMPLE (dev w) = u32 ts -> clock (env w) 0%nat = ts + ds -> 0 <= ds < 2500 ->
  msLAST_METRIC (dev w) = u32 tp -> clock (env w) 1%nat = tp + dp -> 0 <= dp < 30000 ->
  exists w',
    loop sof cfg fuel w = Ok tt w' /\
    dev w' = dev w /\
    out w' =
      (out w ++ if connectWIFI cfg && sendMQTT cfg then [ClientLoop] else [])%list /\
    co2_raw (env w') = co2_raw (env w) /\ pm2_raw (env w') = pm2_raw (env w) /\
    tmp_rh (env w') = tmp_rh (env w) /\ pub (env w') = pub (env w).
Proof.
  intros Hl Hs Cs Ds Hp Cp Dp. unfold loop, connection.
  destruct w as [d e o]. destruct e. cbv [env dev out link clock shd] in *.
  assert (Fs : (msSAMPLE_INTERVAL <=? u32 (u32 (clock0 0%nat) - msLAST_SAMPLE d)) = false).
  { rewrite Hs, Cs, u32_elapsed by (unfold msSAMPLE_INTERVAL; lia).
    apply Z.leb_gt. unfold msSAMPLE_INTERVAL. lia. }
  assert (Fp : (msPUBLISH_INTERVAL <=? u32 (u32 (clock0 1%nat) - msLAST_METRIC d)) = false).
  { rewrite Hp, Cp, u32_elapsed by (unfold msPUBLISH_INTERVAL; lia).
    apply Z.leb_gt. unfold msPUBLISH_INTERVAL. lia. }
  destruct (connectWIFI cfg && sendMQTT cfg);
    idle; rewrite ?Hl; idle; rewrite Fs; idle; rewrite ?Fp; cbv [when ret];
    eexists; (split; [reflexivity|]); cbv [dev out env co2_raw pm2_raw tmp_rh pub];
    rewrite ?app_nil_r; repeat split; reflexivity.
Qed.

Lemma nothing_happens_between_the_ticks_witness :
  let w := mkWorld (set_msLAST_SAMPLE 4294967000 (set_msLAST_METRIC 4294960000
                      (boot 11259375)))
                   (set_clock (script [4294968000; 4294968001] 0) failing_co2) [] in
  shd (link (env w)) = true /\
  msLAST_SAMPLE (dev w) = u32 4294967000 /\
  clock (env w) 0%nat = 4294967000 + 1000 /\ 0 <= 1000 < 2500 /\
  msLAST_METRIC (dev w) = u32 4294960000 /\
  clock (env w) 1%nat = 4294960000 + 8001 /\ 0 <= 8001 < 30000 /\
  exists w',
    loop (fun _ => "32.00") co2_only 0 w = Ok tt w' /\
    dev w' = dev w /\ out w' = [ClientLoop].
Proof.
  intros w.
  assert (H1 : shd (link (env w)) = true) by reflexivity.
  assert (H2 : msLAST_SAMPLE (dev w) = u32 4294967000) by reflexivity.
  assert (H3 : clock (env w) 0%nat = 4294967000 + 1000) by reflexivity.
  assert (H4 : 0 <= 1000 < 2500) by (split; [intros E; discriminate E | reflexivity]).
  assert (H5 : msLAST_METRIC (dev w) = u32 4294960000) by reflexivity.
  assert (H6 : clock (env w) 1%nat = 4294960000 + 8001) by reflexivity.
  assert (H7 : 0 <= 8001 < 30000) by (split; [intros E; discriminate E | reflexivity]).
  repeat (split; [assumption|]).
  destruct (nothing_happens_between_the_ticks (fun _ => "32.00") co2_only 0 w
              4294967000 4294960000 1000 8001 H1 H2 H3 H4 H5 H6 H7)
    as (w' & E & Hd & Ho & _).
  exists w'. split; [exact E|]. split; [exact Hd | exact Ho].
Defined.

End IdleFacts.

(** ** [setup()] *)

Module BootFacts.
Import FP Converter Text Firmware Boot FirmwareFacts.
Local Open Scope string_scope.
Local Open Scope Z_scope.

Lemma delayed_app a b : delayed (a ++ b) = delayed a + delayed b.
Proof.
  induction a as [|c a IH]; [reflexivity|].
  destruct c; simpl; rewrite IH; lia.
Qed.

Lemma delayed_polls k : delayed (repeat (Wait 500) k) = 500 * Z.of_nat k.
Proof. induction k as [|k IH]; [reflexivity|]. cbn [repeat delayed]. rewrite IH. lia. Qed.

(** The WiFi comes up at the [k]-th poll. *)
Lemma await_wifi_up k : forall fuel status,
  (forall i, (i < k)%nat -> status i = false) -> status k = true ->
  await_wifi (k + fuel) status = Returned (repeat (Wait 500) k).
Proof.
  induction k as [|k IH]; intros fuel status Hf Ht.
  - destruct fuel; simpl; unfold shd; rewrite Ht; reflexivity.
  - cbn [Nat.add await_wifi]. unfold shd. rewrite (Hf 0%nat) by lia.
    rewrite IH; [reflexivity | |].
    + intros i Hi. unfold stl. apply Hf. lia.
    + exact Ht.
Qed.

(** The WiFi never comes up. *)
Lemma await_wifi_down fuel : forall status,
  (forall i, status i = false) ->
  await_wifi fuel status = Polling (repeat (Wait 500) fuel).
Proof.
  induction fuel as [|fuel IH]; intros status Hf.
  - simpl. unfold shd. rewrite Hf. reflexivity.
  - cbn [await_wifi]. unfold shd. rewrite Hf.
    rewrite IH; [reflexivity|]. intros i. apply Hf.
Qed.

(** X18.  [setup()] waits for the WiFi: when the status is
    [WL_CONNECTED] at the poll number [k] and not before, [setup()]
    returns, having polled with exactly [k] waits of 500 ms between
    [WiFi.mode] and [randomSeed]; its own calls of [delay] add up to
    8000 + 500 k ms.  [deviceid] is then the one [loop()] starts with. *)
Theorem setup_waits_for_the_wifi (cfg : Config) (s : Settings) (b : Board)
    (k fuel : nat) :
  connectWIFI cfg = true ->
  (forall i, (i < k)%nat -> wifi_connected b i = false) ->
  wifi_connected b k = true ->
  exists calls,
    setup cfg s b (k + fuel) = (deviceid (boot (chipId b)), Returned calls) /\
    (exists first last,
        calls = (first ++ WiFiMode_STA :: repeat (Wait 500) k ++
                 RandomSeed (micros b) :: last)%list) /\
    delayed calls = 8000 + 500 * Z.of_nat k.
Proof.
  intros Hw Hf Ht. unfold setup, setupWiFi. rewrite Hw.
  destruct (localIP b) as [[[ip0 ip1] ip2] ip3].
  rewrite (await_wifi_up k fuel _ Hf Ht). cbn [before after].
  eexists. split; [reflexivity|]. split.
  - exists ([Wait 2000; DisplayInit;
             Screen "Initializing" "Device:" (setup_deviceid (chipId b)) "" ""] ++
            ((if hasCO2 cfg then [CO2_Init] else []) ++
             (if hasPM cfg then [PMS_Init] else []) ++
             (if hasSHT cfg then [TMP_RH_Init 68] else [])) ++
            [Wait 3000; Screen "Initializing" "WiFi:" (wifi_ssid s) "" "";
             WiFiBegin (wifi_ssid s) (wifi_password s)])%list.
    exists ([Screen (dec ip0 ++ ".") (dec ip1 ++ ".") (dec ip2 ++ ".") (dec ip3) "";
             Wait 1000] ++
            (if sendMQTT cfg then [SetServer (mqtt_host s) 1883] else []) ++
            [Wait 2000])%list.
    rewrite <- !app_assoc. cbn [app]. reflexivity.
  - rewrite !delayed_app, delayed_polls.
    destruct (hasCO2 cfg), (hasPM cfg), (hasSHT cfg), (sendMQTT cfg);
      cbn [delayed app]; lia.
Qed.

(** X19.  Without WiFi [setup()] never returns: when the status is never
    [WL_CONNECTED], then however many polls are allowed [setup()] is still
    polling.  The calls it has made are the screen with the device
    identifier, the initialisation of the enabled sensors, the screen
    [Initializing / WiFi: / <ssid>], [WiFi.begin], [WiFi.mode] and one wait
    of 500 ms for each poll, and no other: [client.setServer] has not been
    called, whatever [sendMQTT] is, and [randomSeed] neither. *)
Theorem setup_polls_forever_without_wifi (cfg : Config) (s : Settings) (b : Board)
    (fuel : nat) :
  connectWIFI cfg = true ->
  (forall i, wifi_connected b i = false) ->
  snd (setup cfg s b fuel) =
    Polling ([Wait 2000; DisplayInit;
              Screen "Initializing" "Device:" (setup_deviceid (chipId b)) "" ""] ++
             (if hasCO2 cfg then [CO2_Init] else []) ++
             (if hasPM cfg then [PMS_Init] else []) ++
             (if hasSHT cfg then [TMP_RH_Init 68] else []) ++
             [Wait 3000;
              Screen "Initializing" "WiFi:" (wifi_ssid s) "" "";
              WiFiBegin (wifi_ssid s) (wifi_password s); WiFiMode_STA] ++
             repeat (Wait 500) fuel) /\
  delayed (calls_of (snd (setup cfg s b fuel))) = 5000 + 500 * Z.of_nat fuel /\
  (forall host port, ~ In (SetServer host port) (calls_of (snd (setup cfg s b fuel)))) /\
  (forall seed, ~ In (RandomSeed seed) (calls_of (snd (setup cfg s b fuel)))).
Proof.
  intros Hw Hf.
  assert (E : snd (setup cfg s b fuel) =
    Polling ([Wait 2000; DisplayInit;
              Screen "Initializing" "Device:" (setup_deviceid (chipId b)) "" ""] ++
             (if hasCO2 cfg then [CO2_Init] else []) ++
             (if hasPM cfg then [PMS_Init] else []) ++
             (if hasSHT cfg then [TMP_RH_Init 68] else []) ++
             [Wait 3000;
              Screen "Initializing" "WiFi:" (wifi_ssid s) "" "";
              WiFiBegin (wifi_ssid s) (wifi_password s); WiFiMode_STA] ++
             repeat (Wait 500) fuel)).
  { unfold setup, setupWiFi. rewrite Hw.
    destruct (localIP b) as [[[ip0 ip1] ip2] ip3].
    rewrite (await_wifi_down fuel _ Hf). cbn [before after snd].
    rewrite <- !app_assoc. cbn [app]. reflexivity. }
  assert (N : forall c, (forall ms, c <> Wait ms) -> c <> DisplayInit ->
                (forall l1 l2 l3 l4 l5, c <> Screen l1 l2 l3 l4 l5) ->
                c <> CO2_Init -> c <> PMS_Init -> (forall a, c <> TMP_RH_Init a) ->
                (forall i p, c <> WiFiBegin i p) -> c <> WiFiMode_STA ->
                ~ In c (calls_of (snd (setup cfg s b fuel)))).
  { intros c N1 N2 N3 N4 N5 N6 N7 N8 H. rewrite E in H. cbn [calls_of] in H.
    rewrite !in_app_iff in H.
    destruct H as [H | [H | [H | [H | [H | H]]]]].
    - simpl in H. destruct H as [H | [H | [H | []]]]; symmetry in H;
        [eapply N1 | apply N2 | eapply N3]; eassumption.
    - destruct (hasCO2 cfg); [|contradiction]. destruct H as [H | []].
      symmetry in H. apply N4. assumption.
    - destruct (hasPM cfg); [|contradiction]. destruct H as [H | []].
      symmetry in H. apply N5. assumption.
    - destruct (hasSHT cfg); [|contradiction]. destruct H as [H | []].
      symmetry in H. eapply N6. eassumption.
    - simpl in H. destruct H as [H | [H | [H | [H | []]]]]; symmetry in H;
        [eapply N1 | eapply N3 | eapply N7 | eapply N8]; eassumption.
    - apply repeat_spec in H. eapply N1. eassumption. }
  split; [exact E|]. split; [|split].
  - rewrite E. cbn [calls_of]. rewrite !delayed_app, delayed_polls.
    destruct (hasCO2 cfg), (hasPM cfg), (hasSHT cfg); cbn [delayed app]; lia.
  - intros host port. apply N; intros; discriminate.
  - intros seed. apply N; intros; discriminate.
Qed.

Lemma calls_of_after cs r : calls_of (after cs r) = (cs ++ calls_of r)%list.
Proof. destruct r; reflexivity. Qed.

Lemma in_before c r cs : In c (calls_of (before r cs)) -> In c (calls_of r) \/ In c cs.
Proof. destruct r; simpl; [rewrite in_app_iff|]; tauto. Qed.

Lemma await_wifi_calls fuel : forall status c,
  In c (calls_of (await_wifi fuel status)) -> c = Wait 500.
Proof.
  induction fuel as [|fuel IH]; intros status c; cbn [await_wifi];
    destruct (shd status); simpl; try contradiction.
  rewrite calls_of_after. simpl. intros [<- | H]; [reflexivity | eapply IH; eassumption].
Qed.

Lemma setupWiFi_calls s b fuel c :
  In c (calls_of (setupWiFi s b fuel)) -> of_wifi c.
Proof.
  unfold setupWiFi. destruct (localIP b) as [[[ip0 ip1] ip2] ip3].
  rewrite calls_of_after, in_app_iff. intros [H | H].
  - simpl in H. repeat (destruct H as [<- | H]; [exact I|]). contradiction.
  - apply in_before in H. destruct H as [H | H].
    + apply await_wifi_calls in H. subst c. exact I.
    + simpl in H. repeat (destruct H as [<- | H]; [exact I|]). contradiction.
Qed.

Lemma setupWiFi_begins s b fuel :
  In (WiFiBegin (wifi_ssid s) (wifi_password s)) (calls_of (setupWiFi s b fuel)).
Proof.
  unfold setupWiFi. destruct (localIP b) as [[[ip0 ip1] ip2] ip3].
  rewrite calls_of_after. simpl. auto.
Qed.

(** What follows the sensors in [setup()]. *)
Lemma setup_tail_calls cfg s b fuel c :
  In c (calls_of
          (before (if connectWIFI cfg then setupWiFi s b fuel else Returned [])
             ((if sendMQTT cfg then [SetServer (mqtt_host s) 1883] else []) ++
              [Wait 2000]))) ->
  (connectWIFI cfg = true /\ of_wifi c) \/
  (sendMQTT cfg = true /\ c = SetServer (mqtt_host s) 1883) \/
  c = Wait 2000.
Proof.
  intros H. apply in_before in H. destruct H as [H | H].
  - destruct (connectWIFI cfg); [|contradiction].
    left. split; [reflexivity | eapply setupWiFi_calls; eassumption].
  - right. rewrite in_app_iff in H. destruct H as [H | [<- | []]]; [|right; reflexivity].
    destruct (sendMQTT cfg); [|contradiction].
    destruct H as [<- | []]. left. split; reflexivity.
Qed.

(** A call that is none of a list of calls of other kinds. *)
Ltac elsewhere H :=
  simpl in H; repeat (destruct H as [H | H]; [discriminate H|]); contradiction.

(** The head of [setup()] has the call [c] only where its sensor is
    enabled. *)
Ltac in_head cfg H :=
  rewrite !in_app_iff in H; destruct H as [[H | [H | [H | H]]] | H];
  [ elsewhere H
  | destruct (hasCO2 cfg); [try reflexivity | contradiction]; try elsewhere H
  | destruct (hasPM cfg); [try reflexivity | contradiction]; try elsewhere H
  | destruct (hasSHT cfg); [try reflexivity | contradiction]; try elsewhere H
  | apply setup_tail_calls in H; destruct H as [[? H] | [[? H] | H]];
    try assumption; try contradiction; try discriminate H ].

(** X20.  [setup()] starts what is enabled and nothing else, whether it
    returns or is still polling: the CO2, PM and temperature sensors are
    initialised exactly when they are enabled, [WiFi.begin] is called
    exactly when WiFi is enabled, and the MQTT server is set only when MQTT
    is enabled.  With WiFi disabled [setup()] always returns, after the
    4000 ms of its own calls of [delay]. *)
Theorem setup_starts_what_is_enabled (cfg : Config) (s : Settings) (b : Board)
    (fuel : nat) :
  let calls := calls_of (snd (setup cfg s b fuel)) in
  (In CO2_Init calls <-> hasCO2 cfg = true) /\
  (In PMS_Init calls <-> hasPM cfg = true) /\
  ((exists address, In (TMP_RH_Init address) calls) <-> hasSHT cfg = true) /\
  ((exists ssid password, In (WiFiBegin ssid password) calls) <->
   connectWIFI cfg = true) /\
  ((exists host port, In (SetServer host port) calls) -> sendMQTT cfg = true) /\
  (connectWIFI cfg = false ->
   exists cs, snd (setup cfg s b fuel) = Returned cs /\ delayed cs = 4000).
Proof.
  cbv zeta. unfold setup. cbn [snd]. rewrite calls_of_after.
  repeat split.
  - intros H. in_head cfg H.
  - intros ->. rewrite !in_app_iff. left. right. left. left. reflexivity.
  - intros H. in_head cfg H.
  - intros ->. rewrite !in_app_iff. left. right. right. left. left. reflexivity.
  - intros [a H]. in_head cfg H.
  - intros ->. exists 68. rewrite !in_app_iff. left. right. right. right. left. reflexivity.
  - intros (ssid & pw & H). in_head cfg H.
  - intros Hw. exists (wifi_ssid s), (wifi_password s). rewrite in_app_iff. right.
    rewrite Hw. destruct (setupWiFi s b fuel) eqn:E; simpl.
    + rewrite in_app_iff. left.
      change calls with (calls_of (Returned calls)). rewrite <- E. apply setupWiFi_begins.
    + change calls with (calls_of (Polling calls)). rewrite <- E. apply setupWiFi_begins.
  - intros (host & port & H). in_head cfg H.
  - intros Hw. rewrite Hw. cbn [before after]. eexists. split; [reflexivity|].
    rewrite !delayed_app.
    destruct (hasCO2 cfg), (hasPM cfg), (hasSHT cfg), (sendMQTT cfg);
      cbn [delayed app]; lia.
Qed.

Lemma setup_waits_for_the_wifi_witness :
  let s := mkSettings "attic" "secret" "broker.local" in
  let b := mkBoard 11259375 (script [false; false; false] true) 123456
                   (192, 168, 1, 20) in
  connectWIFI co2_only = true /\
  (forall i, (i < 3)%nat -> wifi_connected b i = false) /\
  wifi_connected b 3%nat = true /\
  exists calls,
    setup co2_only s b (3 + 0) = ("abcdef", Returned calls) /\
    In (Screen "192." "168." "1." "20" "") calls /\
    delayed calls = 9500.
Proof.
  intros s b.
  assert (H1 : connectWIFI co2_only = true) by reflexivity.
  assert (H2 : forall i, (i < 3)%nat -> wifi_connected b i = false).
  { intros [|[|[|i]]] Hi; try reflexivity. lia. }
  assert (H3 : wifi_connected b 3%nat = true) by reflexivity.
  split; [exact H1|]. split; [exact H2|]. split; [exact H3|].
  destruct (setup_waits_for_the_wifi co2_only s b 3 0 H1 H2 H3) as (calls & E & _ & D).
  exists calls. split; [exact E|]. split; [|exact D].
  vm_compute in E. injection E as <-. simpl. tauto.
Defined.

Lemma setup_polls_forever_without_wifi_witness :
  let s := mkSettings "attic" "secret" "broker.local" in
  let b := mkBoard 11259375 (script [] false) 123456 (0, 0, 0, 0) in
  connectWIFI co2_only = true /\
  (forall i, wifi_connected b i = false) /\
  snd (setup co2_only s b 4) =
    Polling [Wait 2000; DisplayInit; Screen "Initializing" "Device:" "abcdef" "" "";
             CO2_Init; Wait 3000; Screen "Initializing" "WiFi:" "attic" "" "";
             WiFiBegin "attic" "secret"; WiFiMode_STA;
             Wait 500; Wait 500; Wait 500; Wait 500] /\
  delayed (calls_of (snd (setup co2_only s b 4))) = 7000 /\
  (forall host port, ~ In (SetServer host port) (calls_of (snd (setup co2_only s b 4)))).
Proof.
  intros s b.
  assert (H1 : connectWIFI co2_only = true) by reflexivity.
  assert (H2 : forall i, wifi_connected b i = false).
  { intros i. simpl. unfold script. destruct i; reflexivity. }
  split; [exact H1|]. split; [exact H2|].
  destruct (setup_polls_forever_without_wifi co2_only s b 4 H1 H2) as (E & D & N & _).
  split; [exact E|]. split; [exact D | exact N].
Defined.

End BootFacts.
